(** * Incremental inference metadata

    packages/gatsby/src/schema/infer/inference-metadata.js

    A shallow embedding of the metadata engine: the type classifier
    [getType], the descriptor updater [updateValueDescriptor], the node
    operations [addNode] / [deleteNode] / [ignore], the resolver
    [resolveWinnerType] and the example builder [buildExampleValue] /
    [getExampleObject] with [prepareConflictExamples].

    - A JavaScript object is an association list kept in the order in
      which [Object.keys] enumerates it: array-index names first, in
      ascending order, then the other names in insertion order.
    - An object holds the properties it owns.  The source keeps its maps
      ([fieldMap], [props], [nodes]) in plain objects, where a name that
      [Object.prototype] supplies ([constructor], [__proto__],
      [toString], ...) reads an inherited value; such names are outside
      the embedding, and the statements that depend on a lookup by a
      name taken from a record ask for records without them
      ([plain_record]).
    - Counters are integers ([Z]); numbers are IEEE 754 binary64 values
      ([spec_float]).
    - The source updates the descriptor tree in place and returns it;
      the tree has one owner, so the embedding returns the updated tree.
    - A [TypeError] the source would throw on a malformed descriptor is
      an outcome of the builder, beside its result and the conflicts it
      reports.
    - [is32BitInteger] and [looksLikeADate] are required from files that
      are not among the sources: the first is modelled from the
      specification, the second is a parameter. *)

From Stdlib Require Import ZArith NArith List String Ascii Bool Lia Permutation.
From Stdlib Require Import Floats.SpecFloat.
Import ListNotations.

Set Implicit Arguments.

Local Open Scope string_scope.
Local Open Scope Z_scope.

(** ** JavaScript objects used as maps *)

Module JsObject.

Section Obj.
Variables K V : Type.
Variable eqb : K -> K -> bool.
(** [index_of k] is the numeric value of a key that is an array index;
    such keys are enumerated first, in ascending order, the others
    follow in insertion order. *)
Variable index_of : K -> option N.

Definition t := list (K * V).

(** [o[k]], [None] standing for [undefined]. *)
Fixpoint get (o : t) (k : K) : option V :=
  match o with
  | [] => None
  | (k', v) :: r => if eqb k k' then Some v else get r k
  end.

(** [Object.keys(o)] *)
Definition keys (o : t) : list K := map fst o.

Definition goes_before (k k' : K) : bool :=
  match index_of k, index_of k' with
  | Some i, Some j => N.ltb i j
  | Some _, None => true
  | None, _ => false
  end.

(** Creation of a property that [o] does not have yet. *)
Fixpoint insert_new (k : K) (v : V) (o : t) : t :=
  match o with
  | [] => [(k, v)]
  | (k', v') :: r =>
      if goes_before k k' then (k, v) :: o
      else (k', v') :: insert_new k v r
  end.

(** Assignment to a property that [o] already has: its place is kept. *)
Fixpoint replace (k : K) (v : V) (o : t) : t :=
  match o with
  | [] => []
  | (k', v') :: r =>
      if eqb k k' then (k, v) :: r else (k', v') :: replace k v r
  end.

(** [o[k] = v] *)
Definition set (o : t) (k : K) (v : V) : t :=
  match get o k with
  | Some _ => replace k v o
  | None => insert_new k v o
  end.
End Obj.

End JsObject.

(** ** String-keyed objects *)

Definition digit_value (c : ascii) : option N :=
  let n := N_of_ascii c in
  if (N.leb 48 n && N.leb n 57)%bool then Some (n - 48)%N else None.

Fixpoint parse_digits (acc : N) (s : string) : option N :=
  match s with
  | EmptyString => Some acc
  | String c r =>
      match digit_value c with
      | Some d => parse_digits (10 * acc + d)%N r
      | None => None
      end
  end.

(** A property name is an array index when it is the canonical decimal
    form of an integer below [2^32 - 1]. *)
Definition array_index (s : string) : option N :=
  match s with
  | EmptyString => None
  | String "0"%char EmptyString => Some 0%N
  | String "0"%char _ => None
  | _ =>
      match parse_digits 0 s with
      | Some n => if N.ltb n 4294967295 then Some n else None
      | None => None
      end
  end.

Definition obj (V : Type) : Type := list (string * V).

(** [o[k]] for a name [k] that [o] owns or that no prototype supplies:
    the own property, [None] for [undefined]. *)
Definition oget {V} (o : obj V) (k : string) : option V :=
  JsObject.get String.eqb o k.
(** [o[k] = v] for such a name: the own property is created or
    replaced. *)
Definition oset {V} (o : obj V) (k : string) (v : V) : obj V :=
  JsObject.set String.eqb array_index o k v.
Definition okeys {V} (o : obj V) : list string := JsObject.keys o.

(** The properties of [Object.prototype], as the language defines it
    (Annex B included).  On a plain object a lookup by one of these
    names reads the inherited value, and an assignment to [__proto__]
    creates no property. *)
Definition objectPrototypeNames : list string :=
  ["constructor"; "__proto__"; "hasOwnProperty"; "isPrototypeOf";
   "propertyIsEnumerable"; "toLocaleString"; "toString"; "valueOf";
   "__defineGetter__"; "__defineSetter__"; "__lookupGetter__";
   "__lookupSetter__"].

(** A name for which [oget] and [oset] are the lookup and the
    assignment of the source. *)
Definition own_name (k : string) : bool :=
  negb (existsb (String.eqb k) objectPrototypeNames).

(** ** Raw values *)

(** A JavaScript number. *)
Definition number : Type := spec_float.

Unset Elimination Schemes.
Inductive JsValue : Type :=
| VUndefined
| VNull
| VNum (x : number)
| VStr (s : string)
| VBool (b : bool)
| VDate (time : number)             (* value instanceof Date *)
| VBoxedString (s : string)         (* value instanceof String *)
| VArr (items : list JsValue)
    (* Array.isArray(value); the elements as forEach visits them: an
       array with holes is outside the embedding *)
| VObj (entries : list (string * JsValue))
    (* any other object: its own enumerable properties as Object.keys
       lists them *)
| VFunction
| VSymbol
| VBigInt (n : Z).
Set Elimination Schemes.

Section ValueInd.
Variable P : JsValue -> Prop.
Hypothesis Hundef : P VUndefined.
Hypothesis Hnull : P VNull.
Hypothesis Hnum : forall x, P (VNum x).
Hypothesis Hstr : forall s, P (VStr s).
Hypothesis Hbool : forall b, P (VBool b).
Hypothesis Hdate : forall x, P (VDate x).
Hypothesis Hboxed : forall s, P (VBoxedString s).
Hypothesis Harr : forall items, Forall P items -> P (VArr items).
Hypothesis Hobj :
  forall entries, Forall (fun e => P (snd e)) entries -> P (VObj entries).
Hypothesis Hfun : P VFunction.
Hypothesis Hsym : P VSymbol.
Hypothesis Hbig : forall n, P (VBigInt n).

Fixpoint JsValue_ind (v : JsValue) : P v :=
  match v with
  | VUndefined => Hundef
  | VNull => Hnull
  | VNum x => Hnum x
  | VStr s => Hstr s
  | VBool b => Hbool b
  | VDate x => Hdate x
  | VBoxedString s => Hboxed s
  | VArr items =>
      Harr ((fix go (l : list JsValue) : Forall P l :=
               match l with
               | [] => Forall_nil _
               | x :: r => Forall_cons x (JsValue_ind x) (go r)
               end) items)
  | VObj entries =>
      Hobj ((fix go (l : list (string * JsValue))
               : Forall (fun e => P (snd e)) l :=
               match l with
               | [] => Forall_nil _
               | e :: r =>
                   @Forall_cons _ (fun e => P (snd e)) e r
                     (JsValue_ind (snd e)) (go r)
               end) entries)
  | VFunction => Hfun
  | VSymbol => Hsym
  | VBigInt n => Hbig n
  end.
End ValueInd.

(** ** Semantic type tags *)

Inductive tag : Type :=
| int | float | date | string_ | boolean | array | listOfUnion | object | null.

Definition tag_eqb (a b : tag) : bool :=
  match a, b with
  | int, int | float, float | date, date | string_, string_
  | boolean, boolean | array, array | listOfUnion, listOfUnion
  | object, object | null, null => true
  | _, _ => false
  end.

Definition tag_eq_dec (a b : tag) : {a = b} + {a <> b}.
Proof. decide equality. Defined.

(** The tag as the source spells it. *)
Definition tag_name (t : tag) : string :=
  match t with
  | int => "int" | float => "float" | date => "date" | string_ => "string"
  | boolean => "boolean" | array => "array" | listOfUnion => "listOfUnion"
  | object => "object" | null => "null"
  end.

(** ** Numbers *)

(** [S754_finite s m e] is the number [(-1)^s * m * 2^e]. *)
Definition number_of_Z (z : Z) : number :=
  match z with
  | Z0 => S754_zero false
  | Zpos p => S754_finite false p 0
  | Zneg p => S754_finite true p 0
  end.

(** The integer a number is equal to, when it is an integer. *)
Definition integer_value (x : number) : option Z :=
  match x with
  | S754_zero _ => Some 0
  | S754_finite s m e =>
      let sign z := if s then - z else z in
      if 0 <=? e then Some (sign (Z.pos m * 2 ^ e))
      else if Z.pos m mod 2 ^ (- e) =? 0
           then Some (sign (Z.pos m / 2 ^ (- e)))
           else None
  | S754_infinity _ | S754_nan => None
  end.

(** Modelled from the spec: [is32BitInteger] is required from
    ./is-32-bit-integer, which is not among the sources; the
    specification says a number is an [int] "if the value is exactly
    representable as a 32-bit signed integer". *)
Definition is32BitInteger (x : number) : bool :=
  match integer_value x with
  | Some z => (-2147483648 <=? z) && (z <=? 2147483647)
  | None => false
  end.

(** ** Strings *)

(** [s.includes(sub)] *)
Fixpoint includes (s sub : string) : bool :=
  String.prefix sub s
  || match s with
     | EmptyString => false
     | String _ r => includes r sub
     end.

(** [l.join(sep)] *)
Definition join (sep : string) (l : list string) : string :=
  String.concat sep l.

(** ** Value descriptors *)

(** The statistics kept for one type at one position.  A field of the
    JavaScript object that is [undefined] is [None] ([VUndefined] for
    [example], which holds a raw value). *)
Unset Elimination Schemes.
Inductive TypeInfo : Type := mkTypeInfo {
  total : Z;
  first : option string;
  example : JsValue;
  empty : option Z;
  props : option (obj (list (tag * TypeInfo)));
  item : option (list (tag * TypeInfo));
  nodes : option (obj Z)
}.
Set Elimination Schemes.

Definition ValueDescriptor : Type := list (tag * TypeInfo).

(** Descriptors are keyed by type names, none of which is an array index. *)
Definition dget (d : ValueDescriptor) (t : tag) : option TypeInfo :=
  JsObject.get tag_eqb d t.
Definition dset (d : ValueDescriptor) (t : tag) (ti : TypeInfo)
  : ValueDescriptor :=
  JsObject.set tag_eqb (fun _ => None) d t ti.
Definition dkeys (d : ValueDescriptor) : list tag := JsObject.keys d.

(** Assignments to one field of a type-info. *)
Definition with_total (ti : TypeInfo) (n : Z) : TypeInfo :=
  mkTypeInfo n (first ti) (example ti) (empty ti) (props ti) (item ti)
    (nodes ti).
Definition with_first (ti : TypeInfo) (f : option string) : TypeInfo :=
  mkTypeInfo (total ti) f (example ti) (empty ti) (props ti) (item ti)
    (nodes ti).
Definition with_example (ti : TypeInfo) (v : JsValue) : TypeInfo :=
  mkTypeInfo (total ti) (first ti) v (empty ti) (props ti) (item ti) (nodes ti).
Definition with_empty (ti : TypeInfo) (n : option Z) : TypeInfo :=
  mkTypeInfo (total ti) (first ti) (example ti) n (props ti) (item ti)
    (nodes ti).
Definition with_props (ti : TypeInfo) (p : option (obj ValueDescriptor))
  : TypeInfo :=
  mkTypeInfo (total ti) (first ti) (example ti) (empty ti) p (item ti)
    (nodes ti).
Definition with_item (ti : TypeInfo) (d : option ValueDescriptor) : TypeInfo :=
  mkTypeInfo (total ti) (first ti) (example ti) (empty ti) (props ti) d
    (nodes ti).
Definition with_nodes (ti : TypeInfo) (n : option (obj Z)) : TypeInfo :=
  mkTypeInfo (total ti) (first ti) (example ti) (empty ti) (props ti)
    (item ti) n.

(** [{ total: 0 }] *)
Definition newTypeInfo : TypeInfo :=
  mkTypeInfo 0 None VUndefined None None None None.

Definition orElse {A} (o : option A) (a : A) : A :=
  match o with Some x => x | None => a end.

Definition is_undefined (v : JsValue) : bool :=
  match v with VUndefined => true | _ => false end.

Definition nodeId_eqb (a b : option string) : bool :=
  match a, b with
  | Some x, Some y => String.eqb x y
  | None, None => true
  | _, _ => false
  end.

Inductive Operation : Type := add | del.

(** ** Type metadata *)

(** [ignored], [dirty]: [false] also stands for [undefined];
    [ignoredFields], [fieldMap], [typeName]: [None] is [undefined]. *)
Record TypeMetadata : Type := mkTypeMetadata {
  ignored : bool;
  ignoredFields : option (list string);
  fieldMap : option (obj ValueDescriptor);
  typeName : option string;
  dirty : bool
}.

(** [{}] *)
Definition noMetadata : TypeMetadata :=
  mkTypeMetadata false None None None false.

(** A record (node) is an object; [node.id] is its identifier
    ([NodeId = string]; an id of another type is outside the embedding
    and reads as [None]). *)
Definition node_id (node : obj JsValue) : option string :=
  match oget node "id" with
  | Some (VStr s) => Some s
  | _ => None
  end.

(** ** Records without inherited names *)

(** A referenced id that is a string and no name of
    [Object.prototype]. *)
Definition plain_id (v : JsValue) : bool :=
  match v with
  | VStr s => own_name s
  | _ => false
  end.

(** The value filed under [key] brings no name of [Object.prototype]
    to a lookup: none among the property names of its objects, at any
    depth, and none among the ids of its reference lists (the arrays
    under a key that holds [___NODE]), which are strings. *)
Fixpoint plain_value (key : string) (v : JsValue) {struct v} : bool :=
  match v with
  | VObj entries =>
      forallb (fun e => own_name (fst e) && plain_value (fst e) (snd e))
        entries
  | VArr items =>
      if includes key "___NODE" then forallb plain_id items
      else forallb (plain_value key) items
  | _ => true
  end.

Definition plain_record (node : obj JsValue) : bool :=
  forallb (fun e => own_name (fst e) && plain_value (fst e) (snd e)) node.

(** ** The classifier and the updater *)

Section Engine.
(** [looksLikeADate] is required from ../types/date, which is not among
    the sources. *)
Variable looksLikeADate : string -> bool.
(** The property name a value that is not a string is converted to
    when it indexes an object ([nodes[nodeId]]). *)
Variable nonStringKey : JsValue -> string.

Definition propertyKey (v : JsValue) : string :=
  match v with
  | VStr s => s
  | _ => nonStringKey v
  end.

Definition getType (value : JsValue) (key : string) : tag :=
  match value with
  | VNum x => if is32BitInteger x then int else float
  | VStr s => if looksLikeADate s then date else string_
  | VBool _ => boolean
  | VNull => null
  | VDate _ => date
  | VBoxedString _ => string_
  | VArr items =>
      match items with
      | [] => null
      | _ :: _ => if includes key "___NODE" then listOfUnion else array
      end
  | VObj entries =>
      match entries with
      | [] => null
      | _ :: _ => object
      end
  | VUndefined | VFunction | VSymbol | VBigInt _ => null
  end.

(** [nodeId] is the record's id ([NodeId = string], [None] when the
    record has none).  The result pairs the descriptor with the
    structural-change flag.  [Object.keys(value).forEach(key => ...
    value[key] ...)] runs over the entries of the object, a key with its
    value.  The body is written over the function its recursive calls go
    to; [updateValueDescriptor] below closes the recursion. *)
Definition updateValueDescriptor_body
    (updateValueDescriptor :
       option string -> string -> JsValue -> Operation ->
       option ValueDescriptor -> ValueDescriptor * bool)
    (nodeId : option string) (key : string)
    (value : JsValue) (operation : Operation)
    (descriptor : option ValueDescriptor) : ValueDescriptor * bool :=
  let descriptor := orElse descriptor [] in
  let typeName := getType value key in
  if tag_eqb typeName null then (descriptor, false) else
  let delta := match operation with del => -1 | add => 1 end in
  let typeInfo := orElse (dget descriptor typeName) newTypeInfo in
  let typeInfo := with_total typeInfo (total typeInfo + delta) in
  let dirty := (total typeInfo =? 1) || (total typeInfo =? 0) in
  let typeInfo :=
    match operation with
    | add =>
        with_first typeInfo
          match first typeInfo with
          | Some "" | None => nodeId
          | Some f => Some f
          end
    | del =>
        with_first typeInfo
          (if nodeId_eqb (first typeInfo) nodeId || (total typeInfo =? 0)
           then None else first typeInfo)
    end in
  let '(typeInfo, dirty) :=
    match typeName with
    | object =>
        let props0 := orElse (props typeInfo) [] in
        let '(props1, dirty1) :=
          match value with
          | VObj entries =>
              fold_left
                (fun acc e =>
                   let '(props, dirty) := acc in
                   let '(propDescriptor, propDirty) :=
                     updateValueDescriptor nodeId (fst e) (snd e) operation
                       (oget props (fst e)) in
                   (oset props (fst e) propDescriptor, dirty || propDirty))
                entries (props0, dirty)
          | _ => (props0, dirty)
          end in
        (with_props typeInfo (Some props1), dirty1)
    | array =>
        match value with
        | VArr items =>
            fold_left
              (fun acc item_ =>
                 let '(typeInfo, dirty) := acc in
                 let '(itemDescriptor, itemDirty) :=
                   updateValueDescriptor nodeId key item_ operation
                     (item typeInfo) in
                 (with_item typeInfo (Some itemDescriptor),
                  dirty || itemDirty))
              items (typeInfo, dirty)
        | _ => (typeInfo, dirty)
        end
    | listOfUnion =>
        let nodes0 := orElse (nodes typeInfo) [] in
        let '(nodes1, dirty1) :=
          match value with
          | VArr items =>
              fold_left
                (fun acc nodeId =>
                   let '(nodes, dirty) := acc in
                   let k := propertyKey nodeId in
                   let n := orElse (oget nodes k) 0 + delta in
                   (oset nodes k n, dirty || (n =? 0) || (n =? 1)))
                items (nodes0, dirty)
          | _ => (nodes0, dirty)
          end in
        (with_nodes typeInfo (Some nodes1), dirty1)
    | string_ =>
        let typeInfo :=
          match value with
          | VStr "" =>
              with_empty typeInfo
                (Some (orElse (empty typeInfo) 0 + delta))
          | _ => typeInfo
          end in
        (with_example typeInfo
           (if negb (is_undefined (example typeInfo))
            then example typeInfo else value),
         dirty)
    | _ =>
        (with_example typeInfo
           (if negb (is_undefined (example typeInfo))
            then example typeInfo else value),
         dirty)
    end in
  (dset descriptor typeName typeInfo, dirty).

Fixpoint updateValueDescriptor (nodeId : option string) (key : string)
    (value : JsValue) (operation : Operation)
    (descriptor : option ValueDescriptor) {struct value}
    : ValueDescriptor * bool :=
updateValueDescriptor_body updateValueDescriptor nodeId key value
  operation descriptor.

(** ** Node operations *)

(** The fields of [node] that are tracked, with their values
    ([Object.keys(node)] filtered, each key [k] paired with [node[k]]). *)
Definition nodeFields (node : obj JsValue)
    (ignoredFields : option (list string)) : list (string * JsValue) :=
  let ignoredFields := orElse ignoredFields [] in
  filter (fun e => negb (existsb (String.eqb (fst e)) ignoredFields)) node.

Definition updateTypeMetadata (metadata : TypeMetadata)
    (operation : Operation) (node : obj JsValue) : TypeMetadata :=
  if ignored metadata then metadata else
  let fieldMap0 := orElse (fieldMap metadata) [] in
  let '(fieldMap1, structureChanged) :=
    fold_left
      (fun acc e =>
         let '(fieldMap, structureChanged) := acc in
         let '(descriptor, valueStructureChanged) :=
           updateValueDescriptor (node_id node) (fst e) (snd e) operation
             (oget fieldMap (fst e)) in
         (oset fieldMap (fst e) descriptor,
          structureChanged || valueStructureChanged))
      (nodeFields node (ignoredFields metadata)) (fieldMap0, false) in
  mkTypeMetadata (ignored metadata) (ignoredFields metadata)
    (Some fieldMap1) (typeName metadata)
    (dirty metadata || structureChanged).

Definition ignore (metadata : TypeMetadata) (set : bool) : TypeMetadata :=
  mkTypeMetadata set (ignoredFields metadata) (fieldMap metadata)
    (typeName metadata) (dirty metadata).

Definition addNode (metadata : TypeMetadata) (node : obj JsValue) :=
  updateTypeMetadata metadata add node.
Definition deleteNode (metadata : TypeMetadata) (node : obj JsValue) :=
  updateTypeMetadata metadata del node.
Definition addNodes (metadata : TypeMetadata) (nodes : list (obj JsValue)) :=
  fold_left addNode nodes metadata.
End Engine.

(** ** The resolver *)

Definition positive (o : option TypeInfo) : bool :=
  match o with
  | Some ti => 0 <? total ti
  | None => false
  end.

Definition isMixedNumber (d : ValueDescriptor) : bool :=
  positive (dget d float) && positive (dget d int).

Definition isMixOfDateAndString (d : ValueDescriptor) : bool :=
  positive (dget d date) && positive (dget d string_).

Definition hasOnlyEmptyStrings (d : ValueDescriptor) : bool :=
  match dget d string_ with
  | Some ti =>
      match empty ti with
      | Some e => e =? total ti
      | None => false
      end
  | None => false
  end.

Definition possibleTypes (descriptor : ValueDescriptor) : list tag :=
  filter (fun type => positive (dget descriptor type)) (dkeys descriptor).

(** The result [[type]] or [[type, true]], the second component being
    [false] when the source leaves it out. *)
Definition resolveWinnerType (descriptor : ValueDescriptor) : tag * bool :=
  let candidates := possibleTypes descriptor in
  match candidates with
  | [c] => (c, false)
  | _ =>
      if (List.length candidates =? 2)%nat && isMixedNumber descriptor
      then (float, false)
      else if (List.length candidates =? 2)%nat
              && isMixOfDateAndString descriptor
      then (if hasOnlyEmptyStrings descriptor then date else string_, false)
      else if (1 <? List.length candidates)%nat then (null, true)
      else (null, false)
  end.

(** ** The example builder *)

(** An alternative [{ type, value }] reported for a conflict, and a call
    [typeConflictReporter.addConflict(path, examples)]. *)
Record ConflictExample : Type := mkExample {
  example_type : string;
  example_value : JsValue
}.

Record Conflict : Type := mkConflict {
  conflict_path : string;
  conflict_examples : list ConflictExample
}.

(** The outcome of a builder call: a result with the conflicts reported
    on the way, or the [TypeError] the source throws when it reads a
    property of [undefined].  [OutOfFuel] belongs to the embedding only
    (see [buildExampleValue_total]). *)
Inductive outcome (A : Type) : Type :=
| Ok (a : A) (reported : list Conflict)
| TypeError
| OutOfFuel.
Arguments TypeError {A}.
Arguments OutOfFuel {A}.

Definition ret {A} (a : A) : outcome A := Ok a [].

Definition bind {A B} (m : outcome A) (f : A -> outcome B) : outcome B :=
  match m with
  | Ok a l =>
      match f a with
      | Ok b l' => Ok b (l ++ l')%list
      | TypeError => TypeError
      | OutOfFuel => OutOfFuel
      end
  | TypeError => TypeError
  | OutOfFuel => OutOfFuel
  end.

Notation "x <- m ;; k" := (bind m (fun x => k))
  (at level 61, m at next level, right associativity).

Definition addConflict (path : string) (examples : list ConflictExample)
  : outcome unit :=
  Ok tt [mkConflict path examples].

(** Reading a property of [o]: a [TypeError] when [o] is [undefined]. *)
Definition defined {A} (o : option A) : outcome A :=
  match o with
  | Some a => ret a
  | None => TypeError
  end.

Fixpoint mapM {A B} (f : A -> outcome B) (l : list A) : outcome (list B) :=
  match l with
  | [] => ret []
  | a :: r => b <- f a ;; bs <- mapM f r ;; ret (b :: bs)
  end.

Definition is_null (v : JsValue) : bool :=
  match v with VNull => true | _ => false end.

(** [Object.keys(nodes).filter(key => nodes[key] > 0)] *)
Definition positiveNodes (nodes : obj Z) : list string :=
  filter (fun key => match oget nodes key with
                     | Some n => 0 <? n
                     | None => false
                     end) (okeys nodes).

Definition typeNameMapper (typeName : tag) : string :=
  match typeName with
  | listOfUnion => "[string]"
  | float | int => "number"
  | _ => tag_name typeName
  end.

(** lodash's [groupBy(l, f)]: an object whose keys are the values of [f]. *)
Definition groupBy {A} (l : list A) (f : A -> string) : obj (list A) :=
  fold_left
    (fun groups a =>
       match oget groups (f a) with
       | Some g => oset groups (f a) (g ++ [a])%list
       | None => oset groups (f a) [a]
       end) l [].

Section Builder.
(** [build descriptor typeConflictReporter isArrayItem path] stands for
    the recursive calls of [buildExampleValue]; [typeConflictReporter]
    tells whether a reporter is passed. *)
Variable build : ValueDescriptor -> bool -> bool -> string -> outcome JsValue.

Definition getExampleObject_with (fieldMap : obj ValueDescriptor)
    (typeName : string) (typeConflictReporter : bool)
    : outcome (obj JsValue) :=
  fold_left
    (fun acc key =>
       acc <- acc ;;
       descriptor <- defined (oget fieldMap key) ;;
       value <- build descriptor typeConflictReporter false
                  (typeName ++ "." ++ key) ;;
       if negb (key =? "")%string && negb (is_null value)
       then ret (oset acc key value)
       else ret acc)
    (okeys fieldMap) (ret []).

(** The inner function [reportedValueMapper] of
  [prepareConflictExamples], over the descriptor it closes on. *)
Definition reportedValueMapper (descriptor : ValueDescriptor)
  (typeName : tag) : outcome JsValue :=
match typeName with
| listOfUnion =>
    ti <- defined (dget descriptor listOfUnion) ;;
    nodes <- defined (nodes ti) ;;
    ret (VArr (map VStr (positiveNodes nodes)))
| object =>
    ti <- defined (dget descriptor object) ;;
    props <- defined (props ti) ;;
    o <- getExampleObject_with props (tag_name typeName) false ;;
    ret (VObj o)
| array =>
    ti <- defined (dget descriptor array) ;;
    item <- defined (item ti) ;;
    itemValue <- build item false true "" ;;
    ret (if is_null itemValue || is_undefined itemValue
         then VArr [] else VArr [itemValue])
| _ =>
    ti <- defined (dget descriptor typeName) ;;
    ret (example ti)
end.

Definition prepareConflictExamples_with (descriptor : ValueDescriptor)
  (isArrayItem : bool) : outcome (list ConflictExample) :=
let conflictingTypes := possibleTypes descriptor in
if isArrayItem then
  let groups :=
    groupBy conflictingTypes
      (fun type =>
         match dget descriptor type with
         | Some ti =>
             match first ti with
             | Some "" | None => ""
             | Some f => f
             end
         | None => ""
         end) in
  mapM (fun nodeId =>
          group <- defined (oget groups nodeId) ;;
          values <- mapM (reportedValueMapper descriptor) group ;;
          ret (mkExample
                 ("[" ++ join "," (map typeNameMapper group) ++ "]")
                 (VArr values)))
       (okeys groups)
else
  mapM (fun type =>
          value <- reportedValueMapper descriptor type ;;
          ret (mkExample (typeNameMapper type) value))
       conflictingTypes.
End Builder.

Fixpoint buildExampleValue_fuel (fuel : nat) (descriptor : ValueDescriptor)
    (typeConflictReporter isArrayItem : bool) (path : string)
    : outcome JsValue :=
  match fuel with
  | O => OutOfFuel
  | S fuel =>
      let build := buildExampleValue_fuel fuel in
      let '(type, conflicts) := resolveWinnerType descriptor in
      _ <- (if conflicts && typeConflictReporter
            then examples <- prepareConflictExamples_with build descriptor
                               isArrayItem ;;
                 addConflict path examples
            else ret tt) ;;
      let typeInfo := dget descriptor type in
      match type with
      | null => ret VNull
      | date | string_ =>
          if isMixOfDateAndString descriptor
          then ret (VStr (if hasOnlyEmptyStrings descriptor
                          then "1978-09-26" else "String"))
          else ti <- defined typeInfo ;; ret (example ti)
      | array =>
          ti <- defined typeInfo ;;
          exampleItemValue <-
            match item ti with
            | Some item => build item typeConflictReporter true path
            | None => ret VNull
            end ;;
          ret (if is_null exampleItemValue then VNull
               else VArr [exampleItemValue])
      | listOfUnion =>
          ti <- defined typeInfo ;;
          ret (VArr (map VStr (positiveNodes (orElse (nodes ti) []))))
      | object =>
          ti <- defined typeInfo ;;
          props <- defined (props ti) ;;
          o <- fold_left
                 (fun acc prop =>
                    acc <- acc ;;
                    d <- defined (oget props prop) ;;
                    value <- build d typeConflictReporter false
                               (path ++ "." ++ prop) ;;
                    if negb (is_null value) then ret (oset acc prop value)
                    else ret acc)
                 (okeys props) (ret []) ;;
          ret (VObj o)
      | _ => ti <- defined typeInfo ;; ret (example ti)
      end
  end.

(** The nesting depth of a descriptor bounds the depth of the recursion. *)
Fixpoint typeInfo_depth (ti : TypeInfo) : nat :=
  match ti with
  | mkTypeInfo _ _ _ _ props item _ =>
      S (Nat.max
           (match props with
            | Some ps =>
                list_max
                  (map (fun e =>
                          list_max (map (fun e' => typeInfo_depth (snd e'))
                                      (snd e))) ps)
            | None => O
            end)
           (match item with
            | Some d => list_max (map (fun e' => typeInfo_depth (snd e')) d)
            | None => O
            end))
  end.

Definition descriptor_depth (d : ValueDescriptor) : nat :=
  list_max (map (fun e => typeInfo_depth (snd e)) d).

Definition fieldMap_depth (m : obj ValueDescriptor) : nat :=
  list_max (map (fun e => descriptor_depth (snd e)) m).

Definition buildExampleValue (descriptor : ValueDescriptor)
    (typeConflictReporter isArrayItem : bool) (path : string)
    : outcome JsValue :=
  buildExampleValue_fuel (S (descriptor_depth descriptor)) descriptor
    typeConflictReporter isArrayItem path.

Definition prepareConflictExamples :=
  prepareConflictExamples_with buildExampleValue.

(** [typeName] is the string the template literal [`${typeName}.${key}`]
    renders. *)
Definition getExampleObject (fieldMap : obj ValueDescriptor)
    (typeName : string) (typeConflictReporter : bool) : outcome (obj JsValue) :=
  getExampleObject_with buildExampleValue fieldMap typeName
    typeConflictReporter.

(** [isEmpty({ fieldMap })]; [None] is the [TypeError] thrown when
    [fieldMap] is [undefined]. *)
Definition isEmpty (metadata : TypeMetadata) : option bool :=
  match fieldMap metadata with
  | Some fieldMap =>
      Some (forallb
              (fun field =>
                 match oget fieldMap field with
                 | Some d => (List.length (possibleTypes d) =? 0)%nat
                 | None => false (* not reached: [field] is a key *)
                 end)
              (okeys fieldMap))
  | None => None
  end.

(** The signed 32-bit range. *)
Definition int32 (z : Z) : Prop := -2147483648 <= z <= 2147483647.

(** ** Reading the counters of a descriptor tree *)

(** A tag that has no type-info stands for zero observations. *)
Definition total_of (d : ValueDescriptor) (t : tag) : Z :=
  match dget d t with
  | Some ti => total ti
  | None => 0
  end.

(** The count [nodes[id]] of a [listOfUnion] type-info, zero when absent. *)
Definition nodes_of (d : ValueDescriptor) (id : string) : Z :=
  match dget d listOfUnion with
  | Some ti =>
      match nodes ti with
      | Some ns => orElse (oget ns id) 0
      | None => 0
      end
  | None => 0
  end.

(** One level of nesting: a property of the [object] type-info, or the
    shared [item] descriptor of the [array] type-info. *)
Inductive step : Type :=
| AtProp (name : string)
| AtItem.

Definition child (d : ValueDescriptor) (s : step) : ValueDescriptor :=
  match s with
  | AtProp name =>
      match dget d object with
      | Some ti =>
          match props ti with
          | Some ps => orElse (oget ps name) []
          | None => []
          end
      | None => []
      end
  | AtItem =>
      match dget d array with
      | Some ti => orElse (item ti) []
      | None => []
      end
  end.

Definition descriptor_at (d : ValueDescriptor) (path : list step)
  : ValueDescriptor :=
  fold_left child path d.

Definition field_descriptor (fieldMap : option (obj ValueDescriptor))
    (field : string) : ValueDescriptor :=
  match fieldMap with
  | Some m => orElse (oget m field) []
  | None => []
  end.

Definition delta_of (operation : Operation) : Z :=
  match operation with del => -1 | add => 1 end.

Definition Zsum (l : list Z) : Z := fold_right Z.add 0 l.

(** A counter kept at one position: the total of a tag, or the count of
    a referenced id. *)
Inductive counter : Type :=
| TotalOf (t : tag)
| NodesOf (id : string).

Definition read (d : ValueDescriptor) (c : counter) : Z :=
  match c with
  | TotalOf t => total_of d t
  | NodesOf id => nodes_of d id
  end.

Section Counting.
Variable looksLikeADate : string -> bool.
Variable nonStringKey : JsValue -> string.

(** What a value filed under [key] adds to the counter [c] found at
    [path] below the position of the value: the values of the counted
    type, or the references to the counted id, that it holds there. *)
Fixpoint contribution (path : list step) (key : string) (v : JsValue)
    (c : counter) : Z :=
  match path with
  | [] =>
      match c with
      | TotalOf t =>
          match getType looksLikeADate v key with
          | null => 0
          | ty => if tag_eqb ty t then 1 else 0
          end
      | NodesOf id =>
          match getType looksLikeADate v key, v with
          | listOfUnion, VArr items =>
              Zsum (map (fun i =>
                           if String.eqb (propertyKey nonStringKey i) id
                           then 1 else 0) items)
          | _, _ => 0
          end
      end
  | AtProp name :: rest =>
      match getType looksLikeADate v key, v with
      | object, VObj entries =>
          Zsum (map (fun e =>
                       if String.eqb (fst e) name
                       then contribution rest (fst e) (snd e) c else 0)
                  entries)
      | _, _ => 0
      end
  | AtItem :: rest =>
      match getType looksLikeADate v key, v with
      | array, VArr items =>
          Zsum (map (fun i => contribution rest key i c) items)
      | _, _ => 0
      end
  end.

(** The three loops of the updater, without the flag they also carry. *)
Definition props_after (nodeId : option string) (operation : Operation)
    (entries : list (string * JsValue)) (props : obj ValueDescriptor)
  : obj ValueDescriptor :=
  fold_left
    (fun props e =>
       oset props (fst e)
         (fst (updateValueDescriptor looksLikeADate nonStringKey nodeId
                 (fst e) (snd e) operation (oget props (fst e)))))
    entries props.

Definition item_after (nodeId : option string) (key : string)
    (operation : Operation) (items : list JsValue)
    (item : option ValueDescriptor) : option ValueDescriptor :=
  fold_left
    (fun item i =>
       Some (fst (updateValueDescriptor looksLikeADate nonStringKey nodeId
                    key i operation item)))
    items item.

Definition nodes_after (operation : Operation) (items : list JsValue)
    (nodes : obj Z) : obj Z :=
  fold_left
    (fun nodes i =>
       oset nodes (propertyKey nonStringKey i)
         (orElse (oget nodes (propertyKey nonStringKey i)) 0
          + delta_of operation))
    items nodes.

(** What one call adds to every counter of the tree. *)
Definition counts_add_up (v : JsValue) : Prop :=
  forall nodeId key operation d path c,
    read (descriptor_at
            (fst (updateValueDescriptor looksLikeADate nonStringKey nodeId
                    key v operation d)) path) c
    = read (descriptor_at (orElse d []) path) c
      + delta_of operation * contribution path key v c.

(** What the fields of one record add to the counters of a field. *)
Definition record_contribution (m : TypeMetadata) (node : obj JsValue)
    (field : string) (path : list step) (c : counter) : Z :=
  Zsum (map (fun e =>
               if String.eqb (fst e) field
               then contribution path (fst e) (snd e) c
               else 0)
          (nodeFields node (ignoredFields m))).
End Counting.

(** The flag a type-info gives rise to by itself: its total is 1 or 0
    after the update. *)
Definition own_flag (n : Z) : bool := (n =? 1) || (n =? 0).

(** ** Statements of the specification, and the inputs they are run on *)

Definition scalar (t : tag) : bool :=
  match t with
  | int | float | date | string_ | boolean => true
  | array | listOfUnion | object | null => false
  end.

(** The calls of the descriptor updater on one position. *)
Record call : Type := mkCall {
  call_nodeId : option string;
  call_key : string;
  call_value : JsValue;
  call_operation : Operation
}.

Definition run_calls (looksLikeADate : string -> bool)
    (nonStringKey : JsValue -> string) (calls : list call)
    (d : ValueDescriptor) : ValueDescriptor :=
  fold_left
    (fun d c =>
       fst (updateValueDescriptor looksLikeADate nonStringKey
              (call_nodeId c) (call_key c) (call_value c)
              (call_operation c) (Some d)))
    calls d.

(** The records of the two worked examples; ["id"] is ignored. *)
Definition one_and_a_half : number := S754_finite false 3 (-1).

Definition metadata_ignoring_id : TypeMetadata :=
  mkTypeMetadata false (Some ["id"]) None None false.

Definition widening_n1 : obj JsValue :=
  [("id", VStr "1"); ("foo", VNum (number_of_Z 1))].
Definition widening_n2 : obj JsValue :=
  [("id", VStr "2"); ("foo", VNum one_and_a_half)].

Definition conflict_n1 : obj JsValue :=
  [("id", VStr "1"); ("foo", VNum (number_of_Z 25))].
Definition conflict_n2 : obj JsValue :=
  [("id", VStr "2"); ("foo", VStr "x")].

(** "the resolved type for foo is float, no conflict is reported, and
    the example value is the first numeric example recorded (1)". *)
Definition widening_example_is_first_number : Prop :=
  forall (looksLikeADate : string -> bool) (nonStringKey : JsValue -> string)
         (typeName : string),
    let m := addNode looksLikeADate nonStringKey
               (addNode looksLikeADate nonStringKey metadata_ignoring_id
                  widening_n1) widening_n2 in
    exists fm d o,
      fieldMap m = Some fm /\ oget fm "foo" = Some d /\
      resolveWinnerType d = (float, false) /\
      getExampleObject fm typeName true = Ok o [] /\
      oget o "foo" = Some (VNum (number_of_Z 1)).

(** Parameters used where a statement is run on a concrete input: no
    string is taken for a date, and a reference that is not a string is
    filed under the empty name. *)
Definition neverADate (s : string) : bool := false.
Definition emptyKey (v : JsValue) : string := "".

(** The descriptor of a field that has seen the object [{a: 1}] once. *)
Definition seen_object_a : ValueDescriptor :=
  fst (updateValueDescriptor neverADate emptyKey (Some "1") "f"
         (VObj [("a", VNum (number_of_Z 1))]) add None).

(** A field map with a field of the empty name that has seen the
    integer 5. *)
Definition fieldMap_with_empty_name : obj ValueDescriptor :=
  orElse (fieldMap (addNode neverADate emptyKey metadata_ignoring_id
                      [("id", VStr "1"); ("", VNum (number_of_Z 5))])) [].

(** A call of the builder that does not stop for want of fuel. *)
Definition finishes {A} (m : outcome A) : Prop := m <> OutOfFuel.

(** The descriptor of [foo] after [{id: "1", foo: 1}] and
    [{id: "2", foo: 1.5}]. *)
Definition int_and_float : ValueDescriptor :=
  field_descriptor
    (fieldMap (addNode neverADate emptyKey
                 (addNode neverADate emptyKey metadata_ignoring_id
                    widening_n1) widening_n2)) "foo".

(** A delete that no add matches, on metadata that has seen nothing. *)
Definition unmatched_delete : TypeMetadata :=
  deleteNode neverADate emptyKey metadata_ignoring_id
    [("id", VStr "1"); ("foo", VNum (number_of_Z 5))].

(** A descriptor that has seen the integer 25, and later calls on it. *)
Definition seen_25 : ValueDescriptor :=
  [(int, mkTypeInfo 1 (Some "1") (VNum (number_of_Z 25)) None None None None)].

Definition later_calls : list call :=
  [mkCall (Some "1") "foo" (VNum (number_of_Z 25)) del;
   mkCall (Some "2") "foo" (VNum (number_of_Z 7)) add;
   mkCall (Some "3") "foo" (VStr "x") add;
   mkCall (Some "2") "foo" (VNum (number_of_Z 7)) del].

(** The descriptor of a field that has seen the integers 5 and 7, in
    the records "1" and "2". *)
Definition seen_5_and_7 : ValueDescriptor :=
  run_calls neverADate emptyKey
    [mkCall (Some "1") "f" (VNum (number_of_Z 5)) add;
     mkCall (Some "2") "f" (VNum (number_of_Z 7)) add] [].

(** The record of the reference-list example. *)
Definition related_node : obj JsValue :=
  [("id", VStr "1"); ("related___NODE", VArr [VStr "a"; VStr "b"])].

(** * The engine as a whole

    The definitions below serve statements about sequences of calls and
    about the builder on the metadata those calls leave. *)

(** ** The recursion of the builder *)

(** The descriptors a call of the builder on [d] can recurse into: the
    [item] of the [array] type-info and the [props] of the [object]
    type-info. *)
Definition sub_descriptor (d d' : ValueDescriptor) : Prop :=
  (exists ti, dget d array = Some ti /\ item ti = Some d') \/
  (exists ti ps name,
      dget d object = Some ti /\ props ti = Some ps /\
      oget ps name = Some d').

(** The body of [buildExampleValue], over the function [build] its
    recursive calls go to. *)
Definition buildExampleValue_body
    (build : ValueDescriptor -> bool -> bool -> string -> outcome JsValue)
    (descriptor : ValueDescriptor) (typeConflictReporter isArrayItem : bool)
    (path : string) : outcome JsValue :=
  let '(type, conflicts) := resolveWinnerType descriptor in
  _ <- (if conflicts && typeConflictReporter
        then examples <- prepareConflictExamples_with build descriptor
                           isArrayItem ;;
             addConflict path examples
        else ret tt) ;;
  let typeInfo := dget descriptor type in
  match type with
  | null => ret VNull
  | date | string_ =>
      if isMixOfDateAndString descriptor
      then ret (VStr (if hasOnlyEmptyStrings descriptor
                      then "1978-09-26" else "String"))
      else ti <- defined typeInfo ;; ret (example ti)
  | array =>
      ti <- defined typeInfo ;;
      exampleItemValue <-
        match item ti with
        | Some item => build item typeConflictReporter true path
        | None => ret VNull
        end ;;
      ret (if is_null exampleItemValue then VNull
           else VArr [exampleItemValue])
  | listOfUnion =>
      ti <- defined typeInfo ;;
      ret (VArr (map VStr (positiveNodes (orElse (nodes ti) []))))
  | object =>
      ti <- defined typeInfo ;;
      props <- defined (props ti) ;;
      o <- fold_left
             (fun acc prop =>
                acc <- acc ;;
                d <- defined (oget props prop) ;;
                value <- build d typeConflictReporter false
                           (path ++ "." ++ prop) ;;
                if negb (is_null value) then ret (oset acc prop value)
                else ret acc)
             (okeys props) (ret []) ;;
      ret (VObj o)
  | _ => ti <- defined typeInfo ;; ret (example ti)
  end.

(** ** Predicates on the outcome of a builder call *)

(** Every conflict reported by the call satisfies [Q]. *)
Definition all_reported {A} (Q : Conflict -> Prop) (m : outcome A) : Prop :=
  forall a l, m = Ok a l -> forall c, In c l -> Q c.

(** The call returns a result: it does not throw. *)
Definition returns {A} (m : outcome A) : Prop := exists a l, m = Ok a l.

(** The second outcome is the first one without its reports. *)
Definition same_value {A} (m m' : outcome A) : Prop :=
  forall a l, m = Ok a l -> m' = Ok a [].

(** A path that extends [prefix]. *)
Definition extends_path (prefix path : string) : Prop :=
  exists suffix, path = prefix ++ suffix.

(** The loop shared by [getExampleObject] and the [object] case of
    [buildExampleValue]: [example key d] builds the example of the
    descriptor under [key], [keep key value] decides whether it is
    assigned to the result. *)
Definition example_entries
    (example : string -> ValueDescriptor -> outcome JsValue)
    (keep : string -> JsValue -> bool) (fm : obj ValueDescriptor)
    (keys : list string) (start : outcome (obj JsValue))
  : outcome (obj JsValue) :=
  fold_left
    (fun acc key =>
       acc <- acc ;;
       d <- defined (oget fm key) ;;
       value <- example key d ;;
       if keep key value then ret (oset acc key value) else ret acc)
    keys start.

(** [value] is the example kept for [key]. *)
Definition kept_example
    (example : string -> ValueDescriptor -> outcome JsValue)
    (keep : string -> JsValue -> bool) (fm : obj ValueDescriptor)
    (key : string) (value : JsValue) : Prop :=
  keep key value = true /\
  exists d l, oget fm key = Some d /\ example key d = Ok value l.

(** ** Descriptors as the updater leaves them *)

(** The [object] type-info has its [props], the [array] type-info its
    [item] and the [listOfUnion] type-info its [nodes], at every depth:
    what the builder reads without a default. *)
Unset Elimination Schemes.
Inductive well_formed : ValueDescriptor -> Prop :=
| well_formed_intro (d : ValueDescriptor) :
    (forall ti, dget d object = Some ti ->
                exists ps, props ti = Some ps /\
                           forall name d', oget ps name = Some d' ->
                                           well_formed d') ->
    (forall ti, dget d array = Some ti ->
                exists it, item ti = Some it /\ well_formed it) ->
    (forall ti, dget d listOfUnion = Some ti ->
                exists ns, nodes ti = Some ns) ->
    well_formed d.
Set Elimination Schemes.

Definition well_formed_fieldMap (fm : option (obj ValueDescriptor)) : Prop :=
  forall m name d, fm = Some m -> oget m name = Some d -> well_formed d.

(** The calls of the exported functions that change a metadata. *)
Inductive mutation : Type :=
| AddNode (node : obj JsValue)
| DeleteNode (node : obj JsValue)
| Ignore (set : bool).

Definition mutate (looksLikeADate : string -> bool)
    (nonStringKey : JsValue -> string) (m : TypeMetadata) (c : mutation)
  : TypeMetadata :=
  match c with
  | AddNode node => addNode looksLikeADate nonStringKey m node
  | DeleteNode node => deleteNode looksLikeADate nonStringKey m node
  | Ignore set => ignore m set
  end.

Definition mutations (looksLikeADate : string -> bool)
    (nonStringKey : JsValue -> string) (calls : list mutation)
    (m : TypeMetadata) : TypeMetadata :=
  fold_left (mutate looksLikeADate nonStringKey) calls m.

(** A value whose updates keep descriptors well formed. *)
Definition keeps_well_formed (looksLikeADate : string -> bool)
    (nonStringKey : JsValue -> string) (v : JsValue) : Prop :=
  forall nodeId key operation d,
    (forall d0, d = Some d0 -> well_formed d0) ->
    well_formed
      (fst (updateValueDescriptor looksLikeADate nonStringKey nodeId key v
              operation d)).

(** ** Sequences of calls *)

(** A call whose record is plain. *)
Definition plain_call (c : mutation) : bool :=
  match c with
  | AddNode node | DeleteNode node => plain_record node
  | Ignore _ => true
  end.

(** A call of [addNode] or [deleteNode]. *)
Definition is_update (c : mutation) : bool :=
  match c with
  | AddNode _ | DeleteNode _ => true
  | Ignore _ => false
  end.

(** What a call adds to the counter [c] found at [path] below [field],
    on a metadata that is not ignored. *)
Definition effect (looksLikeADate : string -> bool)
    (nonStringKey : JsValue -> string) (m : TypeMetadata) (field : string)
    (path : list step) (c : counter) (call : mutation) : Z :=
  match call with
  | AddNode node =>
      record_contribution looksLikeADate nonStringKey m node field path c
  | DeleteNode node =>
      - record_contribution looksLikeADate nonStringKey m node field path c
  | Ignore _ => 0
  end.

(** The counter [c] at [path] below [field] of a metadata. *)
Definition counter_at (m : TypeMetadata) (field : string)
    (path : list step) (c : counter) : Z :=
  read (descriptor_at (field_descriptor (fieldMap m) field) path) c.

(** The value of [field] in [node] has the type [t]. *)
Definition has_type (looksLikeADate : string -> bool) (field : string)
    (t : tag) (node : obj JsValue) : bool :=
  match oget node field with
  | Some v => tag_eqb (getType looksLikeADate v field) t
  | None => false
  end.

(** [field] is not among the ignored fields of [m]. *)
Definition tracked (m : TypeMetadata) (field : string) : bool :=
  negb (existsb (String.eqb field) (orElse (ignoredFields m) [])).

(** One turn of the loop of [updateTypeMetadata], on the field map and
    the flag [structureChanged]. *)
Definition fields_step (looksLikeADate : string -> bool)
    (nonStringKey : JsValue -> string) (nodeId : option string)
    (operation : Operation) (acc : obj ValueDescriptor * bool)
    (e : string * JsValue) : obj ValueDescriptor * bool :=
  let '(fieldMap, structureChanged) := acc in
  let '(descriptor, valueStructureChanged) :=
    updateValueDescriptor looksLikeADate nonStringKey nodeId (fst e)
      (snd e) operation (oget fieldMap (fst e)) in
  (oset fieldMap (fst e) descriptor,
   structureChanged || valueStructureChanged).

(** One turn of the [listOfUnion] loop of [updateValueDescriptor], on
    [nodes] and the flag [dirty]. *)
Definition nodes_step (nonStringKey : JsValue -> string) (delta : Z)
    (acc : obj Z * bool) (nodeId : JsValue) : obj Z * bool :=
  let '(nodes, dirty) := acc in
  let k := propertyKey nonStringKey nodeId in
  let n := orElse (oget nodes k) 0 + delta in
  (oset nodes k n, dirty || (n =? 0) || (n =? 1)).

(** The counter [empty] of the strings of a descriptor, zero when
    absent. *)
Definition empty_of (d : ValueDescriptor) : Z :=
  match dget d string_ with
  | Some ti => orElse (empty ti) 0
  | None => 0
  end.

(** The value is the empty string and counts as a string. *)
Definition is_empty_string (looksLikeADate : string -> bool) (v : JsValue)
  : bool :=
  match v with
  | VStr "" => negb (looksLikeADate "")
  | _ => false
  end.

(** The value of [field] in [node] is the empty string. *)
Definition has_empty_string (looksLikeADate : string -> bool)
    (field : string) (node : obj JsValue) : bool :=
  match oget node field with
  | Some v => is_empty_string looksLikeADate v
  | None => false
  end.

(** ** Inputs the statements are run on *)

(** The descriptor of a field that has seen the array [[1, 2]] once. *)
Definition seen_array_1_2 : ValueDescriptor :=
  fst (updateValueDescriptor neverADate emptyKey (Some "1") "f"
         (VArr [VNum (number_of_Z 1); VNum (number_of_Z 2)]) add None).

(** A descriptor that has seen a date and a string. *)
Definition date_and_string : ValueDescriptor :=
  [(date, mkTypeInfo 1 (Some "1") (VStr "2020-01-01") None None None None);
   (string_, mkTypeInfo 1 (Some "2") (VStr "x") None None None None)].

(** The field map after [{id: "1", foo: 25}] and [{id: "2", foo: "x"}]. *)
Definition conflict_fieldMap : obj ValueDescriptor :=
  orElse (fieldMap (addNode neverADate emptyKey
                      (addNode neverADate emptyKey metadata_ignoring_id
                         conflict_n1) conflict_n2)) [].

Definition conflict_on_foo : Conflict :=
  mkConflict "T.foo"
    [mkExample "number" (VNum (number_of_Z 25));
     mkExample "string" (VStr "x")].

(** A metadata with an empty field map, and one already marked dirty. *)
Definition metadata_without_fields : TypeMetadata :=
  mkTypeMetadata false (Some ["id"]) (Some []) None false.

Definition dirty_metadata : TypeMetadata :=
  mkTypeMetadata false None None None true.

(** A record whose only tracked value is [null]. *)
Definition null_node : obj JsValue :=
  [("id", VStr "1"); ("foo", VNull)].

(** A record whose value for [foo] is the empty string. *)
Definition empty_string_node : obj JsValue :=
  [("id", VStr "1"); ("foo", VStr "")].

(** A record whose value for [foo] is 7. *)
Definition seven_node : obj JsValue :=
  [("id", VStr "3"); ("foo", VNum (number_of_Z 7))].

(** * Properties *)

(** ** Lookup after assignment *)

Section JsObjectFacts.
Variables K V : Type.
Variable eqb : K -> K -> bool.
Variable index_of : K -> option N.
Hypothesis eqb_eq : forall a b, eqb a b = true <-> a = b.

Local Abbreviation get := (JsObject.get eqb).
Local Abbreviation set := (JsObject.set eqb index_of).
Local Abbreviation replace := (JsObject.replace eqb).
Local Abbreviation insert_new := (JsObject.insert_new index_of).

Lemma eqb_refl a : eqb a a = true.
Proof using eqb_eq. apply eqb_eq. reflexivity. Qed.

Lemma eqb_neq a b : a <> b -> eqb a b = false.
Proof using eqb_eq.
  intros H. destruct (eqb a b) eqn:E; [|reflexivity].
  apply eqb_eq in E. contradiction.
Qed.

Lemma get_replace_same (o : list (K * V)) k v w :
  get o k = Some w -> get (replace k v o) k = Some v.
Proof.
  induction o as [|[k' v'] r IH]; simpl; [discriminate|].
  destruct (eqb k k') eqn:E; simpl.
  - now rewrite eqb_refl.
  - now rewrite E.
Qed.

Lemma get_replace_other (o : list (K * V)) k v k' :
  k <> k' -> get (replace k v o) k' = get o k'.
Proof.
  intros Hne. induction o as [|[k0 v0] r IH]; simpl; [reflexivity|].
  destruct (eqb k k0) eqn:E; simpl.
  - apply eqb_eq in E. subst k0.
    rewrite (eqb_neq (not_eq_sym Hne)). reflexivity.
  - now rewrite IH.
Qed.

Lemma get_insert_new_same (o : list (K * V)) k v :
  get o k = None -> get (insert_new k v o) k = Some v.
Proof.
  induction o as [|[k' v'] r IH]; simpl; intros H.
  - now rewrite eqb_refl.
  - destruct (eqb k k') eqn:E; [discriminate|].
    destruct (JsObject.goes_before index_of k k'); simpl.
    + now rewrite eqb_refl.
    + rewrite E. now apply IH.
Qed.

Lemma get_insert_new_other (o : list (K * V)) k v k' :
  k <> k' -> get (insert_new k v o) k' = get o k'.
Proof.
  intros Hne. induction o as [|[k0 v0] r IH]; simpl.
  - now rewrite (eqb_neq (not_eq_sym Hne)).
  - destruct (JsObject.goes_before index_of k k0); simpl.
    + now rewrite (eqb_neq (not_eq_sym Hne)).
    + now rewrite IH.
Qed.

Lemma get_set_same (o : list (K * V)) k v : get (set o k v) k = Some v.
Proof.
  unfold JsObject.set. destruct (get o k) eqn:E.
  - eapply get_replace_same; eauto.
  - now apply get_insert_new_same.
Qed.

Lemma get_set_other (o : list (K * V)) k v k' :
  k <> k' -> get (set o k v) k' = get o k'.
Proof.
  intros Hne. unfold JsObject.set. destruct (get o k).
  - now apply get_replace_other.
  - now apply get_insert_new_other.
Qed.

Lemma get_In (o : list (K * V)) k v : get o k = Some v -> In (k, v) o.
Proof.
  induction o as [|[k' v'] r IH]; simpl; [discriminate|].
  destruct (eqb k k') eqn:E.
  - intros [= ->]. apply eqb_eq in E. subst. now left.
  - intros H. right. now apply IH.
Qed.

Lemma get_keys (o : list (K * V)) k v :
  get o k = Some v -> In k (JsObject.keys o).
Proof.
  intros H. apply get_In in H. unfold JsObject.keys.
  change k with (fst (k, v)). now apply in_map.
Qed.

Lemma keys_get (o : list (K * V)) k :
  In k (JsObject.keys o) -> exists v, get o k = Some v.
Proof using eqb_eq.
  unfold JsObject.keys. induction o as [|[k' v'] r IH]; simpl.
  - intros [].
  - intros [Hk | H].
    + subst k'. rewrite eqb_refl. exists v'. reflexivity.
    + destruct (eqb k k').
      * exists v'. reflexivity.
      * exact (IH H).
Qed.
End JsObjectFacts.

Lemma tag_eqb_eq a b : tag_eqb a b = true <-> a = b.
Proof. destruct a, b; simpl; split; intros H; congruence. Qed.

Lemma oget_oset V (o : obj V) k v k' :
  oget (oset o k v) k' = if String.eqb k k' then Some v else oget o k'.
Proof.
  destruct (String.eqb_spec k k') as [->|Hne].
  - apply get_set_same, String.eqb_eq.
  - apply get_set_other; [apply String.eqb_eq | assumption].
Qed.

Lemma dget_dset (d : ValueDescriptor) t ti t' :
  dget (dset d t ti) t' = if tag_eqb t t' then Some ti else dget d t'.
Proof.
  destruct (tag_eqb t t') eqn:E.
  - apply tag_eqb_eq in E. subst. apply get_set_same, tag_eqb_eq.
  - apply get_set_other; [apply tag_eqb_eq|].
    intros ->. rewrite (proj2 (tag_eqb_eq t' t') eq_refl) in E. discriminate.
Qed.

(** ** The classifier *)

Lemma prefix_app (p s : string) :
  String.prefix p s = true <-> exists r, s = p ++ r.
Proof.
  revert s. induction p as [|c p IH]; intros s.
  - destruct s; simpl; split; eauto.
  - destruct s as [|c' s]; simpl.
    + split; [discriminate | intros [r Hr]; discriminate].
    + destruct (Ascii.ascii_dec c c') as [->|Hne].
      * rewrite IH. split; intros [r Hr]; exists r; congruence.
      * split; [discriminate | intros [r Hr]; congruence].
Qed.

Lemma includes_unfold (s sub : string) :
  includes s sub =
  String.prefix sub s
  || match s with
     | EmptyString => false
     | String _ r => includes r sub
     end.
Proof. destruct s; reflexivity. Qed.

Lemma includes_spec (s sub : string) :
  includes s sub = true <-> exists a b, s = a ++ sub ++ b.
Proof.
  induction s as [|c s IH]; rewrite includes_unfold.
  - rewrite orb_false_r, prefix_app. split.
    + intros [r Hr]. exists "", r. exact Hr.
    + intros [a [b H]]. destruct a; simpl in H; [eauto | discriminate].
  - rewrite orb_true_iff, prefix_app, IH. split.
    + intros [[r Hr] | [a [b H]]].
      * exists "", r. exact Hr.
      * exists (String c a), b. simpl. now rewrite H.
    + intros [a [b H]]. destruct a as [|c' a]; simpl in H.
      * left. eauto.
      * right. exists a, b. congruence.
Qed.


Example is32BitInteger_examples :
  is32BitInteger (number_of_Z 1) = true /\
  is32BitInteger (S754_zero true) = true /\
  is32BitInteger (S754_finite false 3 (-1)) = false /\
  is32BitInteger (S754_finite false 6 (-1)) = true /\
  is32BitInteger (number_of_Z (-2147483648)) = true /\
  is32BitInteger (number_of_Z 2147483648) = false /\
  is32BitInteger S754_nan = false /\
  is32BitInteger (S754_infinity false) = false.
Proof. repeat split. Qed.

(** C7: [getType] is a total function of the value and the key; a number
    is an [int] exactly when it is an integer in the signed 32-bit range
    and a [float] otherwise; an empty array is [null]; a non-empty array is
    a [listOfUnion] exactly when the key contains ["___NODE"] and an
    [array] otherwise; an object without own properties is [null]; and
    [undefined], functions, symbols and big integers are [null]. *)
Theorem getType_classification (looksLikeADate : string -> bool) :
  (forall value key, exists t, getType looksLikeADate value key = t) /\
  (forall x key,
      (getType looksLikeADate (VNum x) key = int <->
       exists z, integer_value x = Some z /\ int32 z) /\
      (getType looksLikeADate (VNum x) key = float <->
       ~ exists z, integer_value x = Some z /\ int32 z)) /\
  (forall key, getType looksLikeADate (VArr []) key = null) /\
  (forall v items key,
      (getType looksLikeADate (VArr (v :: items)) key = listOfUnion <->
       exists a b, key = a ++ "___NODE" ++ b) /\
      (getType looksLikeADate (VArr (v :: items)) key = array <->
       ~ exists a b, key = a ++ "___NODE" ++ b)) /\
  (forall key, getType looksLikeADate (VObj []) key = null) /\
  (forall key,
      getType looksLikeADate VUndefined key = null /\
      getType looksLikeADate VNull key = null /\
      getType looksLikeADate VFunction key = null /\
      getType looksLikeADate VSymbol key = null /\
      forall n, getType looksLikeADate (VBigInt n) key = null).
Proof.
  split; [eauto|]. split; [|split; [reflexivity|split; [|split]]].
  - intros x key. simpl. unfold is32BitInteger, int32.
    destruct (integer_value x) as [z|].
    + destruct ((-2147483648 <=? z) && (z <=? 2147483647)) eqn:E.
      * apply andb_true_iff in E. destruct E as [E1 E2].
        apply Z.leb_le in E1, E2.
        split; split; try congruence; try discriminate.
        -- intros _. exists z. split; [reflexivity | lia].
        -- intros H. exfalso. apply H. exists z. split; [reflexivity | lia].
      * apply andb_false_iff in E.
        assert (Hn : ~ (-2147483648 <= z <= 2147483647)).
        { destruct E as [E|E]; apply Z.leb_gt in E; lia. }
        split; split; try congruence; try discriminate.
        -- intros [z' [[= <-] Hz]]. contradiction.
        -- intros _ [z' [[= <-] Hz]]. contradiction.
    + split; split; try congruence; try discriminate.
      * intros [z [Hz _]]. discriminate.
      * intros _ [z [Hz _]]. discriminate.
  - intros v items key. simpl.
    pose proof (includes_spec key "___NODE") as HI.
    destruct (includes key "___NODE"); split; split; intros H;
      try reflexivity; try discriminate.
    + now apply HI.
    + exfalso. apply H, HI. reflexivity.
    + apply HI in H. discriminate.
    + intros H'. apply HI in H'. discriminate.
  - reflexivity.
  - intros key. repeat split.
Qed.

(** ** Sticky ignore *)

(** C6: once [ignore m true] has been applied, any sequence of [addNode]
    and [deleteNode] calls returns the metadata as it was, [fieldMap] and
    [dirty] included. *)
Theorem ignored_metadata_is_frozen (looksLikeADate : string -> bool)
    (nonStringKey : JsValue -> string) (m : TypeMetadata)
    (calls : list (Operation * obj JsValue)) :
  let frozen := ignore m true in
  fold_left
    (fun acc c =>
       match fst c with
       | add => addNode looksLikeADate nonStringKey acc (snd c)
       | del => deleteNode looksLikeADate nonStringKey acc (snd c)
       end)
    calls frozen = frozen
  /\ (forall n, addNode looksLikeADate nonStringKey frozen n = frozen)
  /\ (forall n, deleteNode looksLikeADate nonStringKey frozen n = frozen).
Proof.
  cbv zeta. split; [|split; reflexivity].
  induction calls as [|[op n] calls IH]; [reflexivity|].
  simpl. destruct op; exact IH.
Qed.

(** ** The resolver *)

Lemma positive_dget_keys (d : ValueDescriptor) (t : tag) :
  positive (dget d t) = true -> In t (dkeys d).
Proof.
  unfold positive, dget, dkeys.
  destruct (JsObject.get tag_eqb d t) eqn:E; [|discriminate].
  intros _. eapply get_keys; [apply tag_eqb_eq | exact E].
Qed.

Lemma possibleTypes_In (d : ValueDescriptor) (t : tag) :
  In t (possibleTypes d) <-> positive (dget d t) = true.
Proof.
  unfold possibleTypes. rewrite filter_In. split.
  - tauto.
  - intros H. split; [now apply positive_dget_keys | exact H].
Qed.

Lemma positive_total (d : ValueDescriptor) (t : tag) :
  positive (dget d t) = true <->
  exists ti, dget d t = Some ti /\ 0 < total ti.
Proof.
  unfold positive. destruct (dget d t) as [ti|].
  - rewrite Z.ltb_lt. split; [eauto | now intros [ti' [[= <-] H]]].
  - split; [discriminate | now intros [ti' [H _]]].
Qed.

Lemma possibleTypes_pair (d : ValueDescriptor) (a b : tag) :
  a <> b -> List.length (possibleTypes d) = 2%nat ->
  In a (possibleTypes d) -> In b (possibleTypes d) ->
  Permutation (possibleTypes d) [a; b].
Proof.
  intros Hab Hlen Ha Hb.
  destruct (possibleTypes d) as [|x [|y [|z l]]]; try discriminate.
  simpl in Ha, Hb.
  destruct Ha as [->|[->|[]]], Hb as [->|[->|[]]];
    try contradiction; [apply Permutation_refl | apply perm_swap].
Qed.


(** ** The descriptor updater *)

Lemma fold_left_invariant (A B : Type) (P : A -> Prop) (f : A -> B -> A)
    (l : list B) (a : A) :
  P a -> (forall x b, P x -> P (f x b)) -> P (fold_left f l a).
Proof.
  intros Ha Hstep. revert a Ha.
  induction l as [|b l IH]; simpl; intros a Ha; [exact Ha|].
  apply IH. now apply Hstep.
Qed.

Section UpdaterFacts.
Variable looksLikeADate : string -> bool.
Variable nonStringKey : JsValue -> string.

Local Abbreviation getType' := (getType looksLikeADate).
Local Abbreviation update :=
  (updateValueDescriptor looksLikeADate nonStringKey).

Lemma updateValueDescriptor_unfold nodeId key value operation descriptor :
  update nodeId key value operation descriptor =
  updateValueDescriptor_body looksLikeADate nonStringKey update
    nodeId key value operation descriptor.
Proof. destruct value; reflexivity. Qed.

Lemma update_null nodeId key value operation descriptor :
  getType' value key = null ->
  update nodeId key value operation descriptor = (orElse descriptor [], false).
Proof.
  intros H. rewrite updateValueDescriptor_unfold.
  unfold updateValueDescriptor_body. now rewrite H.
Qed.

(** What every call on a value with a type leaves in the descriptor and
    in the flag. *)
Lemma update_typed nodeId key value operation descriptor :
  let tn := getType' value key in
  let d0 := orElse descriptor [] in
  let ti0 := orElse (dget d0 tn) newTypeInfo in
  let r := update nodeId key value operation descriptor in
  tn <> null ->
  exists ti',
    fst r = dset d0 tn ti' /\
    total ti' = total ti0 + delta_of operation /\
    example ti' =
      (if scalar tn && is_undefined (example ti0)
       then value else example ti0) /\
    (own_flag (total ti') = true -> snd r = true) /\
    (scalar tn = true -> snd r = own_flag (total ti')).
Proof.
  cbv zeta. intros Hnn.
  rewrite updateValueDescriptor_unfold. unfold updateValueDescriptor_body.
  set (tn := getType' value key) in *.
  set (d0 := orElse descriptor []).
  set (ti0 := orElse (dget d0 tn) newTypeInfo).
  destruct (tag_eqb tn null) eqn:En;
    [apply tag_eqb_eq in En; contradiction|].
  set (delta := match operation with add => 1 | del => -1 end).
  assert (Hdelta : delta = delta_of operation)
    by (destruct operation; reflexivity).
  set (ti1 := with_total ti0 (total ti0 + delta)).
  match goal with
  | |- context [match operation with add => ?A | del => ?B end] =>
      set (ti2 := match operation with add => A | del => B end)
  end.
  assert (H2 : total ti2 = total ti0 + delta /\ example ti2 = example ti0
               /\ props ti2 = props ti0 /\ item ti2 = item ti0
               /\ nodes ti2 = nodes ti0 /\ empty ti2 = empty ti0).
  { unfold ti2. destruct operation; repeat split. }
  destruct H2 as (Ht2 & He2 & _).
  change (total ti1) with (total ti0 + delta).
  fold (own_flag (total ti0 + delta)).
  clearbody ti2 delta. clear ti1. subst delta.
  assert (Hscal : forall ti, total ti = total ti2 -> example ti = example ti2 ->
            let r := (with_example ti
                        (if negb (is_undefined (example ti)) then example ti
                         else value),
                      own_flag (total ti0 + delta_of operation)) in
            scalar tn = true ->
            exists ti',
              fst (dset d0 tn (fst r), snd r) = dset d0 tn ti' /\
              total ti' = total ti0 + delta_of operation /\
              example ti' =
                (if scalar tn && is_undefined (example ti0)
                 then value else example ti0) /\
              (own_flag (total ti') = true ->
               snd (dset d0 tn (fst r), snd r) = true) /\
              (scalar tn = true ->
               snd (dset d0 tn (fst r), snd r) = own_flag (total ti'))).
  { intros ti Ht He r Hs. eexists. split; [reflexivity|]. simpl.
    rewrite Ht, Ht2, He, He2, Hs. simpl.
    repeat split; auto.
    destruct (is_undefined (example ti0)); reflexivity. }
  assert (Hcont : forall ti' b,
            scalar tn = false ->
            total ti' = total ti2 -> example ti' = example ti2 ->
            (own_flag (total ti0 + delta_of operation) = true -> b = true) ->
            exists ti'',
              fst (dset d0 tn ti', b) = dset d0 tn ti'' /\
              total ti'' = total ti0 + delta_of operation /\
              example ti'' =
                (if scalar tn && is_undefined (example ti0)
                 then value else example ti0) /\
              (own_flag (total ti'') = true ->
               snd (dset d0 tn ti', b) = true) /\
              (scalar tn = true ->
               snd (dset d0 tn ti', b) = own_flag (total ti''))).
  { intros ti' b Hs Ht He Hb. exists ti'. simpl.
    rewrite Ht, Ht2, He, He2, Hs. simpl.
    repeat split; auto. discriminate. }
  destruct tn eqn:Etn; try (now apply Hscal); try contradiction.
  - (* string *)
    destruct value as [| | |s| | | | | | | |];
      try (now apply Hscal).
    destruct s; now apply Hscal.
  - (* array *)
    match goal with
    | |- context [let '(a, b) := ?X in _] => assert (HX :
        total (fst X) = total ti2 /\ example (fst X) = example ti2 /\
        (own_flag (total ti0 + delta_of operation) = true -> snd X = true))
    end.
    { destruct value; try (repeat split; auto; fail).
      apply fold_left_invariant; [repeat split; auto|].
      intros [ti dr] b (Ht & He & Hd).
      destruct (update nodeId key b operation (item ti)) as [idesc idirty].
      simpl in *. repeat split; auto.
      intros Ho. rewrite (Hd Ho). reflexivity. }
    match goal with
    | |- context [let '(a, b) := ?X in _] => destruct X as [ti' b']
    end.
    simpl in HX. destruct HX as (Ht & He & Hd). now apply Hcont.
  - (* listOfUnion *)
    destruct value; try (apply Hcont; auto; reflexivity).
    match goal with
    | |- context [fold_left ?f ?l (?a, ?b)] =>
        assert (HF : b = true -> snd (fold_left f l (a, b)) = true);
        [ apply (fold_left_invariant
                   (fun acc => b = true -> snd acc = true)); [auto|]
        | destruct (fold_left f l (a, b)) as [ns b'] ]
    end.
    + intros [ns dr] e Hd Ho. simpl in *. rewrite (Hd Ho). reflexivity.
    + apply Hcont; auto; reflexivity.
  - (* object *)
    destruct value; try (apply Hcont; auto; reflexivity).
    match goal with
    | |- context [fold_left ?f ?l (?a, ?b)] =>
        assert (HF : b = true -> snd (fold_left f l (a, b)) = true);
        [ apply (fold_left_invariant
                   (fun acc => b = true -> snd acc = true)); [auto|]
        | destruct (fold_left f l (a, b)) as [ps b'] ]
    end.
    + intros [ps dr] e Hd Ho.
      destruct (update nodeId (fst e) (snd e) operation (oget ps (fst e)))
        as [pdesc pdirty].
      simpl in *. rewrite (Hd Ho). reflexivity.
    + apply Hcont; auto; reflexivity.
Qed.
End UpdaterFacts.

Lemma total_of_dset (d : ValueDescriptor) (t : tag) (ti : TypeInfo) (t' : tag) :
  total_of (dset d t ti) t' = if tag_eqb t t' then total ti else total_of d t'.
Proof.
  unfold total_of. rewrite dget_dset. now destruct (tag_eqb t t').
Qed.

Lemma total_of_orElse (d : ValueDescriptor) (t : tag) :
  total (orElse (dget d t) newTypeInfo) = total_of d t.
Proof. unfold total_of. now destruct (dget d t). Qed.

Lemma tag_eqb_refl (t : tag) : tag_eqb t t = true.
Proof. now apply tag_eqb_eq. Qed.

Lemma own_flag_true (n : Z) : own_flag n = true <-> n = 1 \/ n = 0.
Proof.
  unfold own_flag. rewrite orb_true_iff, !Z.eqb_eq. tauto.
Qed.

Lemma is_undefined_false (v : JsValue) :
  v <> VUndefined -> is_undefined v = false.
Proof. destruct v; simpl; congruence. Qed.

Lemma update_keeps_example (looksLikeADate : string -> bool)
    (nonStringKey : JsValue -> string) nodeId key value operation
    (d : ValueDescriptor) (t : tag) (ti : TypeInfo) :
  dget d t = Some ti -> example ti <> VUndefined ->
  exists ti',
    dget (fst (updateValueDescriptor looksLikeADate nonStringKey nodeId key
                 value operation (Some d))) t = Some ti' /\
    example ti' = example ti.
Proof.
  intros Hd He.
  destruct (tag_eq_dec (getType looksLikeADate value key) null) as [Hn|Hn].
  - rewrite update_null by exact Hn. simpl. eauto.
  - destruct (update_typed looksLikeADate nonStringKey nodeId key value
                operation (Some d) Hn) as (ti' & Hr & _ & Hex & _).
    rewrite Hr. simpl orElse in *. rewrite dget_dset.
    destruct (tag_eqb (getType looksLikeADate value key) t) eqn:E.
    + apply tag_eqb_eq in E. rewrite E in Hex. rewrite Hd in Hex.
      simpl in Hex. rewrite (is_undefined_false He), andb_false_r in Hex.
      eauto.
    + eauto.
Qed.


(** The example is taken from the first value of a scalar type that
    reaches the position. *)
Lemma example_set_by_first_value (looksLikeADate : string -> bool)
    (nonStringKey : JsValue -> string) nodeId key value operation
    (d : ValueDescriptor) :
  let t := getType looksLikeADate value key in
  scalar t = true ->
  (forall ti, dget d t = Some ti -> example ti = VUndefined) ->
  exists ti',
    dget (fst (updateValueDescriptor looksLikeADate nonStringKey nodeId key
                 value operation (Some d))) t = Some ti' /\
    example ti' = value.
Proof.
  cbv zeta. intros Hs Hd.
  assert (Hn : getType looksLikeADate value key <> null).
  { intros E. rewrite E in Hs. discriminate. }
  destruct (update_typed looksLikeADate nonStringKey nodeId key value
              operation (Some d) Hn) as (ti' & Hr & _ & Hex & _).
  rewrite Hr. simpl orElse in *. rewrite dget_dset, tag_eqb_refl.
  exists ti'. split; [reflexivity|].
  rewrite Hex, Hs. simpl.
  destruct (dget d (getType looksLikeADate value key)) as [ti|] eqn:E.
  - simpl. now rewrite (Hd ti eq_refl).
  - reflexivity.
Qed.

(** C1: for a value of a scalar type the total of the type moves by
    one, and the flag is true exactly when the updated total is 1 or 0,
    whichever the operation: the test of line 134 reads the updated
    total only.  Under [add] that is the appearance of the type (from 0
    to 1); under [del] it is its disappearance (from 1 to 0) and also
    the step from 2 to 1, for which the specification, and the comment
    above the test, ask for no change.  An [add] from 1 to 2 reports none. *)
Theorem scalar_flag_tests_updated_total (looksLikeADate : string -> bool)
    (nonStringKey : JsValue -> string) nodeId key value operation
    (d : ValueDescriptor) :
  let t := getType looksLikeADate value key in
  let r := updateValueDescriptor looksLikeADate nonStringKey nodeId key
             value operation (Some d) in
  let before := total_of d t in
  let after := total_of (fst r) t in
  scalar t = true ->
  after = before + delta_of operation /\
  (snd r = true <-> after = 1 \/ after = 0).
Proof.
  cbv zeta. intros Hs.
  assert (Hn : getType looksLikeADate value key <> null).
  { intros E. rewrite E in Hs. discriminate. }
  destruct (update_typed looksLikeADate nonStringKey nodeId key value
              operation (Some d) Hn) as (ti' & Hr & Ht & _ & _ & Hsc).
  rewrite (Hsc Hs), Hr, total_of_dset, tag_eqb_refl.
  simpl orElse in Ht. rewrite total_of_orElse in Ht.
  split; [exact Ht | apply own_flag_true].
Qed.


(** ** The example builder *)

Lemma bind_Ok (A B : Type) (m : outcome A) (f : A -> outcome B) b l :
  bind m f = Ok b l ->
  exists a l1 l2, m = Ok a l1 /\ f a = Ok b l2 /\ l = (l1 ++ l2)%list.
Proof.
  unfold bind. destruct m as [a l1| |]; try discriminate.
  destruct (f a) as [b' l2| |] eqn:E; try discriminate.
  intros [= <- <-]. eauto 6.
Qed.

Lemma defined_Ok (A : Type) (o : option A) a l :
  defined o = Ok a l -> o = Some a /\ l = [].
Proof.
  destruct o; simpl; [|discriminate]. unfold ret. now intros [= <- <-].
Qed.

Lemma mapM_Ok (A B : Type) (f : A -> outcome B) (l : list A) bs lg :
  mapM f l = Ok bs lg -> Forall2 (fun a b => exists lg', f a = Ok b lg') l bs.
Proof.
  revert bs lg. induction l as [|a l IH]; simpl; intros bs lg H.
  - unfold ret in H. injection H as <- <-. constructor.
  - apply bind_Ok in H. destruct H as (b & l1 & l2 & Hb & H & _).
    apply bind_Ok in H. destruct H as (bs' & l3 & l4 & Hbs & H & _).
    unfold ret in H. injection H as <- <-.
    constructor; [eauto | eapply IH; eauto].
Qed.

Lemma fold_left_invariant_In (A B : Type) (P : A -> Prop) (f : A -> B -> A)
    (l : list B) (a : A) :
  P a -> (forall x b, In b l -> P x -> P (f x b)) -> P (fold_left f l a).
Proof.
  revert a. induction l as [|b l IH]; simpl; intros a Ha Hstep; [exact Ha|].
  apply IH; [apply Hstep; auto | intros x b' Hin; apply Hstep; auto].
Qed.

Lemma groupBy_members (A : Type) (l : list A) (f : A -> string) k g :
  oget (groupBy l f) k = Some g -> g <> [] /\ incl g l.
Proof.
  unfold groupBy. revert k g.
  apply (fold_left_invariant_In
           (fun groups => forall k g, oget groups k = Some g ->
                                      g <> [] /\ incl g l)).
  - intros k g H. discriminate.
  - intros groups a Hin IH k g.
    destruct (oget groups (f a)) as [g0|] eqn:E; rewrite oget_oset;
      destruct (String.eqb (f a) k); try apply IH.
    + intros [= <-]. destruct (IH _ _ E) as [_ Hincl]. split.
      * destruct g0; discriminate.
      * apply incl_app; [exact Hincl|]. intros x [<-|[]]. exact Hin.
    + intros [= <-]. split; [discriminate|]. intros x [<-|[]]. exact Hin.
Qed.

Lemma getExampleObject_with_no_empty_name build fieldMap typeName reporter
    o lg :
  getExampleObject_with build fieldMap typeName reporter = Ok o lg ->
  oget o "" = None.
Proof.
  unfold getExampleObject_with. revert o lg.
  apply (fold_left_invariant
           (fun acc => forall o lg, acc = Ok o lg -> oget o "" = None)).
  - unfold ret. now intros o lg [= <- <-].
  - intros acc key IH o lg H.
    apply bind_Ok in H. destruct H as (o1 & l1 & l2 & Hacc & H & _).
    apply bind_Ok in H. destruct H as (d & l3 & l4 & _ & H & _).
    apply bind_Ok in H. destruct H as (v & l5 & l6 & _ & H & _).
    specialize (IH _ _ Hacc).
    destruct (String.eqb_spec key "") as [->|Hne]; simpl in H.
    + unfold ret in H. now injection H as <- <-.
    + destruct (is_null v); simpl in H; unfold ret in H;
        injection H as <- <-; [exact IH|].
      rewrite oget_oset.
      destruct (String.eqb_spec key ""); [contradiction | exact IH].
Qed.

(** C9: the object [getExampleObject] returns never has a property whose
    name is the empty string, whatever the descriptor of a field of that
    name holds. *)
Theorem getExampleObject_omits_empty_name (fieldMap : obj ValueDescriptor)
    (typeName : string) (typeConflictReporter : bool) o lg :
  getExampleObject fieldMap typeName typeConflictReporter = Ok o lg ->
  oget o "" = None /\ ~ In "" (okeys o).
Proof.
  intros H. apply getExampleObject_with_no_empty_name in H.
  split; [exact H|]. intros Hin.
  apply (keys_get String.eqb String.eqb_eq) in Hin.
  destruct Hin as [v Hv]. unfold oget in H. congruence.
Qed.


Lemma getExampleObject_omits_empty_name_witness :
  (exists d, oget fieldMap_with_empty_name "" = Some d /\
             buildExampleValue d false false "T."
             = Ok (VNum (number_of_Z 5)) []) /\
  getExampleObject fieldMap_with_empty_name "T" false = Ok [] [] /\
  oget (@nil (string * JsValue)) "" = None /\
  ~ In "" (okeys (@nil (string * JsValue))).
Proof.
  split.
  { exists [(int, mkTypeInfo 1 (Some "1") (VNum (number_of_Z 5))
                    None None None None)].
    split; vm_compute; reflexivity. }
  split; [vm_compute; reflexivity|].
  apply (@getExampleObject_omits_empty_name fieldMap_with_empty_name "T"
           false [] []).
  vm_compute. reflexivity.
Defined.

(** ** Counts that are not positive *)

Lemma resolveWinnerType_candidate (d : ValueDescriptor) t c :
  resolveWinnerType d = (t, c) -> t <> null ->
  c = false /\ In t (possibleTypes d).
Proof.
  unfold resolveWinnerType.
  destruct (possibleTypes d) as [|x [|y l]] eqn:EP.
  - simpl. intros [= <- <-]. contradiction.
  - intros [= <- <-] _. split; [reflexivity | now left].
  - rewrite <- EP.
    destruct ((List.length (possibleTypes d) =? 2)%nat && isMixedNumber d)
      eqn:E1.
    + intros [= <- <-] _. split; [reflexivity|].
      apply andb_true_iff in E1. destruct E1 as [_ E1].
      unfold isMixedNumber in E1. apply andb_true_iff in E1.
      now apply possibleTypes_In.
    + destruct ((List.length (possibleTypes d) =? 2)%nat
                && isMixOfDateAndString d) eqn:E2.
      * intros [= <- <-] _. split; [reflexivity|].
        apply andb_true_iff in E2. destruct E2 as [_ E2].
        unfold isMixOfDateAndString in E2. apply andb_true_iff in E2.
        destruct (hasOnlyEmptyStrings d); now apply possibleTypes_In.
      * destruct (1 <? List.length (possibleTypes d))%nat;
          intros [= <- <-]; contradiction.
Qed.

Lemma positiveNodes_In (ns : obj Z) (id : string) :
  In id (positiveNodes ns) -> exists n, oget ns id = Some n /\ 0 < n.
Proof.
  unfold positiveNodes. rewrite filter_In. intros [_ H].
  destruct (oget ns id) as [n|]; [|discriminate].
  exists n. split; [reflexivity | now apply Z.ltb_lt].
Qed.

Lemma buildExampleValue_listOfUnion (d : ValueDescriptor) r a p c :
  resolveWinnerType d = (listOfUnion, c) ->
  exists ti,
    dget d listOfUnion = Some ti /\
    buildExampleValue d r a p
    = Ok (VArr (map VStr (positiveNodes (orElse (nodes ti) [])))) [].
Proof.
  intros H.
  destruct (resolveWinnerType_candidate d H) as [-> Hin]; [discriminate|].
  apply possibleTypes_In, positive_total in Hin.
  destruct Hin as (ti & Hti & _). exists ti. split; [exact Hti|].
  unfold buildExampleValue. simpl. rewrite H. simpl. rewrite Hti.
  reflexivity.
Qed.

Lemma prepareConflictExamples_with_labels build (d : ValueDescriptor)
    (isArrayItem : bool) alts lg :
  prepareConflictExamples_with build d isArrayItem = Ok alts lg ->
  if isArrayItem then
    forall alt, In alt alts ->
      exists group, group <> [] /\ incl group (possibleTypes d) /\
        example_type alt = "[" ++ join "," (map typeNameMapper group) ++ "]"
  else map example_type alts = map typeNameMapper (possibleTypes d).
Proof.
  unfold prepareConflictExamples_with. destruct isArrayItem; intros H.
  - apply mapM_Ok in H. intros alt Hin.
    match type of H with
    | Forall2 _ (okeys ?G) _ => set (groups := G) in *
    end.
    assert (HG : forall k g, oget groups k = Some g ->
                             g <> [] /\ incl g (possibleTypes d))
      by (intros k g; apply groupBy_members).
    clearbody groups.
    induction H as [|k b ks bs Hkb _ IH]; [contradiction|].
    destruct Hin as [<-|Hin]; [|now apply IH].
    destruct Hkb as [lg' Hkb].
    apply bind_Ok in Hkb. destruct Hkb as (g & l1 & l2 & Hg & Hkb & _).
    apply bind_Ok in Hkb. destruct Hkb as (vs & l3 & l4 & _ & Hkb & _).
    unfold ret in Hkb. injection Hkb as <- _.
    apply defined_Ok in Hg. destruct Hg as [Hg _].
    destruct (HG _ _ Hg) as [Hne Hincl].
    exists g. simpl. auto.
  - apply mapM_Ok in H.
    induction H as [|t b ts bs Htb _ IH]; [reflexivity|].
    simpl. f_equal; [|exact IH].
    destruct Htb as [lg' Htb].
    apply bind_Ok in Htb. destruct Htb as (v & l1 & l2 & _ & Htb & _).
    unfold ret in Htb. now injection Htb as <- _.
Qed.

(** C10: a type-info whose total is zero or negative counts for nothing:
    its tag is no candidate of [resolveWinnerType], so it is never the
    winning type and never among the alternatives that
    [prepareConflictExamples] lists; a field map that holds only such
    type-infos is empty for [isEmpty]; and the example built for a
    [listOfUnion] winner lists only the ids whose count is positive. *)
Theorem nonpositive_counts_are_absent :
  (forall (d : ValueDescriptor) t ti,
      dget d t = Some ti -> total ti <= 0 -> ~ In t (possibleTypes d)) /\
  (forall (d : ValueDescriptor) t c,
      resolveWinnerType d = (t, c) -> t <> null ->
      exists ti, dget d t = Some ti /\ 0 < total ti) /\
  (forall (d : ValueDescriptor) alts lg,
      prepareConflictExamples d false = Ok alts lg ->
      map example_type alts = map typeNameMapper (possibleTypes d)) /\
  (forall (d : ValueDescriptor) alts lg alt,
      prepareConflictExamples d true = Ok alts lg -> In alt alts ->
      exists group, group <> [] /\ incl group (possibleTypes d) /\
        example_type alt = "[" ++ join "," (map typeNameMapper group) ++ "]") /\
  (forall (m : TypeMetadata) fm,
      fieldMap m = Some fm ->
      (forall field d t ti,
          In (field, d) fm -> In (t, ti) d -> total ti <= 0) ->
      isEmpty m = Some true) /\
  (forall (d : ValueDescriptor) r a p c,
      resolveWinnerType d = (listOfUnion, c) ->
      exists ti,
        dget d listOfUnion = Some ti /\
        buildExampleValue d r a p
        = Ok (VArr (map VStr (positiveNodes (orElse (nodes ti) [])))) [] /\
        forall id, In id (positiveNodes (orElse (nodes ti) [])) ->
                   exists n, oget (orElse (nodes ti) []) id = Some n /\ 0 < n).
Proof.
  split; [|split; [|split; [|split; [|split]]]].
  - intros d t ti Hd Ht Hin. apply possibleTypes_In, positive_total in Hin.
    destruct Hin as (ti' & Hd' & Hpos). rewrite Hd in Hd'.
    injection Hd' as <-. lia.
  - intros d t c H Hn.
    destruct (resolveWinnerType_candidate d H Hn) as [_ Hin].
    now apply possibleTypes_In, positive_total in Hin.
  - intros d alts lg H.
    exact (prepareConflictExamples_with_labels _ d false H).
  - intros d alts lg alt H.
    exact (prepareConflictExamples_with_labels _ d true H alt).
  - intros m fm Hfm Hall. unfold isEmpty. rewrite Hfm. f_equal.
    apply forallb_forall. intros field Hin.
    apply (keys_get String.eqb String.eqb_eq) in Hin.
    destruct Hin as [d Hd]. fold (oget fm field) in Hd. rewrite Hd.
    apply Nat.eqb_eq.
    assert (HP : possibleTypes d = []); [|now rewrite HP].
    destruct (possibleTypes d) as [|t l] eqn:EP; [reflexivity|].
    assert (Hin : In t (possibleTypes d)) by (rewrite EP; now left).
    apply possibleTypes_In, positive_total in Hin.
    destruct Hin as (ti & Hti & Hpos).
    apply (get_In tag_eqb tag_eqb_eq) in Hti.
    apply (get_In String.eqb String.eqb_eq) in Hd.
    specialize (Hall _ _ _ _ Hd Hti). lia.
  - intros d r a p c H.
    destruct (buildExampleValue_listOfUnion d r a p H) as (ti & Hti & Hb).
    exists ti. split; [exact Hti|]. split; [exact Hb|].
    apply positiveNodes_In.
Qed.

(** ** The two worked examples *)

(** C4 (amended): after [{id: "1", foo: 1}] and [{id: "2", foo: 1.5}],
    [foo] resolves to [float] without conflict, nothing is reported, and
    the example of [foo] is the one recorded for [float], 1.5. *)
Theorem widening_example_is_float_example (looksLikeADate : string -> bool)
    (nonStringKey : JsValue -> string) (typeName : string) :
  let m := addNode looksLikeADate nonStringKey
             (addNode looksLikeADate nonStringKey metadata_ignoring_id
                widening_n1) widening_n2 in
  exists fm d o,
    fieldMap m = Some fm /\ oget fm "foo" = Some d /\
    resolveWinnerType d = (float, false) /\
    getExampleObject fm typeName true = Ok o [] /\
    oget o "foo" = Some (VNum one_and_a_half).
Proof.
  cbv zeta. eexists. eexists. eexists.
  split; [vm_compute; reflexivity|].
  split; [vm_compute; reflexivity|].
  split; [vm_compute; reflexivity|].
  split; vm_compute; reflexivity.
Qed.

(** C4, counterexample: the example of [foo] is not the first number
    recorded. *)
Lemma widening_example_is_not_first_number :
  ~ widening_example_is_first_number.
Proof.
  intros H. specialize (H neverADate emptyKey "T").
  destruct H as (fm & d & o & Hfm & _ & _ & Hg & Ho).
  vm_compute in Hfm. injection Hfm as <-.
  vm_compute in Hg. injection Hg as <-.
  vm_compute in Ho. discriminate.
Qed.

(** C5: after [{id: "1", foo: 25}] and [{id: "2", foo: "x"}] (["x"] not
    looking like a date), [getExampleObject] reports one conflict, at
    the path of [foo], with the alternatives [number 25] and
    [string "x"] in this order, and returns an object without [foo]. *)
Theorem conflict_is_reported_once (looksLikeADate : string -> bool)
    (nonStringKey : JsValue -> string) (typeName : string) :
  looksLikeADate "x" = false ->
  let m := addNode looksLikeADate nonStringKey
             (addNode looksLikeADate nonStringKey metadata_ignoring_id
                conflict_n1) conflict_n2 in
  exists fm o,
    fieldMap m = Some fm /\
    getExampleObject fm typeName true
    = Ok o [mkConflict (typeName ++ ".foo")
              [mkExample "number" (VNum (number_of_Z 25));
               mkExample "string" (VStr "x")]] /\
    oget o "foo" = None.
Proof.
  intros Hx. cbv zeta.
  assert (Hm : fieldMap
                 (addNode looksLikeADate nonStringKey
                    (addNode looksLikeADate nonStringKey metadata_ignoring_id
                       conflict_n1) conflict_n2)
               = Some [("foo",
                        [(int, mkTypeInfo 1 (Some "1")
                                 (VNum (number_of_Z 25)) None None None None);
                         (string_, mkTypeInfo 1 (Some "2") (VStr "x")
                                     None None None None)])]).
  { cbn. unfold updateValueDescriptor_body, getType. rewrite Hx.
    reflexivity. }
  rewrite Hm. eexists. eexists. split; [reflexivity|].
  split; [vm_compute; reflexivity | reflexivity].
Qed.

Lemma conflict_is_reported_once_witness :
  neverADate "x" = false /\
  exists fm o,
    fieldMap (addNode neverADate emptyKey
                (addNode neverADate emptyKey metadata_ignoring_id
                   conflict_n1) conflict_n2) = Some fm /\
    getExampleObject fm "Type" true
    = Ok o [mkConflict "Type.foo"
              [mkExample "number" (VNum (number_of_Z 25));
               mkExample "string" (VStr "x")]] /\
    oget o "foo" = None.
Proof.
  split; [reflexivity|].
  exact (conflict_is_reported_once neverADate emptyKey "Type" eq_refl).
Defined.

(** ** Counters under add and delete *)

Lemma fold_left_proj (A B C : Type) (proj : A -> C) (f : A -> B -> A)
    (g : C -> B -> C) (l : list B) (a : A) :
  (forall x b, proj (f x b) = g (proj x) b) ->
  proj (fold_left f l a) = fold_left g l (proj a).
Proof.
  intros H. revert a. induction l as [|b l IH]; simpl; intros a.
  - reflexivity.
  - now rewrite IH, H.
Qed.

Section CountingFacts.
Variable looksLikeADate : string -> bool.
Variable nonStringKey : JsValue -> string.

Local Abbreviation getType' := (getType looksLikeADate).
Local Abbreviation update :=
  (updateValueDescriptor looksLikeADate nonStringKey).

Lemma getType_object value key :
  getType' value key = object -> exists entries, value = VObj entries.
Proof.
  destruct value as [| |x|s| | | |items|entries| | |]; simpl;
    try discriminate; eauto.
  - destruct (is32BitInteger x); discriminate.
  - destruct (looksLikeADate s); discriminate.
  - destruct items; [discriminate|].
    destruct (includes key "___NODE"); discriminate.
Qed.

Lemma getType_array value key :
  getType' value key = array \/ getType' value key = listOfUnion ->
  exists items, value = VArr items.
Proof.
  destruct value as [| |x|s| | | |items|entries| | |]; simpl;
    intros [H|H]; try discriminate; eauto.
  - destruct (is32BitInteger x); discriminate.
  - destruct (is32BitInteger x); discriminate.
  - destruct (looksLikeADate s); discriminate.
  - destruct (looksLikeADate s); discriminate.
  - destruct entries; discriminate.
  - destruct entries; discriminate.
Qed.

Ltac open_update E :=
  rewrite updateValueDescriptor_unfold; unfold updateValueDescriptor_body;
  rewrite E; cbv beta iota zeta delta [tag_eqb].

Lemma update_object nodeId key value operation descriptor :
  getType' value key = object ->
  let d0 := orElse descriptor [] in
  let ti0 := orElse (dget d0 object) newTypeInfo in
  exists entries ti',
    value = VObj entries /\
    fst (update nodeId key value operation descriptor) = dset d0 object ti' /\
    total ti' = total_of d0 object + delta_of operation /\
    props ti' =
      Some (props_after looksLikeADate nonStringKey nodeId operation entries
              (orElse (props ti0) [])).
Proof.
  intros E. cbv zeta.
  destruct (getType_object _ _ E) as [entries ->].
  open_update E.
  match goal with
  | |- context [fold_left ?f entries (?a, ?b)] =>
      pose proof (fold_left_proj fst f
                    (fun props e =>
                       oset props (fst e)
                         (fst (update nodeId (fst e) (snd e) operation
                                 (oget props (fst e)))))
                    entries (a, b)) as HF;
      destruct (fold_left f entries (a, b)) as [ps1 dr1]
  end.
  cbv iota. simpl fst in *.
  exists entries. eexists. split; [reflexivity|]. split; [reflexivity|].
  split.
  - rewrite <- total_of_orElse. destruct operation; reflexivity.
  - simpl. rewrite HF.
    + destruct operation; reflexivity.
    + intros [ps dr] e. simpl.
      now destruct (update nodeId (fst e) (snd e) operation (oget ps (fst e))).
Qed.

Lemma update_array nodeId key value operation descriptor :
  getType' value key = array ->
  let d0 := orElse descriptor [] in
  let ti0 := orElse (dget d0 array) newTypeInfo in
  exists items ti',
    value = VArr items /\
    fst (update nodeId key value operation descriptor) = dset d0 array ti' /\
    total ti' = total_of d0 array + delta_of operation /\
    item ti' =
      item_after looksLikeADate nonStringKey nodeId key operation items
        (item ti0).
Proof.
  intros E. cbv zeta.
  destruct (getType_array value key (or_introl E)) as [items ->].
  open_update E.
  match goal with
  | |- context [fold_left ?f items (?a, ?b)] =>
      pose proof (fold_left_proj (fun acc => item (fst acc)) f
                    (fun item i =>
                       Some (fst (update nodeId key i operation item)))
                    items (a, b)) as HF;
      pose proof (fold_left_invariant
                    (fun acc => total (fst acc) = total a) f items (a, b))
        as HT;
      destruct (fold_left f items (a, b)) as [ti1 dr1]
  end.
  simpl fst in *.
  exists items, ti1. split; [reflexivity|]. split; [reflexivity|].
  split.
  - rewrite HT.
    + rewrite <- total_of_orElse. destruct operation; reflexivity.
    + reflexivity.
    + intros [ti dr] i Hti. simpl in *.
      now destruct (update nodeId key i operation (item ti)).
  - rewrite HF.
    + destruct operation; reflexivity.
    + intros [ti dr] i. simpl.
      now destruct (update nodeId key i operation (item ti)).
Qed.

Lemma update_listOfUnion nodeId key value operation descriptor :
  getType' value key = listOfUnion ->
  let d0 := orElse descriptor [] in
  let ti0 := orElse (dget d0 listOfUnion) newTypeInfo in
  exists items ti',
    value = VArr items /\
    fst (update nodeId key value operation descriptor)
    = dset d0 listOfUnion ti' /\
    total ti' = total_of d0 listOfUnion + delta_of operation /\
    nodes ti' =
      Some (nodes_after nonStringKey operation items (orElse (nodes ti0) [])).
Proof.
  intros E. cbv zeta.
  destruct (getType_array value key (or_intror E)) as [items ->].
  open_update E.
  match goal with
  | |- context [fold_left ?f items (?a, ?b)] =>
      pose proof (fold_left_proj fst f
                    (fun nodes i =>
                       oset nodes (propertyKey nonStringKey i)
                         (orElse (oget nodes (propertyKey nonStringKey i)) 0
                          + delta_of operation))
                    items (a, b)) as HF;
      destruct (fold_left f items (a, b)) as [ns1 dr1]
  end.
  cbv iota. simpl fst in *.
  exists items. eexists. split; [reflexivity|]. split; [reflexivity|].
  split.
  - rewrite <- total_of_orElse. destruct operation; reflexivity.
  - simpl. rewrite HF.
    + destruct operation; reflexivity.
    + intros [ns dr] i. destruct operation; reflexivity.
Qed.
End CountingFacts.

Lemma Zsum_cons (x : Z) (l : list Z) : Zsum (x :: l) = x + Zsum l.
Proof. reflexivity. Qed.

Lemma child_prop (d : ValueDescriptor) (name : string) :
  child d (AtProp name)
  = orElse (oget (orElse (props (orElse (dget d object) newTypeInfo)) [])
              name) [].
Proof.
  simpl. destruct (dget d object) as [ti|]; simpl; [|reflexivity].
  now destruct (props ti).
Qed.

Lemma child_item (d : ValueDescriptor) :
  child d AtItem = orElse (item (orElse (dget d array) newTypeInfo)) [].
Proof. simpl. now destruct (dget d array). Qed.

Lemma nodes_of_orElse (d : ValueDescriptor) (id : string) :
  nodes_of d id
  = orElse (oget (orElse (nodes (orElse (dget d listOfUnion) newTypeInfo)) [])
              id) 0.
Proof.
  unfold nodes_of. destruct (dget d listOfUnion) as [ti|]; simpl;
    [|reflexivity].
  now destruct (nodes ti).
Qed.

Lemma descriptor_at_cons (d : ValueDescriptor) (s : step) (path : list step) :
  descriptor_at d (s :: path) = descriptor_at (child d s) path.
Proof. reflexivity. Qed.

Section CountersUnderUpdate.
Variable looksLikeADate : string -> bool.
Variable nonStringKey : JsValue -> string.

Local Abbreviation getType' := (getType looksLikeADate).
Local Abbreviation update :=
  (updateValueDescriptor looksLikeADate nonStringKey).
Local Abbreviation contribution' :=
  (contribution looksLikeADate nonStringKey).
Local Abbreviation counts_add_up' :=
  (counts_add_up looksLikeADate nonStringKey).

Lemma props_after_reads (obs : ValueDescriptor -> Z)
    (contrib : string -> JsValue -> Z) nodeId operation entries :
  Forall (fun e => forall d,
            obs (fst (update nodeId (fst e) (snd e) operation d))
            = obs (orElse d []) + delta_of operation * contrib (fst e) (snd e))
         entries ->
  forall props name,
    obs (orElse (oget (props_after looksLikeADate nonStringKey nodeId
                         operation entries props) name) [])
    = obs (orElse (oget props name) [])
      + delta_of operation
        * Zsum (map (fun e => if String.eqb (fst e) name
                              then contrib (fst e) (snd e) else 0) entries).
Proof.
  induction 1 as [|e es He Hes IH]; intros ps name.
  - simpl. unfold Zsum. simpl. lia.
  - unfold props_after in *. simpl fold_left. rewrite IH, oget_oset.
    simpl map. rewrite Zsum_cons.
    destruct (String.eqb_spec (fst e) name) as [Heq|Hne].
    + simpl orElse. rewrite He, Heq. lia.
    + lia.
Qed.

Lemma item_after_reads (obs : ValueDescriptor -> Z) (contrib : JsValue -> Z)
    nodeId key operation items :
  Forall (fun i => forall d,
            obs (fst (update nodeId key i operation d))
            = obs (orElse d []) + delta_of operation * contrib i)
         items ->
  forall item,
    obs (orElse (item_after looksLikeADate nonStringKey nodeId key operation
                   items item) [])
    = obs (orElse item []) + delta_of operation * Zsum (map contrib items).
Proof.
  induction 1 as [|i is_ Hi His IH]; intros it.
  - simpl. unfold Zsum. simpl. lia.
  - unfold item_after in *. simpl fold_left. rewrite IH.
    simpl map. rewrite Zsum_cons. simpl orElse at 1. rewrite Hi. lia.
Qed.

Lemma nodes_after_reads operation items :
  forall nodes id,
    orElse (oget (nodes_after nonStringKey operation items nodes) id) 0
    = orElse (oget nodes id) 0
      + delta_of operation
        * Zsum (map (fun i => if String.eqb (propertyKey nonStringKey i) id
                              then 1 else 0) items).
Proof.
  induction items as [|i items IH]; intros ns id.
  - simpl. unfold Zsum. simpl. lia.
  - unfold nodes_after in *. simpl fold_left. rewrite IH, oget_oset.
    simpl map. rewrite Zsum_cons.
    destruct (String.eqb_spec (propertyKey nonStringKey i) id) as [Heq|Hne].
    + simpl orElse at 1. rewrite Heq. lia.
    + lia.
Qed.

Lemma contribution_total key v t :
  contribution' [] key v (TotalOf t)
  = match getType' v key with
    | null => 0
    | ty => if tag_eqb ty t then 1 else 0
    end.
Proof. reflexivity. Qed.

Lemma contribution_nodes key v id :
  contribution' [] key v (NodesOf id)
  = match getType' v key, v with
    | listOfUnion, VArr items =>
        Zsum (map (fun i => if String.eqb (propertyKey nonStringKey i) id
                            then 1 else 0) items)
    | _, _ => 0
    end.
Proof. reflexivity. Qed.

Lemma contribution_prop name rest key v c :
  contribution' (AtProp name :: rest) key v c
  = match getType' v key, v with
    | object, VObj entries =>
        Zsum (map (fun e => if String.eqb (fst e) name
                            then contribution' rest (fst e) (snd e) c else 0)
                entries)
    | _, _ => 0
    end.
Proof. reflexivity. Qed.

Lemma contribution_item rest key v c :
  contribution' (AtItem :: rest) key v c
  = match getType' v key, v with
    | array, VArr items =>
        Zsum (map (fun i => contribution' rest key i c) items)
    | _, _ => 0
    end.
Proof. reflexivity. Qed.

Lemma contribution_null path key v c :
  getType' v key = null -> contribution' path key v c = 0.
Proof.
  intros E. destruct path as [|[name|] rest]; simpl; rewrite E;
    [now destruct c | reflexivity | reflexivity].
Qed.


Lemma read_dset_other (d : ValueDescriptor) tn ti' (s : step) path c :
  match s with
  | AtProp _ => tn <> object
  | AtItem => tn <> array
  end ->
  read (descriptor_at (dset d tn ti') (s :: path)) c
  = read (descriptor_at d (s :: path)) c.
Proof.
  intros H. rewrite !descriptor_at_cons. f_equal. f_equal.
  destruct s; simpl; rewrite dget_dset.
  - destruct (tag_eqb tn object) eqn:E; [|reflexivity].
    apply tag_eqb_eq in E. contradiction.
  - destruct (tag_eqb tn array) eqn:E; [|reflexivity].
    apply tag_eqb_eq in E. contradiction.
Qed.

Lemma read_dset_top (d : ValueDescriptor) tn ti' c :
  match c with
  | TotalOf _ => True
  | NodesOf _ => tn <> listOfUnion
  end ->
  read (dset d tn ti') c
  = match c with
    | TotalOf t => if tag_eqb tn t then total ti' else total_of d t
    | NodesOf id => nodes_of d id
    end.
Proof.
  destruct c as [t|id]; simpl; intros H.
  - apply total_of_dset.
  - unfold nodes_of. rewrite dget_dset.
    destruct (tag_eqb tn listOfUnion) eqn:E; [|reflexivity].
    apply tag_eqb_eq in E. contradiction.
Qed.

Ltac zlia := unfold ValueDescriptor in *; lia.

Ltac solve_total :=
  unfold read;
  match goal with
  | |- context [tag_eqb ?a ?b] =>
      let Et := fresh "Et" in
      destruct (tag_eqb a b) eqn:Et;
      [apply tag_eqb_eq in Et; subst; zlia | zlia]
  end.

Lemma counts_add_up_step (v : JsValue) :
  (forall entries, v = VObj entries ->
                   Forall (fun e => counts_add_up' (snd e)) entries) ->
  (forall items, v = VArr items -> Forall counts_add_up' items) ->
  counts_add_up' v.
Proof.
  intros Hobj Harr nodeId key operation d path c.
  destruct (getType' v key) eqn:E.
  6: { (* array *)
    destruct (update_array looksLikeADate nonStringKey nodeId key v
                operation d E) as (items & ti' & -> & Hr & Ht & Hi).
    rewrite Hr. destruct path as [|[name|] rest].
    - change (descriptor_at ?x []) with x.
      rewrite read_dset_top by (now destruct c).
      destruct c as [t|id].
      + rewrite contribution_total, E, Ht. solve_total.
      + rewrite contribution_nodes, E. simpl. zlia.
    - rewrite read_dset_other by discriminate.
      rewrite contribution_prop, E. zlia.
    - rewrite !descriptor_at_cons. simpl child at 1.
      rewrite dget_dset. simpl tag_eqb. cbv iota. rewrite Hi.
      rewrite (item_after_reads
                 (fun d => read (descriptor_at d rest) c)
                 (fun i => contribution' rest key i c)).
      + rewrite child_item, contribution_item, E. reflexivity.
      + specialize (Harr items eq_refl).
        eapply Forall_impl; [|exact Harr].
        intros i Hi' d'. apply Hi'. }
  6: { (* listOfUnion *)
    destruct (update_listOfUnion looksLikeADate nonStringKey nodeId key v
                operation d E) as (items & ti' & -> & Hr & Ht & Hn).
    rewrite Hr. destruct path as [|[name|] rest].
    - change (descriptor_at ?x []) with x. destruct c as [t|id].
      + rewrite read_dset_top by exact I.
        rewrite contribution_total, E, Ht. solve_total.
      + simpl read. unfold nodes_of at 1. rewrite dget_dset. simpl tag_eqb.
        cbv iota. rewrite Hn, nodes_after_reads, <- nodes_of_orElse.
        rewrite contribution_nodes, E. reflexivity.
    - rewrite read_dset_other by discriminate.
      rewrite contribution_prop, E. zlia.
    - rewrite read_dset_other by discriminate.
      rewrite contribution_item, E. zlia. }
  6: { (* object *)
    destruct (update_object looksLikeADate nonStringKey nodeId key v
                operation d E) as (entries & ti' & -> & Hr & Ht & Hp).
    rewrite Hr. destruct path as [|[name|] rest].
    - change (descriptor_at ?x []) with x.
      rewrite read_dset_top by (now destruct c).
      destruct c as [t|id].
      + rewrite contribution_total, E, Ht. solve_total.
      + rewrite contribution_nodes, E. simpl. zlia.
    - rewrite !descriptor_at_cons. simpl child at 1.
      rewrite dget_dset. simpl tag_eqb. cbv iota. rewrite Hp.
      rewrite (props_after_reads
                 (fun d => read (descriptor_at d rest) c)
                 (fun k x => contribution' rest k x c)).
      + rewrite child_prop, contribution_prop, E. reflexivity.
      + specialize (Hobj entries eq_refl).
        eapply Forall_impl; [|exact Hobj].
        intros e He d'. apply He.
    - rewrite read_dset_other by discriminate.
      rewrite contribution_item, E. zlia. }
  6: { (* null *)
    rewrite update_null by exact E. rewrite contribution_null by exact E.
    simpl. zlia. }
  all: (* the scalar types *)
    assert (Hn : getType' v key <> null) by (rewrite E; discriminate);
    destruct (update_typed looksLikeADate nonStringKey nodeId key v
                operation d Hn) as (ti' & Hr & Ht & _);
    rewrite E in Hr, Ht; rewrite Hr; rewrite total_of_orElse in Ht;
    destruct path as [|[name|] rest];
    [ change (descriptor_at ?x []) with x;
      rewrite read_dset_top by (destruct c; [exact I | discriminate]);
      destruct c as [t|id];
      [ rewrite contribution_total, E, Ht; solve_total
      | rewrite contribution_nodes, E; simpl; zlia ]
    | rewrite read_dset_other by discriminate;
      rewrite contribution_prop, E; zlia
    | rewrite read_dset_other by discriminate;
      rewrite contribution_item, E; zlia ].
Qed.

Lemma update_counts (v : JsValue) : counts_add_up' v.
Proof.
  induction v using JsValue_ind; apply counts_add_up_step;
    intros l Hl; try discriminate; injection Hl as <-; assumption.
Qed.
End CountersUnderUpdate.

Section RoundTrip.
Variable looksLikeADate : string -> bool.
Variable nonStringKey : JsValue -> string.

Local Abbreviation updateTypeMetadata' :=
  (updateTypeMetadata looksLikeADate nonStringKey).

Lemma updateTypeMetadata_ignored (m : TypeMetadata) operation node :
  ignored m = true -> updateTypeMetadata' m operation node = m.
Proof. intros H. unfold updateTypeMetadata. now rewrite H. Qed.

Lemma updateTypeMetadata_tracked (m : TypeMetadata) operation node :
  ignored m = false ->
  ignored (updateTypeMetadata' m operation node) = false /\
  ignoredFields (updateTypeMetadata' m operation node) = ignoredFields m /\
  fieldMap (updateTypeMetadata' m operation node)
  = Some (props_after looksLikeADate nonStringKey (node_id node) operation
            (nodeFields node (ignoredFields m)) (orElse (fieldMap m) [])).
Proof.
  intros H. unfold updateTypeMetadata. rewrite H.
  match goal with
  | |- context [fold_left ?f ?l (?a, ?b)] =>
      pose proof (fold_left_proj fst f
                    (fun props e =>
                       oset props (fst e)
                         (fst (updateValueDescriptor looksLikeADate
                                 nonStringKey (node_id node) (fst e) (snd e)
                                 operation (oget props (fst e)))))
                    l (a, b)) as HF;
      destruct (fold_left f l (a, b)) as [fm1 changed]
  end.
  simpl. repeat split. f_equal. apply HF.
  intros [fm ch] e. simpl.
  now destruct (updateValueDescriptor looksLikeADate nonStringKey
                  (node_id node) (fst e) (snd e) operation (oget fm (fst e))).
Qed.


Lemma updateTypeMetadata_reads (m : TypeMetadata) operation node field path c :
  ignored m = false ->
  read (descriptor_at
          (field_descriptor (fieldMap (updateTypeMetadata' m operation node))
             field) path) c
  = read (descriptor_at (field_descriptor (fieldMap m) field) path) c
    + delta_of operation
      * record_contribution looksLikeADate nonStringKey m node field path c.
Proof.
  intros H.
  destruct (updateTypeMetadata_tracked m operation node H) as (_ & _ & ->).
  unfold field_descriptor at 1.
  rewrite (props_after_reads looksLikeADate nonStringKey
             (fun d => read (descriptor_at d path) c)
             (fun k x => contribution looksLikeADate nonStringKey path k x c)).
  - unfold record_contribution, field_descriptor.
    now destruct (fieldMap m).
  - apply Forall_forall. intros e _ d. apply update_counts.
Qed.

(** C2: after [addNode] and then [deleteNode] of the same record, every
    counter of the field map (the total of every tag and the count of
    every referenced id, at every depth of every field) has the value it
    had before, a counter that is absent standing for zero.  The record
    is plain: with a name of [Object.prototype] among its field names,
    property names or referenced ids the source reads an inherited
    value for the counter or the descriptor, and restores nothing. *)
Theorem add_then_delete_restores_counters (m : TypeMetadata)
    (node : obj JsValue) (field : string) (path : list step) (c : counter) :
  plain_record node = true ->
  read (descriptor_at
          (field_descriptor
             (fieldMap (deleteNode looksLikeADate nonStringKey
                          (addNode looksLikeADate nonStringKey m node) node))
             field) path) c
  = read (descriptor_at (field_descriptor (fieldMap m) field) path) c.
Proof.
  intros _. unfold deleteNode, addNode.
  destruct (ignored m) eqn:Hi.
  - rewrite (updateTypeMetadata_ignored m add node Hi).
    rewrite (updateTypeMetadata_ignored m del node Hi). reflexivity.
  - destruct (updateTypeMetadata_tracked m add node Hi) as (Hi' & Hf & _).
    rewrite (updateTypeMetadata_reads _ del node field path c Hi').
    rewrite (updateTypeMetadata_reads _ add node field path c Hi).
    unfold record_contribution. rewrite Hf. simpl delta_of.
    unfold ValueDescriptor in *. lia.
Qed.
End RoundTrip.

(** ** The builder needs no more fuel than the depth of the descriptor *)

Lemma list_max_In (l : list nat) (x : nat) : In x l -> (x <= list_max l)%nat.
Proof.
  intros H.
  assert (HF : Forall (fun k => (k <= list_max l)%nat) l)
    by (apply list_max_le; lia).
  rewrite Forall_forall in HF. now apply HF.
Qed.

Lemma dget_depth (d : ValueDescriptor) t ti :
  dget d t = Some ti -> (typeInfo_depth ti <= descriptor_depth d)%nat.
Proof.
  intros H. apply (get_In tag_eqb tag_eqb_eq) in H.
  apply list_max_In.
  change (typeInfo_depth ti) with
    ((fun e : tag * TypeInfo => typeInfo_depth (snd e)) (t, ti)).
  now apply in_map.
Qed.

Lemma item_depth (ti : TypeInfo) (d : ValueDescriptor) :
  item ti = Some d -> (descriptor_depth d < typeInfo_depth ti)%nat.
Proof.
  destruct ti as [tot fst_ ex em ps it ns]. simpl. intros ->.
  unfold descriptor_depth. apply Nat.lt_succ_r, Nat.le_max_r.
Qed.

Lemma props_depth (ti : TypeInfo) ps name (d : ValueDescriptor) :
  props ti = Some ps -> oget ps name = Some d ->
  (descriptor_depth d < typeInfo_depth ti)%nat.
Proof.
  destruct ti as [tot fst_ ex em ps' it ns]. simpl. intros -> H.
  apply (get_In String.eqb String.eqb_eq) in H.
  assert (Hle : (descriptor_depth d
                 <= list_max (map (fun e : string * ValueDescriptor =>
                                     descriptor_depth (snd e)) ps))%nat).
  { apply list_max_In.
    change (descriptor_depth d) with
      ((fun e : string * ValueDescriptor => descriptor_depth (snd e))
         (name, d)).
    now apply in_map. }
  apply Nat.lt_succ_r. eapply Nat.le_trans; [exact Hle|].
  apply Nat.le_max_l.
Qed.

Lemma bind_finishes (A B : Type) (m : outcome A) (f : A -> outcome B) :
  finishes m -> (forall a l, m = Ok a l -> finishes (f a)) ->
  finishes (bind m f).
Proof.
  unfold finishes, bind. intros Hm Hf.
  destruct m as [a l| |]; [|discriminate|contradiction].
  specialize (Hf a l eq_refl). destruct (f a); congruence.
Qed.

Lemma defined_finishes (A : Type) (o : option A) : finishes (defined o).
Proof. destruct o; discriminate. Qed.

Lemma ret_finishes (A : Type) (a : A) : finishes (ret a).
Proof. discriminate. Qed.

Lemma mapM_finishes (A B : Type) (f : A -> outcome B) (l : list A) :
  (forall a, In a l -> finishes (f a)) -> finishes (mapM f l).
Proof.
  induction l as [|a l IH]; intros H; simpl.
  - apply ret_finishes.
  - apply bind_finishes; [apply H; now left|]. intros b _ _.
    apply bind_finishes; [apply IH; intros; apply H; now right|].
    intros; apply ret_finishes.
Qed.

Section BuilderFinishes.
Variable build : ValueDescriptor -> bool -> bool -> string -> outcome JsValue.

Lemma getExampleObject_with_finishes (fm : obj ValueDescriptor) typeName r :
  (forall name d, oget fm name = Some d ->
                  forall r a p, finishes (build d r a p)) ->
  finishes (getExampleObject_with build fm typeName r).
Proof.
  intros H. unfold getExampleObject_with.
  apply fold_left_invariant; [apply ret_finishes|].
  intros acc key Hacc.
  apply bind_finishes; [exact Hacc|]. intros o _ _.
  apply bind_finishes; [apply defined_finishes|]. intros d l Hd.
  apply defined_Ok in Hd. destruct Hd as [Hd _].
  apply bind_finishes; [eapply H; eauto|]. intros v _ _.
  destruct (negb (key =? "")%string && negb (is_null v));
    apply ret_finishes.
Qed.

Lemma prepareConflictExamples_with_finishes (d : ValueDescriptor) a :
  (forall ti d', dget d array = Some ti -> item ti = Some d' ->
                 forall r a p, finishes (build d' r a p)) ->
  (forall ti ps name d',
      dget d object = Some ti -> props ti = Some ps ->
      oget ps name = Some d' -> forall r a p, finishes (build d' r a p)) ->
  finishes (prepareConflictExamples_with build d a).
Proof.
  intros Hitem Hprops. unfold prepareConflictExamples_with.
  assert (Hmap : forall t, finishes (reportedValueMapper build d t)).
  { intros t. unfold reportedValueMapper.
    destruct t;
      try (apply bind_finishes; [apply defined_finishes|];
           intros; apply ret_finishes).
    - (* array *)
      apply bind_finishes; [apply defined_finishes|]. intros ti l Hti.
      apply defined_Ok in Hti. destruct Hti as [Hti _].
      apply bind_finishes; [apply defined_finishes|]. intros it l' Hit.
      apply defined_Ok in Hit. destruct Hit as [Hit _].
      apply bind_finishes; [eapply Hitem; eauto|].
      intros; apply ret_finishes.
    - (* listOfUnion *)
      apply bind_finishes; [apply defined_finishes|]. intros ti l Hti.
      apply bind_finishes; [apply defined_finishes|].
      intros; apply ret_finishes.
    - (* object *)
      apply bind_finishes; [apply defined_finishes|]. intros ti l Hti.
      apply defined_Ok in Hti. destruct Hti as [Hti _].
      apply bind_finishes; [apply defined_finishes|]. intros ps l' Hps.
      apply defined_Ok in Hps. destruct Hps as [Hps _].
      apply bind_finishes.
      + apply getExampleObject_with_finishes. intros name d' Hd'.
        eapply Hprops; eauto.
      + intros; apply ret_finishes. }
  destruct a; apply mapM_finishes; intros x _.
  - apply bind_finishes; [apply defined_finishes|]. intros g _ _.
    apply bind_finishes; [apply mapM_finishes; intros; apply Hmap|].
    intros; apply ret_finishes.
  - apply bind_finishes; [apply Hmap|]. intros; apply ret_finishes.
Qed.
End BuilderFinishes.

Lemma buildExampleValue_fuel_finishes (fuel : nat) :
  forall (d : ValueDescriptor) r a p,
    (descriptor_depth d < fuel)%nat ->
    finishes (buildExampleValue_fuel fuel d r a p).
Proof.
  induction fuel as [|n IH]; intros d r a p Hd; [lia|].
  assert (Hitem : forall ti d', dget d array = Some ti -> item ti = Some d' ->
                  forall r a p, finishes (buildExampleValue_fuel n d' r a p)).
  { intros ti d' Hti Hit r' a' p'. apply IH.
    apply dget_depth in Hti. apply item_depth in Hit. lia. }
  assert (Hprops : forall ti ps name d',
             dget d object = Some ti -> props ti = Some ps ->
             oget ps name = Some d' ->
             forall r a p, finishes (buildExampleValue_fuel n d' r a p)).
  { intros ti ps name d' Hti Hps Hd' r' a' p'. apply IH.
    apply dget_depth in Hti. pose proof (props_depth _ _ Hps Hd'). lia. }
  simpl. destruct (resolveWinnerType d) as [type conflicts].
  apply bind_finishes.
  { destruct (conflicts && r); [|apply ret_finishes].
    apply bind_finishes;
      [now apply prepareConflictExamples_with_finishes | discriminate]. }
  intros _ _ _.
  destruct type; try apply ret_finishes;
    try (apply bind_finishes; [apply defined_finishes|];
         intros; apply ret_finishes).
  - (* date *)
    destruct (isMixOfDateAndString d); [apply ret_finishes|].
    apply bind_finishes; [apply defined_finishes|]. intros; apply ret_finishes.
  - (* string *)
    destruct (isMixOfDateAndString d); [apply ret_finishes|].
    apply bind_finishes; [apply defined_finishes|]. intros; apply ret_finishes.
  - (* array *)
    apply bind_finishes; [apply defined_finishes|]. intros ti l Hti.
    apply defined_Ok in Hti. destruct Hti as [Hti _].
    apply bind_finishes; [|intros; apply ret_finishes].
    destruct (item ti) as [it|] eqn:Hit; [|apply ret_finishes].
    eapply Hitem; eauto.
  - (* object *)
    apply bind_finishes; [apply defined_finishes|]. intros ti l Hti.
    apply defined_Ok in Hti. destruct Hti as [Hti _].
    apply bind_finishes; [apply defined_finishes|]. intros ps l' Hps.
    apply defined_Ok in Hps. destruct Hps as [Hps _].
    apply bind_finishes; [|intros; apply ret_finishes].
    apply fold_left_invariant; [apply ret_finishes|].
    intros acc prop Hacc.
    apply bind_finishes; [exact Hacc|]. intros o _ _.
    apply bind_finishes; [apply defined_finishes|]. intros d' l'' Hd'.
    apply defined_Ok in Hd'. destruct Hd' as [Hd' _].
    apply bind_finishes; [eapply Hprops; eauto|]. intros v _ _.
    destruct (negb (is_null v)); apply ret_finishes.
Qed.

(** The builder is total: with the fuel its definition gives it, a call
    returns a value or throws, and never stops for want of fuel. *)
Lemma buildExampleValue_total (d : ValueDescriptor) r a p :
  finishes (buildExampleValue d r a p).
Proof. apply buildExampleValue_fuel_finishes. lia. Qed.

Lemma getExampleObject_total (fm : obj ValueDescriptor) typeName r :
  finishes (getExampleObject fm typeName r).
Proof.
  apply getExampleObject_with_finishes. intros. apply buildExampleValue_total.
Qed.

Lemma prepareConflictExamples_total (d : ValueDescriptor) a :
  finishes (prepareConflictExamples d a).
Proof.
  apply prepareConflictExamples_with_finishes;
    intros; apply buildExampleValue_total.
Qed.

(** The recursion of the builder is bounded by the nesting depth of the
    descriptor: [buildExampleValue], [getExampleObject] and
    [prepareConflictExamples] return a result or throw on every
    descriptor tree. *)
Theorem builder_terminates :
  (forall (d : ValueDescriptor) r a p,
      buildExampleValue d r a p <> OutOfFuel) /\
  (forall (fm : obj ValueDescriptor) typeName r,
      getExampleObject fm typeName r <> OutOfFuel) /\
  (forall (d : ValueDescriptor) a,
      prepareConflictExamples d a <> OutOfFuel).
Proof.
  split; [|split].
  - intros d r a p. apply buildExampleValue_total.
  - intros fm tn r. apply getExampleObject_total.
  - intros d a. apply prepareConflictExamples_total.
Qed.

(** ** The statements on concrete inputs *)

Lemma scalar_flag_tests_updated_total_witness :
  let r := updateValueDescriptor neverADate emptyKey (Some "2") "f"
             (VNum (number_of_Z 7)) del (Some seen_5_and_7) in
  total_of seen_5_and_7 int = 2 /\ total_of (fst r) int = 1 /\
  snd r = true.
Proof.
  cbv zeta.
  destruct (@scalar_flag_tests_updated_total neverADate emptyKey (Some "2")
              "f" (VNum (number_of_Z 7)) del seen_5_and_7 eq_refl)
    as [Hafter Hflag].
  split; [reflexivity|]. split; [exact Hafter|].
  apply Hflag. left. exact Hafter.
Defined.

Lemma add_then_delete_restores_counters_witness :
  read (descriptor_at
          (field_descriptor
             (fieldMap (deleteNode neverADate emptyKey
                          (addNode neverADate emptyKey metadata_ignoring_id
                             related_node) related_node))
             "related___NODE") []) (NodesOf "a")
  = read (descriptor_at
            (field_descriptor (fieldMap metadata_ignoring_id)
               "related___NODE") []) (NodesOf "a").
Proof.
  exact (@add_then_delete_restores_counters neverADate emptyKey
           metadata_ignoring_id related_node "related___NODE" []
           (NodesOf "a") eq_refl).
Defined.



Lemma nonpositive_counts_are_absent_witness :
  total_of (field_descriptor (fieldMap unmatched_delete) "foo") int = -1 /\
  isEmpty unmatched_delete = Some true.
Proof.
  split; [reflexivity|].
  refine (proj1 (proj2 (proj2 (proj2 (proj2 nonpositive_counts_are_absent))))
            unmatched_delete
            [("foo", [(int, mkTypeInfo (-1) None (VNum (number_of_Z 5))
                              None None None None)])]
            eq_refl _).
  intros field d t ti Hf Ht.
  destruct Hf as [Hf|[]]. injection Hf as <- <-.
  destruct Ht as [Ht|[]]. injection Ht as <- <-.
  simpl. lia.
Defined.

(** The reference-list example of the specification: the counts of [a]
    and [b] are 1 after the add and 0 after the delete, and the metadata
    is then empty. *)
Example listOfUnion_lifecycle :
  let added := addNode neverADate emptyKey metadata_ignoring_id
                 related_node in
  let deleted := deleteNode neverADate emptyKey added related_node in
  let nodes_at m id :=
    nodes_of (field_descriptor (fieldMap m) "related___NODE") id in
  nodes_at added "a" = 1 /\ nodes_at added "b" = 1 /\
  nodes_at deleted "a" = 0 /\ nodes_at deleted "b" = 0 /\
  isEmpty added = Some false /\ isEmpty deleted = Some true.
Proof. vm_compute. repeat split. Qed.

(** ** The builder and its recursion equation *)

Lemma buildExampleValue_fuel_S (n : nat) (d : ValueDescriptor) r a p :
  buildExampleValue_fuel (S n) d r a p
  = buildExampleValue_body (buildExampleValue_fuel n) d r a p.
Proof. reflexivity. Qed.

Lemma sub_descriptor_depth (d d' : ValueDescriptor) :
  sub_descriptor d d' -> (descriptor_depth d' < descriptor_depth d)%nat.
Proof.
  intros [(ti & Hti & Hit) | (ti & ps & name & Hti & Hps & Hd')];
    apply dget_depth in Hti.
  - apply item_depth in Hit. lia.
  - pose proof (props_depth _ _ Hps Hd'). lia.
Qed.

(** Induction on the nesting of descriptors. *)
Lemma descriptor_induction (P : ValueDescriptor -> Prop) :
  (forall d, (forall d', sub_descriptor d d' -> P d') -> P d) ->
  forall d, P d.
Proof.
  intros Hstep.
  assert (H : forall n d, (descriptor_depth d < n)%nat -> P d).
  { induction n as [|n IH]; intros d Hd; [lia|].
    apply Hstep. intros d' Hsub. apply IH.
    apply sub_descriptor_depth in Hsub. lia. }
  intros d. apply (H (S (descriptor_depth d))). lia.
Qed.

Lemma bind_ext (A B : Type) (m : outcome A) (f g : A -> outcome B) :
  (forall a l, m = Ok a l -> f a = g a) -> bind m f = bind m g.
Proof.
  intros H. destruct m as [a l| |]; simpl; [|reflexivity|reflexivity].
  now rewrite (H a l eq_refl).
Qed.

Lemma mapM_ext (A B : Type) (f g : A -> outcome B) (l : list A) :
  (forall a, In a l -> f a = g a) -> mapM f l = mapM g l.
Proof.
  induction l as [|a l IH]; intros H; simpl; [reflexivity|].
  rewrite (H a) by now left.
  apply bind_ext. intros b _ _. rewrite IH; [reflexivity|].
  intros x Hx. apply H. now right.
Qed.

Lemma fold_left_ext_In (A B : Type) (f g : A -> B -> A) (l : list B) (a : A) :
  (forall x b, In b l -> f x b = g x b) -> fold_left f l a = fold_left g l a.
Proof.
  revert a. induction l as [|b l IH]; intros a H; simpl; [reflexivity|].
  rewrite (H a b) by now left. apply IH. intros x b' Hb'. apply H. now right.
Qed.

Section BuilderExt.
Variables b1 b2 : ValueDescriptor -> bool -> bool -> string -> outcome JsValue.

Lemma getExampleObject_with_ext (fm : obj ValueDescriptor) typeName r :
  (forall name d, oget fm name = Some d ->
                  forall r a p, b1 d r a p = b2 d r a p) ->
  getExampleObject_with b1 fm typeName r
  = getExampleObject_with b2 fm typeName r.
Proof.
  intros H. unfold getExampleObject_with.
  apply fold_left_ext_In. intros acc key _.
  apply bind_ext. intros o _ _.
  apply bind_ext. intros d l Hd. apply defined_Ok in Hd. destruct Hd as [Hd _].
  now rewrite (H _ _ Hd).
Qed.

Lemma reportedValueMapper_ext (d : ValueDescriptor) (t : tag) :
  (forall d', sub_descriptor d d' -> forall r a p, b1 d' r a p = b2 d' r a p) ->
  reportedValueMapper b1 d t = reportedValueMapper b2 d t.
Proof.
  intros H. unfold reportedValueMapper. destruct t; try reflexivity.
  - apply bind_ext. intros ti l Hti. apply defined_Ok in Hti.
    destruct Hti as [Hti _].
    apply bind_ext. intros it l' Hit. apply defined_Ok in Hit.
    destruct Hit as [Hit _].
    rewrite H; [reflexivity|]. left. eauto.
  - apply bind_ext. intros ti l Hti. apply defined_Ok in Hti.
    destruct Hti as [Hti _].
    apply bind_ext. intros ps l' Hps. apply defined_Ok in Hps.
    destruct Hps as [Hps _].
    rewrite getExampleObject_with_ext; [reflexivity|].
    intros name d' Hd'. apply H. right. eauto 6.
Qed.

Lemma prepareConflictExamples_with_ext (d : ValueDescriptor) a :
  (forall d', sub_descriptor d d' -> forall r a p, b1 d' r a p = b2 d' r a p) ->
  prepareConflictExamples_with b1 d a = prepareConflictExamples_with b2 d a.
Proof.
  intros H. unfold prepareConflictExamples_with.
  destruct a; apply mapM_ext; intros x _.
  - apply bind_ext. intros g _ _.
    rewrite (mapM_ext (reportedValueMapper b1 d) (reportedValueMapper b2 d));
      [reflexivity|].
    intros t _. now apply reportedValueMapper_ext.
  - now rewrite reportedValueMapper_ext.
Qed.

Lemma buildExampleValue_body_ext (d : ValueDescriptor) r a p :
  (forall d', sub_descriptor d d' -> forall r a p, b1 d' r a p = b2 d' r a p) ->
  buildExampleValue_body b1 d r a p = buildExampleValue_body b2 d r a p.
Proof.
  intros H. unfold buildExampleValue_body.
  destruct (resolveWinnerType d) as [type conflicts].
  rewrite (@prepareConflictExamples_with_ext d a H).
  apply bind_ext. intros _ _ _.
  destruct type; try reflexivity.
  - apply bind_ext. intros ti l Hti. apply defined_Ok in Hti.
    destruct Hti as [Hti _].
    destruct (item ti) as [it|] eqn:Hit; [|reflexivity].
    rewrite H; [reflexivity|]. left. eauto.
  - apply bind_ext. intros ti l Hti. apply defined_Ok in Hti.
    destruct Hti as [Hti _].
    apply bind_ext. intros ps l' Hps. apply defined_Ok in Hps.
    destruct Hps as [Hps _].
    rewrite (fold_left_ext_In
               (fun acc prop =>
                  acc <- acc ;;
                  d0 <- defined (oget ps prop) ;;
                  value <- b1 d0 r false (p ++ "." ++ prop) ;;
                  if negb (is_null value) then ret (oset acc prop value)
                  else ret acc)
               (fun acc prop =>
                  acc <- acc ;;
                  d0 <- defined (oget ps prop) ;;
                  value <- b2 d0 r false (p ++ "." ++ prop) ;;
                  if negb (is_null value) then ret (oset acc prop value)
                  else ret acc)); [reflexivity|].
    intros acc prop _. apply bind_ext. intros o _ _.
    apply bind_ext. intros d' l'' Hd'. apply defined_Ok in Hd'.
    destruct Hd' as [Hd' _].
    rewrite H; [reflexivity|]. right. eauto 6.
Qed.
End BuilderExt.

Lemma buildExampleValue_fuel_stable (n : nat) :
  forall m (d : ValueDescriptor) r a p,
    (descriptor_depth d < n)%nat -> (descriptor_depth d < m)%nat ->
    buildExampleValue_fuel n d r a p = buildExampleValue_fuel m d r a p.
Proof.
  induction n as [|n IH]; intros m d r a p Hn Hm; [lia|].
  destruct m as [|m]; [lia|].
  rewrite !buildExampleValue_fuel_S.
  apply buildExampleValue_body_ext.
  intros d' Hsub r' a' p'. apply sub_descriptor_depth in Hsub.
  apply IH; lia.
Qed.

(** [buildExampleValue] satisfies the recursion of the source: a call is
    the body of the function run over [buildExampleValue] itself. *)
Lemma buildExampleValue_unfold (d : ValueDescriptor) r a p :
  buildExampleValue d r a p
  = buildExampleValue_body buildExampleValue d r a p.
Proof.
  unfold buildExampleValue at 1. rewrite buildExampleValue_fuel_S.
  apply buildExampleValue_body_ext.
  intros d' Hsub r' a' p'. apply sub_descriptor_depth in Hsub.
  unfold buildExampleValue. apply buildExampleValue_fuel_stable; lia.
Qed.

(** ** The reporter does not change the example *)

Lemma bind_ret_l (A B : Type) (a : A) (f : A -> outcome B) :
  bind (ret a) f = f a.
Proof. unfold bind, ret. now destruct (f a). Qed.

Lemma bind_Ok_nil (A B : Type) (m : outcome A) (f : A -> outcome B) a b :
  m = Ok a [] -> f a = Ok b [] -> bind m f = Ok b [].
Proof. intros -> H. simpl. now rewrite H. Qed.

Lemma fold_left_rel (A A' B : Type) (R : A -> A' -> Prop)
    (f : A -> B -> A) (g : A' -> B -> A') (l : list B) (a : A) (a' : A') :
  R a a' ->
  (forall x y b, In b l -> R x y -> R (f x b) (g y b)) ->
  R (fold_left f l a) (fold_left g l a').
Proof.
  revert a a'. induction l as [|b l IH]; simpl; intros a a' Ha H; [exact Ha|].
  apply IH; [apply H; auto | intros x y b' Hb'; apply H; auto].
Qed.

Lemma same_value_bind (A B : Type) (m m' : outcome A)
    (f f' : A -> outcome B) :
  same_value m m' -> (forall a, same_value (f a) (f' a)) ->
  same_value (bind m f) (bind m' f').
Proof.
  intros Hm Hf b l H. apply bind_Ok in H.
  destruct H as (a & l1 & l2 & Ha & Hb & _).
  eapply bind_Ok_nil; [eapply Hm; eauto | eapply Hf; eauto].
Qed.

Lemma same_value_defined (A : Type) (o : option A) :
  same_value (defined o) (defined o).
Proof. intros a l H. destruct o; [|discriminate]. now injection H as <- <-. Qed.

Lemma same_value_ret (A : Type) (a : A) : same_value (ret a) (ret a).
Proof. intros x l H. now injection H as <- <-. Qed.

Lemma bind_defined (A B : Type) (o : option A) (a : A)
    (f : A -> outcome B) :
  o = Some a -> bind (defined o) f = f a.
Proof. intros ->. apply bind_ret_l. Qed.

Ltac same_value_easy :=
  first [ apply same_value_ret
        | apply same_value_defined
        | apply same_value_bind;
          [apply same_value_defined | intros; apply same_value_ret] ].

Lemma getExampleObject_with_same_value
    (b : ValueDescriptor -> bool -> bool -> string -> outcome JsValue)
    (fm : obj ValueDescriptor) typeName typeName' r :
  (forall name d, oget fm name = Some d ->
                  forall r a p a' p',
                    same_value (b d r a p) (b d false a' p')) ->
  same_value (getExampleObject_with b fm typeName r)
             (getExampleObject_with b fm typeName' false).
Proof.
  intros H. unfold getExampleObject_with.
  apply fold_left_rel; [apply same_value_ret|].
  intros acc acc' key _ Hacc.
  apply same_value_bind; [exact Hacc|]. intros o.
  intros x l Hx. apply bind_Ok in Hx.
  destruct Hx as (d & l1 & l2 & Hd & Hx & _).
  apply defined_Ok in Hd. destruct Hd as [Hd _].
  rewrite (bind_defined _ Hd). revert x l2 Hx.
  apply same_value_bind; [eapply H; eassumption|].
  intros v. destruct (negb (key =? "")%string && negb (is_null v));
    apply same_value_ret.
Qed.

(** The value [buildExampleValue] returns depends on the descriptor
    only: the same call without a reporter, on any path and for either
    [isArrayItem], returns the same value and reports nothing. *)
Lemma buildExampleValue_same_value (d : ValueDescriptor) :
  forall r a p a' p',
    same_value (buildExampleValue d r a p) (buildExampleValue d false a' p').
Proof.
  induction d as [d IH] using descriptor_induction.
  intros r a p a' p'. rewrite !buildExampleValue_unfold.
  unfold buildExampleValue_body.
  destruct (resolveWinnerType d) as [type conflicts].
  rewrite andb_false_r.
  intros v l H. apply bind_Ok in H.
  destruct H as (u & l1 & l2 & _ & H & _). rewrite bind_ret_l.
  revert v l2 H. clear l l1 u.
  match goal with
  | |- forall v l, ?X = Ok v l -> ?Y = Ok v [] => change (same_value X Y)
  end.
  destruct type; try same_value_easy.
  - destruct (isMixOfDateAndString d); same_value_easy.
  - destruct (isMixOfDateAndString d); same_value_easy.
  - (* array *)
    intros v l H. apply bind_Ok in H.
    destruct H as (ti & l1 & l2 & Hti & H & _).
    apply defined_Ok in Hti. destruct Hti as [Hti _].
    rewrite (bind_defined _ Hti). revert v l2 H.
    apply same_value_bind; [|intros; apply same_value_ret].
    destruct (item ti) as [it|] eqn:Hit; [|apply same_value_ret].
    apply IH. left. eauto.
  - (* object *)
    intros v l H. apply bind_Ok in H.
    destruct H as (ti & l1 & l2 & Hti & H & _).
    apply defined_Ok in Hti. destruct Hti as [Hti _].
    rewrite (bind_defined _ Hti). apply bind_Ok in H.
    destruct H as (ps & l3 & l4 & Hps & H & _).
    apply defined_Ok in Hps. destruct Hps as [Hps _].
    rewrite (bind_defined _ Hps). revert v l4 H.
    apply same_value_bind; [|intros; apply same_value_ret].
    apply fold_left_rel; [apply same_value_ret|].
    intros acc acc' key _ Hacc.
    apply same_value_bind; [exact Hacc|]. intros o.
    intros x lx Hx. apply bind_Ok in Hx.
    destruct Hx as (d' & l5 & l6 & Hd' & Hx & _).
    apply defined_Ok in Hd'. destruct Hd' as [Hd' _].
    rewrite (bind_defined _ Hd'). revert x l6 Hx.
    apply same_value_bind; [apply IH; right; eauto 6|].
    intros v. destruct (negb (is_null v)); apply same_value_ret.
Qed.

(** ** What is reported, and where *)

Lemma all_reported_bind (A B : Type) (Q : Conflict -> Prop) (m : outcome A)
    (f : A -> outcome B) :
  all_reported Q m -> (forall a, all_reported Q (f a)) ->
  all_reported Q (bind m f).
Proof.
  intros Hm Hf b l H c Hc. apply bind_Ok in H.
  destruct H as (a & l1 & l2 & Ha & Hb & ->).
  apply in_app_or in Hc. destruct Hc as [Hc|Hc].
  - eapply Hm; eauto.
  - eapply Hf; eauto.
Qed.

Lemma all_reported_impl (A : Type) (Q Q' : Conflict -> Prop) (m : outcome A) :
  (forall c, Q c -> Q' c) -> all_reported Q m -> all_reported Q' m.
Proof. intros HQ Hm a l H c Hc. eapply HQ, Hm; eauto. Qed.

Lemma all_reported_ret (A : Type) (Q : Conflict -> Prop) (a : A) :
  all_reported Q (ret a).
Proof. intros x l H c Hc. injection H as <- <-. destruct Hc. Qed.

Lemma all_reported_defined (A : Type) (Q : Conflict -> Prop) (o : option A) :
  all_reported Q (defined o).
Proof. destruct o; [apply all_reported_ret | discriminate]. Qed.

Lemma all_reported_mapM (A B : Type) (Q : Conflict -> Prop)
    (f : A -> outcome B) (l : list A) :
  (forall a, all_reported Q (f a)) -> all_reported Q (mapM f l).
Proof.
  intros H. induction l as [|a l IH]; simpl; [apply all_reported_ret|].
  apply all_reported_bind; [apply H|]. intros b.
  apply all_reported_bind; [exact IH|]. intros bs. apply all_reported_ret.
Qed.

Lemma same_value_silent (A : Type) (m : outcome A) :
  same_value m m -> all_reported (fun _ => False) m.
Proof.
  intros H a l Hm c Hc. pose proof (H a l Hm) as H'.
  rewrite Hm in H'. injection H' as ->. destruct Hc.
Qed.

Lemma buildExampleValue_silent (d : ValueDescriptor) a p :
  all_reported (fun _ => False) (buildExampleValue d false a p).
Proof. apply same_value_silent, buildExampleValue_same_value. Qed.

Lemma getExampleObject_silent (fm : obj ValueDescriptor) typeName :
  all_reported (fun _ => False) (getExampleObject fm typeName false).
Proof.
  apply same_value_silent. unfold getExampleObject.
  apply getExampleObject_with_same_value.
  intros. apply buildExampleValue_same_value.
Qed.

Lemma prepareConflictExamples_silent (d : ValueDescriptor) a :
  all_reported (fun _ => False) (prepareConflictExamples d a).
Proof.
  assert (Hmap : forall t,
             all_reported (fun _ => False)
               (reportedValueMapper buildExampleValue d t)).
  { intros t. unfold reportedValueMapper.
    destruct t;
      try (apply all_reported_bind; [apply all_reported_defined|];
           intros; apply all_reported_ret).
    - apply all_reported_bind; [apply all_reported_defined|]. intros ti.
      apply all_reported_bind; [apply all_reported_defined|]. intros it.
      apply all_reported_bind; [apply buildExampleValue_silent|].
      intros; apply all_reported_ret.
    - apply all_reported_bind; [apply all_reported_defined|]. intros ti.
      apply all_reported_bind; [apply all_reported_defined|].
      intros; apply all_reported_ret.
    - apply all_reported_bind; [apply all_reported_defined|]. intros ti.
      apply all_reported_bind; [apply all_reported_defined|]. intros ps.
      apply all_reported_bind; [apply getExampleObject_silent|].
      intros; apply all_reported_ret. }
  unfold prepareConflictExamples, prepareConflictExamples_with.
  destruct a; apply all_reported_mapM; intros x.
  - apply all_reported_bind; [apply all_reported_defined|]. intros g.
    apply all_reported_bind; [now apply all_reported_mapM|].
    intros; apply all_reported_ret.
  - apply all_reported_bind; [apply Hmap|]. intros; apply all_reported_ret.
Qed.

Lemma append_empty_r (s : string) : s ++ "" = s.
Proof. induction s as [|c s IH]; simpl; [reflexivity | now rewrite IH]. Qed.

Lemma append_assoc' (a b c : string) : (a ++ b) ++ c = a ++ b ++ c.
Proof. induction a as [|x a IH]; simpl; [reflexivity | now rewrite IH]. Qed.

Lemma extends_path_refl (p : string) : extends_path p p.
Proof. exists "". now rewrite append_empty_r. Qed.

Lemma extends_path_app (p q path : string) :
  extends_path (p ++ q) path -> extends_path p path.
Proof. intros [s ->]. exists (q ++ s). apply append_assoc'. Qed.

(** A call reports only when it is given a reporter, and only at paths
    that extend its own. *)
Lemma buildExampleValue_reports (d : ValueDescriptor) :
  forall r a p,
    all_reported (fun c => r = true /\ extends_path p (conflict_path c))
      (buildExampleValue d r a p).
Proof.
  induction d as [d IH] using descriptor_induction.
  intros r a p. rewrite buildExampleValue_unfold.
  unfold buildExampleValue_body.
  destruct (resolveWinnerType d) as [type conflicts].
  apply all_reported_bind.
  { destruct (conflicts && r) eqn:E; [|apply all_reported_ret].
    apply andb_true_iff in E. destruct E as [_ ->].
    apply all_reported_bind.
    - eapply all_reported_impl; [|apply prepareConflictExamples_silent].
      intros c [].
    - intros ex x l H c Hc. injection H as <- <-.
      destruct Hc as [<-|[]]. split; [reflexivity|]. apply extends_path_refl. }
  intros _.
  destruct type;
    try apply all_reported_ret;
    try (apply all_reported_bind; [apply all_reported_defined|];
         intros; apply all_reported_ret).
  - destruct (isMixOfDateAndString d); [apply all_reported_ret|].
    apply all_reported_bind; [apply all_reported_defined|].
    intros; apply all_reported_ret.
  - destruct (isMixOfDateAndString d); [apply all_reported_ret|].
    apply all_reported_bind; [apply all_reported_defined|].
    intros; apply all_reported_ret.
  - (* array *)
    intros v l H. apply bind_Ok in H.
    destruct H as (ti & l1 & l2 & Hti & H & ->).
    apply defined_Ok in Hti. destruct Hti as [Hti ->]. simpl.
    revert v l2 H. apply all_reported_bind; [|intros; apply all_reported_ret].
    destruct (item ti) as [it|] eqn:Hit; [|apply all_reported_ret].
    apply IH. left. eauto.
  - (* object *)
    intros v l H. apply bind_Ok in H.
    destruct H as (ti & l1 & l2 & Hti & H & ->).
    apply defined_Ok in Hti. destruct Hti as [Hti ->]. simpl.
    apply bind_Ok in H. destruct H as (ps & l3 & l4 & Hps & H & ->).
    apply defined_Ok in Hps. destruct Hps as [Hps ->]. simpl.
    revert v l4 H. apply all_reported_bind; [|intros; apply all_reported_ret].
    apply fold_left_invariant; [apply all_reported_ret|].
    intros acc prop Hacc.
    apply all_reported_bind; [exact Hacc|]. intros o.
    intros x lx Hx. apply bind_Ok in Hx.
    destruct Hx as (d' & l5 & l6 & Hd' & Hx & ->).
    apply defined_Ok in Hd'. destruct Hd' as [Hd' ->]. simpl.
    revert x l6 Hx. apply all_reported_bind.
    + eapply all_reported_impl; [|apply IH; right; eauto 6].
      intros c [Hr Hp]. split; [exact Hr|].
      eapply extends_path_app; eauto.
    + intros v. destruct (negb (is_null v)); apply all_reported_ret.
Qed.

(** ** The entries of an example object *)

Section ExampleEntries.
Variable example : string -> ValueDescriptor -> outcome JsValue.
Variable keep : string -> JsValue -> bool.
Variable fm : obj ValueDescriptor.

Local Abbreviation kept := (kept_example example keep fm).

Lemma kept_example_unique key v v' : kept key v -> kept key v' -> v = v'.
Proof.
  intros (_ & d & l & Hd & Hv) (_ & d' & l' & Hd' & Hv'). congruence.
Qed.

Lemma example_entries_cons k keys (start : outcome (obj JsValue)) :
  example_entries example keep fm (k :: keys) start
  = example_entries example keep fm keys
      (acc <- start ;;
       d <- defined (oget fm k) ;;
       value <- example k d ;;
       if keep k value then ret (oset acc k value) else ret acc).
Proof. reflexivity. Qed.

Lemma example_entries_fails keys (start : outcome (obj JsValue)) :
  (forall o l, start <> Ok o l) ->
  forall o l, example_entries example keep fm keys start <> Ok o l.
Proof.
  unfold example_entries. revert start.
  induction keys as [|k keys IH]; intros start H; simpl; [exact H|].
  apply IH. destruct start as [o l| |]; simpl; try discriminate.
  exfalso. eapply H. reflexivity.
Qed.

Lemma example_entries_spec keys : forall seen acc la o l,
  (forall key v, oget acc key = Some v <-> In key seen /\ kept key v) ->
  example_entries example keep fm keys (Ok acc la) = Ok o l ->
  forall key v,
    oget o key = Some v <-> In key (seen ++ keys)%list /\ kept key v.
Proof.
  induction keys as [|k keys IH]; intros seen acc la o l Hacc H key v.
  - simpl in H. injection H as <- <-. rewrite app_nil_r. apply Hacc.
  - rewrite example_entries_cons in H.
    match type of H with
    | example_entries _ _ _ _ ?S = _ => destruct S as [acc' la'| |] eqn:ES
    end;
      [| exfalso; eapply example_entries_fails; [|exact H]; discriminate
       | exfalso; eapply example_entries_fails; [|exact H]; discriminate].
    replace (seen ++ k :: keys)%list with ((seen ++ [k]) ++ keys)%list
      by (rewrite <- app_assoc; reflexivity).
    apply (IH (seen ++ [k])%list acc' la' o l); [|exact H].
    clear IH H key v. intros key v.
    apply bind_Ok in ES. destruct ES as (x & l1 & l2 & Hx & ES & _).
    injection Hx as <- <-.
    apply bind_Ok in ES. destruct ES as (d & l3 & l4 & Hd & ES & _).
    apply defined_Ok in Hd. destruct Hd as [Hd _].
    apply bind_Ok in ES. destruct ES as (v0 & l5 & l6 & Hv0 & ES & _).
    rewrite in_app_iff. simpl In.
    destruct (keep k v0) eqn:Hkeep; unfold ret in ES; injection ES as <- _.
    + assert (Hk : kept k v0) by (split; eauto).
      rewrite oget_oset. destruct (String.eqb_spec k key) as [<-|Hne].
      * split.
        -- intros [= <-]. auto.
        -- intros [_ Hv]. f_equal. eapply kept_example_unique; eauto.
      * rewrite Hacc. intuition congruence.
    + rewrite Hacc. split; [tauto|].
      intros [[Hin|[<-|[]]] Hv]; [tauto|].
      exfalso. destruct Hv as (Hkv & d' & l' & Hd' & Hv).
      assert (v = v0) by congruence. subst. congruence.
Qed.

Lemma example_entries_from_empty keys o l :
  example_entries example keep fm keys (ret []) = Ok o l ->
  forall key v, oget o key = Some v <-> In key keys /\ kept key v.
Proof.
  intros H key v.
  refine (example_entries_spec keys [] [] [] _ H key v).
  intros k x. simpl. split; [discriminate | tauto].
Qed.
End ExampleEntries.

Lemma In_okeys_oget (V : Type) (o : obj V) (k : string) (v : V) :
  oget o k = Some v -> In k (okeys o).
Proof. intros H. eapply get_keys; [apply String.eqb_eq | exact H]. Qed.

(** ** What the builder returns, by winning type *)

Lemma not_null_iff (v : JsValue) : negb (is_null v) = true <-> v <> VNull.
Proof. destruct v; simpl; split; congruence. Qed.

Lemma getExampleObject_has (fm : obj ValueDescriptor)
    (typeName : string) (r : bool) o lg key v d l :
  getExampleObject fm typeName r = Ok o lg ->
  key <> "" -> v <> VNull -> oget fm key = Some d ->
  buildExampleValue d r false (typeName ++ "." ++ key) = Ok v l ->
  oget o key = Some v.
Proof.
  intros H Hk Hv Hd Hb.
  apply (example_entries_from_empty
           (fun key d =>
              buildExampleValue d r false (typeName ++ "." ++ key))
           (fun key v => negb (key =? "")%string && negb (is_null v))
           fm (okeys fm) H key v).
  split; [eapply In_okeys_oget; eauto|].
  unfold kept_example. split; [|eauto].
  apply andb_true_iff. split; [|now apply not_null_iff].
  apply negb_true_iff.
  destruct (String.eqb_spec key ""); [contradiction | reflexivity].
Qed.




(** When [array] wins, the example is the one-element array of the
    example of [item], built at the same path with [isArrayItem] set,
    or [null] when that example is [null] or there is no [item]; what
    is reported is what the item reports. *)
Theorem array_example_wraps_item (d : ValueDescriptor) r a p c v lg :
  resolveWinnerType d = (array, c) ->
  buildExampleValue d r a p = Ok v lg ->
  exists ti,
    dget d array = Some ti /\
    match item ti with
    | Some it =>
        exists x,
          buildExampleValue it r true p = Ok x lg /\
          v = if is_null x then VNull else VArr [x]
    | None => v = VNull /\ lg = []
    end.
Proof.
  intros Hres H.
  destruct (resolveWinnerType_candidate d Hres) as [-> _]; [discriminate|].
  rewrite buildExampleValue_unfold in H.
  unfold buildExampleValue_body in H. rewrite Hres in H.
  simpl andb in H. cbv iota in H. rewrite bind_ret_l in H.
  apply bind_Ok in H. destruct H as (ti & l3 & l4 & Hti & H & ->).
  apply defined_Ok in Hti. destruct Hti as [Hti ->].
  exists ti. split; [exact Hti|].
  apply bind_Ok in H. destruct H as (x & l5 & l6 & Hx & H & ->).
  unfold ret in H. injection H as <- <-.
  destruct (item ti) as [it|].
  - exists x. simpl. rewrite app_nil_r. auto.
  - unfold ret in Hx. injection Hx as <- <-. auto.
Qed.

(** When no type wins, the example is [null].  Without a conflict, or
    without a reporter, nothing else happens; with a conflict and a
    reporter, the call reports once, at its own path, the alternatives
    that [prepareConflictExamples] lists, and throws when that throws. *)
Theorem null_winner_example (d : ValueDescriptor) (c r a : bool)
    (p : string) :
  resolveWinnerType d = (null, c) ->
  (c && r = false -> buildExampleValue d r a p = Ok VNull []) /\
  (c && r = true ->
   match prepareConflictExamples d a with
   | Ok examples _ =>
       buildExampleValue d r a p = Ok VNull [mkConflict p examples]
   | TypeError => buildExampleValue d r a p = TypeError
   | OutOfFuel => False
   end).
Proof.
  intros Hres. rewrite buildExampleValue_unfold.
  unfold buildExampleValue_body. rewrite Hres.
  fold (prepareConflictExamples d a). split; intros ->.
  - reflexivity.
  - pose proof (prepareConflictExamples_silent d a) as Hs.
    pose proof (prepareConflictExamples_total d a) as Ht.
    destruct (prepareConflictExamples d a) as [ex l| |].
    + destruct l as [|x l]; [reflexivity|].
      exfalso. eapply Hs; [reflexivity | now left].
    + reflexivity.
    + now apply Ht.
Qed.

Lemma null_winner_example_witness :
  let d := [(int, mkTypeInfo 1 (Some "1") (VNum (number_of_Z 25))
                    None None None None);
            (string_, mkTypeInfo 1 (Some "2") (VStr "x")
                        None None None None)] in
  resolveWinnerType d = (null, true) /\
  buildExampleValue d false false "T.foo" = Ok VNull [] /\
  buildExampleValue d true false "T.foo"
  = Ok VNull [mkConflict "T.foo"
                [mkExample "number" (VNum (number_of_Z 25));
                 mkExample "string" (VStr "x")]].
Proof.
  cbv zeta. split; [reflexivity|]. split.
  - refine (proj1 (@null_winner_example _ true false false "T.foo" _) _);
      reflexivity.
  - refine (proj2 (@null_winner_example
                     [(int, mkTypeInfo 1 (Some "1") (VNum (number_of_Z 25))
                              None None None None);
                      (string_, mkTypeInfo 1 (Some "2") (VStr "x")
                                  None None None None)]
                     true true false "T.foo" _) _);
      reflexivity.
Defined.

(** When the candidates are [date] and [string], the example is one of
    two constants, whatever examples were recorded: ["1978-09-26"] when
    the [empty] counter of the strings equals their total, ["String"]
    otherwise. *)
Theorem date_string_mix_example (d : ValueDescriptor) r a p :
  Permutation (possibleTypes d) [date; string_] ->
  buildExampleValue d r a p
  = Ok (VStr (if hasOnlyEmptyStrings d then "1978-09-26" else "String")) [].
Proof.
  intros HP.
  assert (Hmix : isMixOfDateAndString d = true).
  { unfold isMixOfDateAndString. apply andb_true_iff.
    split; apply possibleTypes_In;
      apply (Permutation_in _ (Permutation_sym HP)); simpl; auto. }
  assert (Hnum : isMixedNumber d = false).
  { unfold isMixedNumber. destruct (positive (dget d float)) eqn:E;
      [|reflexivity].
    apply possibleTypes_In in E. apply (Permutation_in _ HP) in E.
    simpl in E. destruct E as [E|[E|[]]]; discriminate. }
  assert (Hres : resolveWinnerType d
                 = (if hasOnlyEmptyStrings d then date else string_, false)).
  { unfold resolveWinnerType. rewrite Hmix, Hnum.
    apply Permutation_sym, Permutation_length_2_inv in HP.
    destruct HP as [-> | ->]; reflexivity. }
  rewrite buildExampleValue_unfold. unfold buildExampleValue_body.
  rewrite Hres. simpl andb. cbv iota. rewrite bind_ret_l.
  destruct (hasOnlyEmptyStrings d); rewrite Hmix; reflexivity.
Qed.

(** When a single scalar type wins (or [float] over [int]), the example
    is the one recorded for that type and nothing is reported. *)
Theorem scalar_winner_example (d : ValueDescriptor) (t : tag) (c : bool)
    r a p :
  resolveWinnerType d = (t, c) -> scalar t = true ->
  isMixOfDateAndString d = false ->
  exists ti,
    dget d t = Some ti /\ 0 < total ti /\
    buildExampleValue d r a p = Ok (example ti) [].
Proof.
  intros Hres Hs Hmix.
  assert (Hn : t <> null) by (intros ->; discriminate).
  destruct (resolveWinnerType_candidate d Hres Hn) as [-> Hin].
  apply possibleTypes_In, positive_total in Hin.
  destruct Hin as (ti & Hti & Hpos). exists ti.
  split; [exact Hti|]. split; [exact Hpos|].
  rewrite buildExampleValue_unfold. unfold buildExampleValue_body.
  rewrite Hres. simpl andb. cbv iota. rewrite bind_ret_l.
  destruct t; try discriminate; rewrite ?Hmix, Hti; reflexivity.
Qed.

(** ** The reporter *)

(** [getExampleObject] reports only when it is given a reporter, and
    every reported path extends [typeName.field] for a field of the
    field map. *)
Theorem getExampleObject_reports (fm : obj ValueDescriptor)
    (typeName : string) (r : bool) o lg c :
  getExampleObject fm typeName r = Ok o lg -> In c lg ->
  r = true /\
  exists field,
    In field (okeys fm) /\
    extends_path (typeName ++ "." ++ field) (conflict_path c).
Proof.
  intros H Hc. revert o lg H c Hc.
  change (all_reported
            (fun c => r = true /\
                      exists field,
                        In field (okeys fm) /\
                        extends_path (typeName ++ "." ++ field)
                          (conflict_path c))
            (getExampleObject fm typeName r)).
  unfold getExampleObject, getExampleObject_with.
  apply fold_left_invariant_In; [apply all_reported_ret|].
  intros acc key Hkey Hacc.
  apply all_reported_bind; [exact Hacc|]. intros o.
  apply all_reported_bind; [apply all_reported_defined|]. intros d.
  apply all_reported_bind.
  - eapply all_reported_impl; [|apply buildExampleValue_reports].
    intros c [Hr Hp]. split; [exact Hr|]. eauto.
  - intros v. destruct (negb (key =? "")%string && negb (is_null v));
      apply all_reported_ret.
Qed.

(** The example object does not depend on the reporter: when a call
    returns an object, the call without a reporter, under any type
    name, returns the same object and reports nothing. *)
Theorem getExampleObject_without_reporter (fm : obj ValueDescriptor)
    (typeName typeName' : string) (r : bool) o lg :
  getExampleObject fm typeName r = Ok o lg ->
  getExampleObject fm typeName' false = Ok o [].
Proof.
  apply getExampleObject_with_same_value.
  intros. apply buildExampleValue_same_value.
Qed.

(** ** The builder does not throw on what the updater builds *)

Lemma well_formed_nil : well_formed [].
Proof. constructor; intros ti H; discriminate. Qed.

Lemma well_formed_inv (d : ValueDescriptor) :
  well_formed d ->
  (forall ti, dget d object = Some ti ->
              exists ps, props ti = Some ps /\
                         forall name d', oget ps name = Some d' ->
                                         well_formed d') /\
  (forall ti, dget d array = Some ti ->
              exists it, item ti = Some it /\ well_formed it) /\
  (forall ti, dget d listOfUnion = Some ti -> exists ns, nodes ti = Some ns).
Proof. intros H. inversion H. auto. Qed.

Lemma well_formed_sub (d d' : ValueDescriptor) :
  well_formed d -> sub_descriptor d d' -> well_formed d'.
Proof.
  intros H Hsub. apply well_formed_inv in H. destruct H as (Ho & Ha & _).
  destruct Hsub as [(ti & Hti & Hit) | (ti & ps & name & Hti & Hps & Hd')].
  - destruct (Ha _ Hti) as (it & Hit' & Hw). congruence.
  - destruct (Ho _ Hti) as (ps' & Hps' & Hw).
    rewrite Hps in Hps'. injection Hps' as <-. eauto.
Qed.

Section WellFormedUpdate.
Variable looksLikeADate : string -> bool.
Variable nonStringKey : JsValue -> string.

Local Abbreviation update :=
  (updateValueDescriptor looksLikeADate nonStringKey).
Local Abbreviation keeps_well_formed' :=
  (keeps_well_formed looksLikeADate nonStringKey).

Lemma well_formed_orElse (d : option ValueDescriptor) :
  (forall d0, d = Some d0 -> well_formed d0) -> well_formed (orElse d []).
Proof. destruct d; simpl; intros H; [now apply H | apply well_formed_nil]. Qed.

Lemma props_after_well_formed nodeId operation entries :
  Forall (fun e => keeps_well_formed' (snd e)) entries ->
  forall ps,
    (forall name d, oget ps name = Some d -> well_formed d) ->
    forall name d,
      oget (props_after looksLikeADate nonStringKey nodeId operation
              entries ps) name = Some d ->
      well_formed d.
Proof.
  induction 1 as [|e es He Hes IH]; intros ps Hps; [exact Hps|].
  unfold props_after in *. simpl fold_left. apply IH.
  intros name d. rewrite oget_oset.
  destruct (String.eqb (fst e) name); [|apply Hps].
  intros [= <-]. apply He. intros d0 Hd0. eapply Hps; eauto.
Qed.

Lemma item_after_well_formed nodeId key operation items :
  Forall keeps_well_formed' items ->
  forall it,
    (forall d, it = Some d -> well_formed d) ->
    forall d,
      item_after looksLikeADate nonStringKey nodeId key operation items it
      = Some d ->
      well_formed d.
Proof.
  induction 1 as [|i is_ Hi His IH]; intros it Hit; [exact Hit|].
  unfold item_after in *. simpl fold_left. apply IH.
  intros d [= <-]. now apply Hi.
Qed.

Lemma item_after_Some nodeId key operation items it :
  items <> [] \/ it <> None ->
  exists d,
    item_after looksLikeADate nonStringKey nodeId key operation items it
    = Some d.
Proof.
  revert it. induction items as [|i items IH]; intros it H.
  - destruct H as [H|H]; [contradiction|].
    destruct it as [d|]; [exists d; reflexivity | congruence].
  - unfold item_after in *. simpl fold_left. apply IH. right. discriminate.
Qed.

Lemma getType_array_nonempty value key :
  getType looksLikeADate value key = array ->
  exists i items, value = VArr (i :: items).
Proof.
  destruct value as [| |x|s| | | |items|entries| | |]; simpl;
    try discriminate.
  - destruct (is32BitInteger x); discriminate.
  - destruct (looksLikeADate s); discriminate.
  - destruct items as [|i items]; [discriminate | eauto].
  - destruct entries; discriminate.
Qed.

Lemma keeps_well_formed_step (v : JsValue) :
  (forall entries, v = VObj entries ->
                   Forall (fun e => keeps_well_formed' (snd e)) entries) ->
  (forall items, v = VArr items -> Forall keeps_well_formed' items) ->
  keeps_well_formed' v.
Proof.
  intros Hobj Harr nodeId key operation d Hd.
  apply well_formed_orElse in Hd.
  pose proof (well_formed_inv Hd) as (Ho & Ha & Hl).
  destruct (getType looksLikeADate v key) eqn:E.
  6: { (* array *)
    destruct (getType_array_nonempty _ _ E) as (i & items' & Hv).
    destruct (update_array looksLikeADate nonStringKey nodeId key v
                operation d E) as (items & ti' & -> & Hr & _ & Hi).
    injection Hv as ->. rewrite Hr. constructor; intros ti;
      rewrite dget_dset; simpl tag_eqb; cbv iota; auto.
    intros [= <-].
    destruct (@item_after_Some nodeId key operation (i :: items')
                (item (orElse (dget (orElse d []) array) newTypeInfo)))
      as [it Hit]; [left; discriminate|].
    exists it. split; [rewrite Hi; exact Hit|].
    eapply item_after_well_formed; [apply (Harr _ eq_refl) | | exact Hit].
    intros d0. unfold ValueDescriptor in *.
    destruct (dget (orElse d []) array) as [ti0|] eqn:Hti0;
      [|discriminate].
    destruct (Ha _ eq_refl) as (it0 & Hit0 & Hw). simpl. congruence. }
  6: { (* listOfUnion *)
    destruct (update_listOfUnion looksLikeADate nonStringKey nodeId key v
                operation d E) as (items & ti' & -> & Hr & _ & Hn).
    rewrite Hr. constructor; intros ti;
      rewrite dget_dset; simpl tag_eqb; cbv iota; auto.
    intros [= <-]. eauto. }
  6: { (* object *)
    destruct (update_object looksLikeADate nonStringKey nodeId key v
                operation d E) as (entries & ti' & -> & Hr & _ & Hp).
    rewrite Hr. constructor; intros ti;
      rewrite dget_dset; simpl tag_eqb; cbv iota; auto.
    intros [= <-]. eexists. split; [exact Hp|].
    apply props_after_well_formed; [apply (Hobj _ eq_refl)|].
    intros name d0. unfold ValueDescriptor in *.
    destruct (dget (orElse d []) object) as [ti0|] eqn:Hti0;
      [|discriminate].
    destruct (Ho _ eq_refl) as (ps0 & Hps0 & Hw). simpl.
    rewrite Hps0. simpl. apply Hw. }
  6: { rewrite update_null by exact E. exact Hd. }
  all: assert (Hn : getType looksLikeADate v key <> null)
         by (rewrite E; discriminate);
       destruct (update_typed looksLikeADate nonStringKey nodeId key v
                   operation d Hn) as (ti' & Hr & _);
       rewrite E in Hr; rewrite Hr;
       constructor; intros ti; rewrite dget_dset; simpl tag_eqb; cbv iota;
       auto.
Qed.

Lemma update_well_formed (v : JsValue) : keeps_well_formed' v.
Proof.
  induction v using JsValue_ind; apply keeps_well_formed_step;
    intros l Hl; try discriminate; injection Hl as <-; assumption.
Qed.

Lemma updateTypeMetadata_well_formed (m : TypeMetadata) operation node :
  well_formed_fieldMap (fieldMap m) ->
  well_formed_fieldMap
    (fieldMap (updateTypeMetadata looksLikeADate nonStringKey m operation
                 node)).
Proof.
  intros Hm. destruct (ignored m) eqn:Hi.
  - now rewrite updateTypeMetadata_ignored.
  - destruct (updateTypeMetadata_tracked looksLikeADate nonStringKey m
                operation node Hi) as (_ & _ & ->).
    intros fm name d [= <-].
    apply props_after_well_formed.
    + apply Forall_forall. intros e _. apply update_well_formed.
    + intros name' d' Hd'. destruct (fieldMap m) as [fm0|] eqn:Hfm.
      * eapply Hm; eauto.
      * discriminate.
Qed.

Lemma mutations_well_formed (calls : list mutation) (m : TypeMetadata) :
  well_formed_fieldMap (fieldMap m) ->
  well_formed_fieldMap
    (fieldMap (mutations looksLikeADate nonStringKey calls m)).
Proof.
  revert m. induction calls as [|c calls IH]; intros m Hm; [exact Hm|].
  unfold mutations. simpl fold_left. apply IH.
  destruct c; simpl; try exact Hm; unfold addNode, deleteNode;
    now apply updateTypeMetadata_well_formed.
Qed.
End WellFormedUpdate.

Lemma returns_bind (A B : Type) (m : outcome A) (f : A -> outcome B) :
  returns m -> (forall a l, m = Ok a l -> returns (f a)) ->
  returns (bind m f).
Proof.
  intros (a & l & ->) Hf. destruct (Hf a l eq_refl) as (b & l' & Hb).
  exists b, (l ++ l')%list. simpl. now rewrite Hb.
Qed.

Lemma returns_ret (A : Type) (a : A) : returns (ret a).
Proof. exists a, []. reflexivity. Qed.

Lemma returns_defined (A : Type) (o : option A) (a : A) :
  o = Some a -> returns (defined o).
Proof. intros ->. apply returns_ret. Qed.

Lemma returns_mapM (A B : Type) (f : A -> outcome B) (l : list A) :
  (forall a, In a l -> returns (f a)) -> returns (mapM f l).
Proof.
  induction l as [|a l IH]; intros H; simpl; [apply returns_ret|].
  apply returns_bind; [apply H; now left|]. intros b _ _.
  apply returns_bind; [apply IH; intros; apply H; now right|].
  intros; apply returns_ret.
Qed.

Lemma getExampleObject_with_returns
    (b : ValueDescriptor -> bool -> bool -> string -> outcome JsValue)
    (fm : obj ValueDescriptor) typeName r :
  (forall name d, oget fm name = Some d ->
                  forall r a p, returns (b d r a p)) ->
  returns (getExampleObject_with b fm typeName r).
Proof.
  intros H. unfold getExampleObject_with.
  apply fold_left_invariant_In; [apply returns_ret|].
  intros acc key Hkey Hacc.
  apply returns_bind; [exact Hacc|]. intros o _ _.
  apply (keys_get String.eqb String.eqb_eq) in Hkey.
  destruct Hkey as [d Hd]. fold (oget fm key) in Hd.
  apply returns_bind; [eapply returns_defined; eauto|]. intros d' l Hd'.
  apply defined_Ok in Hd'. destruct Hd' as [Hd' _].
  apply returns_bind; [eapply H; eauto|]. intros v _ _.
  destruct (negb (key =? "")%string && negb (is_null v)); apply returns_ret.
Qed.

Lemma buildExampleValue_returns (d : ValueDescriptor) :
  well_formed d -> forall r a p, returns (buildExampleValue d r a p).
Proof.
  induction d as [d IH] using descriptor_induction.
  intros Hw r a p.
  pose proof (well_formed_inv Hw) as (Ho & Ha & Hl).
  assert (Hsub : forall d', sub_descriptor d d' ->
                 forall r a p, returns (buildExampleValue d' r a p)).
  { intros d' Hd'. apply IH; [exact Hd' | eapply well_formed_sub; eauto]. }
  assert (Hmap : forall t, In t (possibleTypes d) ->
                 returns (reportedValueMapper buildExampleValue d t)).
  { intros t Ht. apply possibleTypes_In, positive_total in Ht.
    destruct Ht as (ti & Hti & _). unfold reportedValueMapper.
    destruct t;
      try (apply returns_bind; [eapply returns_defined; eauto|];
           intros; apply returns_ret).
    - destruct (Ha _ Hti) as (it & Hit & _).
      apply returns_bind; [eapply returns_defined; eauto|]. intros ti' l Hti'.
      apply defined_Ok in Hti'. destruct Hti' as [Hti' _].
      assert (ti' = ti) by congruence. subst ti'.
      apply returns_bind; [eapply returns_defined; eauto|]. intros it' l' Hit'.
      apply defined_Ok in Hit'. destruct Hit' as [Hit' _].
      apply returns_bind; [|intros; apply returns_ret].
      apply Hsub. left. eauto.
    - destruct (Hl _ Hti) as (ns & Hns).
      apply returns_bind; [eapply returns_defined; eauto|]. intros ti' l Hti'.
      apply defined_Ok in Hti'. destruct Hti' as [Hti' _].
      assert (ti' = ti) by congruence. subst ti'.
      apply returns_bind; [eapply returns_defined; eauto|].
      intros; apply returns_ret.
    - destruct (Ho _ Hti) as (ps & Hps & _).
      apply returns_bind; [eapply returns_defined; eauto|]. intros ti' l Hti'.
      apply defined_Ok in Hti'. destruct Hti' as [Hti' _].
      assert (ti' = ti) by congruence. subst ti'.
      apply returns_bind; [eapply returns_defined; eauto|]. intros ps' l' Hps'.
      apply defined_Ok in Hps'. destruct Hps' as [Hps' _].
      apply returns_bind; [|intros; apply returns_ret].
      apply getExampleObject_with_returns. intros name d' Hd'.
      apply Hsub. right. eauto 6. }
  rewrite buildExampleValue_unfold. unfold buildExampleValue_body.
  destruct (resolveWinnerType d) as [type conflicts] eqn:Hres.
  apply returns_bind.
  { destruct (conflicts && r); [|apply returns_ret].
    apply returns_bind; [|intros; eexists; eexists; reflexivity].
    unfold prepareConflictExamples_with.
    destruct a; apply returns_mapM.
    - intros nodeId Hn.
      apply (keys_get String.eqb String.eqb_eq) in Hn.
      destruct Hn as [g Hg].
      match type of Hg with
      | JsObject.get _ ?G _ = _ => fold (oget G nodeId) in Hg
      end.
      apply returns_bind; [eapply returns_defined; eauto|]. intros g' l Hg'.
      apply defined_Ok in Hg'. destruct Hg' as [Hg' _].
      apply groupBy_members in Hg'. destruct Hg' as [_ Hincl].
      apply returns_bind; [|intros; apply returns_ret].
      apply returns_mapM. intros t Ht. apply Hmap, Hincl, Ht.
    - intros t Ht. apply returns_bind; [now apply Hmap|].
      intros; apply returns_ret. }
  intros _ _ _.
  assert (Hti : type <> null -> exists ti, dget d type = Some ti).
  { intros Hn. destruct (resolveWinnerType_candidate d Hres Hn) as [_ Hin].
    apply possibleTypes_In, positive_total in Hin.
    destruct Hin as (ti & Hti & _). eauto. }
  destruct type; try apply returns_ret;
    destruct Hti as [ti Hti]; try discriminate;
    try (apply returns_bind; [eapply returns_defined; eauto|];
         intros; apply returns_ret).
  - destruct (isMixOfDateAndString d); [apply returns_ret|].
    apply returns_bind; [eapply returns_defined; eauto|].
    intros; apply returns_ret.
  - destruct (isMixOfDateAndString d); [apply returns_ret|].
    apply returns_bind; [eapply returns_defined; eauto|].
    intros; apply returns_ret.
  - (* array *)
    apply returns_bind; [eapply returns_defined; eauto|]. intros ti' l Hti'.
    apply defined_Ok in Hti'. destruct Hti' as [Hti' _].
    apply returns_bind; [|intros; apply returns_ret].
    destruct (item ti') as [it|] eqn:Hit; [|apply returns_ret].
    apply Hsub. left. eauto.
  - (* object *)
    destruct (Ho _ Hti) as (ps & Hps & _).
    apply returns_bind; [eapply returns_defined; eauto|]. intros ti' l Hti'.
    apply defined_Ok in Hti'. destruct Hti' as [Hti' _].
    assert (ti' = ti) by congruence. subst ti'.
    apply returns_bind; [eapply returns_defined; eauto|]. intros ps' l' Hps'.
    apply defined_Ok in Hps'. destruct Hps' as [Hps' _].
    apply returns_bind; [|intros; apply returns_ret].
    apply fold_left_invariant_In; [apply returns_ret|].
    intros acc prop Hprop Hacc.
    apply returns_bind; [exact Hacc|]. intros o _ _.
    apply (keys_get String.eqb String.eqb_eq) in Hprop.
    destruct Hprop as [d' Hd']. fold (oget ps' prop) in Hd'.
    apply returns_bind; [eapply returns_defined; eauto|]. intros d'' l'' Hd''.
    apply defined_Ok in Hd''. destruct Hd'' as [Hd'' _].
    apply returns_bind; [apply Hsub; right; eauto 6|]. intros v _ _.
    destruct (negb (is_null v)); apply returns_ret.
Qed.


(** ** Counters under sequences of calls *)

Lemma Zsum_app (l l' : list Z) : Zsum (l ++ l') = Zsum l + Zsum l'.
Proof. induction l as [|x l IH]; simpl; [reflexivity | rewrite IH; ring]. Qed.

Lemma Zsum_Permutation (l l' : list Z) :
  Permutation l l' -> Zsum l = Zsum l'.
Proof. induction 1; simpl; lia. Qed.

Lemma Zsum_nonneg (l : list Z) : Forall (fun x => 0 <= x) l -> 0 <= Zsum l.
Proof. induction 1; simpl; lia. Qed.

Section Sequences.
Variable looksLikeADate : string -> bool.
Variable nonStringKey : JsValue -> string.

Local Abbreviation mutate' := (mutate looksLikeADate nonStringKey).
Local Abbreviation mutations' := (mutations looksLikeADate nonStringKey).
Local Abbreviation effect' := (effect looksLikeADate nonStringKey).
Local Abbreviation contribution' :=
  (contribution looksLikeADate nonStringKey).

Lemma contribution_nonneg (path : list step) :
  forall key v c, 0 <= contribution' path key v c.
Proof.
  induction path as [|s path IH]; intros key v c.
  - destruct c as [t|id].
    + rewrite contribution_total.
      destruct (getType looksLikeADate v key), t; simpl; lia.
    + simpl. destruct (getType looksLikeADate v key); try lia.
      destruct v; try lia.
      apply Zsum_nonneg, Forall_forall. intros x Hx.
      apply in_map_iff in Hx. destruct Hx as (i & <- & _).
      destruct (_ =? _)%string; lia.
  - destruct s as [name|]; simpl.
    + destruct (getType looksLikeADate v key); try lia.
      destruct v; try lia.
      apply Zsum_nonneg, Forall_forall. intros x Hx.
      apply in_map_iff in Hx. destruct Hx as (e & <- & _).
      destruct (_ =? _)%string; [apply IH | lia].
    + destruct (getType looksLikeADate v key); try lia.
      destruct v; try lia.
      apply Zsum_nonneg, Forall_forall. intros x Hx.
      apply in_map_iff in Hx. destruct Hx as (e & <- & _). apply IH.
Qed.

Lemma record_contribution_nonneg (m : TypeMetadata) node field path c :
  0 <= record_contribution looksLikeADate nonStringKey m node field path c.
Proof.
  unfold record_contribution. apply Zsum_nonneg, Forall_forall.
  intros x Hx. apply in_map_iff in Hx. destruct Hx as (e & <- & _).
  destruct (_ =? _)%string; [apply contribution_nonneg | lia].
Qed.

Lemma mutate_ignoredFields (m : TypeMetadata) (c : mutation) :
  ignoredFields (mutate' m c) = ignoredFields m.
Proof.
  destruct c; simpl; try reflexivity;
    unfold addNode, deleteNode, updateTypeMetadata;
    destruct (ignored m); try reflexivity;
    match goal with
    | |- context [fold_left ?f ?l ?a] => destruct (fold_left f l a)
    end; reflexivity.
Qed.

Lemma mutate_typeName (m : TypeMetadata) (c : mutation) :
  typeName (mutate' m c) = typeName m.
Proof.
  destruct c; simpl; try reflexivity;
    unfold addNode, deleteNode, updateTypeMetadata;
    destruct (ignored m); try reflexivity;
    match goal with
    | |- context [fold_left ?f ?l ?a] => destruct (fold_left f l a)
    end; reflexivity.
Qed.

Lemma mutate_ignored (m : TypeMetadata) (c : mutation) :
  is_update c = true -> ignored (mutate' m c) = ignored m.
Proof.
  destruct c; simpl; try discriminate; intros _;
    unfold addNode, deleteNode, updateTypeMetadata;
    destruct (ignored m) eqn:E; try exact E;
    match goal with
    | |- context [fold_left ?f ?l ?a] => destruct (fold_left f l a)
    end; reflexivity.
Qed.

Lemma effect_ignoredFields (m m' : TypeMetadata) field path c call :
  ignoredFields m = ignoredFields m' ->
  effect' m field path c call = effect' m' field path c call.
Proof.
  intros H. destruct call; simpl; unfold record_contribution;
    try rewrite H; reflexivity.
Qed.

Lemma mutate_counter (m : TypeMetadata) (call : mutation) field path c :
  ignored m = false ->
  counter_at (mutate' m call) field path c
  = counter_at m field path c + effect' m field path c call.
Proof.
  intros H. unfold counter_at. destruct call; simpl.
  - unfold addNode. rewrite updateTypeMetadata_reads by exact H.
    simpl delta_of. unfold ValueDescriptor in *. lia.
  - unfold deleteNode. rewrite updateTypeMetadata_reads by exact H.
    simpl delta_of. unfold ValueDescriptor in *. lia.
  - unfold ValueDescriptor in *. lia.
Qed.

Lemma mutations_cons (m : TypeMetadata) (call : mutation) calls :
  mutations' (call :: calls) m = mutations' calls (mutate' m call).
Proof. reflexivity. Qed.

Lemma mutations_counter (calls : list mutation) :
  forall m field path c,
    ignored m = false -> forallb is_update calls = true ->
    counter_at (mutations' calls m) field path c
    = counter_at m field path c
      + Zsum (map (effect' m field path c) calls).
Proof.
  induction calls as [|call calls IH]; intros m field path c Hi Hu.
  - simpl. unfold mutations. simpl. lia.
  - simpl in Hu. apply andb_true_iff in Hu. destruct Hu as [Hc Hu].
    rewrite mutations_cons. rewrite IH; auto.
    + rewrite mutate_counter by exact Hi. simpl.
      rewrite (map_ext (effect' (mutate' m call) field path c)
                 (effect' m field path c)).
      * lia.
      * intros x. apply effect_ignoredFields, mutate_ignoredFields.
    + rewrite mutate_ignored; auto.
Qed.

Lemma mutations_ignored_updates (calls : list mutation) (m : TypeMetadata) :
  ignored m = true -> forallb is_update calls = true ->
  mutations' calls m = m.
Proof.
  intros Hi. induction calls as [|call calls IH]; intros Hu;
    [reflexivity|].
  simpl in Hu. apply andb_true_iff in Hu. destruct Hu as [Hc Hu].
  rewrite mutations_cons.
  assert (mutate' m call = m) as ->; [|now apply IH].
  destruct call; try discriminate; simpl;
    unfold addNode, deleteNode; now apply updateTypeMetadata_ignored.
Qed.

Lemma forallb_Permutation (A : Type) (f : A -> bool) (l l' : list A) :
  Permutation l l' -> forallb f l = forallb f l'.
Proof.
  induction 1; simpl; try congruence.
  destruct (f x), (f y); reflexivity.
Qed.
End Sequences.

(** The counters do not depend on the order of the calls: two sequences
    of [addNode] and [deleteNode] calls with plain records that are
    permutations of each other leave every counter of every field, at
    every depth, with the same value. *)
Theorem counters_ignore_order (looksLikeADate : string -> bool)
    (nonStringKey : JsValue -> string) (calls calls' : list mutation)
    (m : TypeMetadata) (field : string) (path : list step) (c : counter) :
  forallb plain_call calls = true ->
  Permutation calls calls' -> forallb is_update calls = true ->
  counter_at (mutations looksLikeADate nonStringKey calls m) field path c
  = counter_at (mutations looksLikeADate nonStringKey calls' m) field path c.
Proof.
  intros _ HP Hu.
  assert (Hu' : forallb is_update calls' = true)
    by now rewrite <- (forallb_Permutation is_update HP).
  destruct (ignored m) eqn:Hi.
  - now rewrite !mutations_ignored_updates.
  - rewrite !mutations_counter by assumption. f_equal.
    apply Zsum_Permutation, Permutation_map, HP.
Qed.

(** After [addNodes] of plain records, every counter has grown by what
    the records hold for it: the number of values of the counted type,
    or of references to the counted id, found at the counter's position
    in the tracked fields of the records.  Ignored metadata keeps its
    counters. *)
Theorem addNodes_counts (looksLikeADate : string -> bool)
    (nonStringKey : JsValue -> string) (m : TypeMetadata)
    (nodes : list (obj JsValue)) (field : string) (path : list step)
    (c : counter) :
  forallb plain_record nodes = true ->
  counter_at (addNodes looksLikeADate nonStringKey m nodes) field path c
  = counter_at m field path c
    + (if ignored m then 0
       else Zsum (map (fun node =>
                         record_contribution looksLikeADate nonStringKey m
                           node field path c) nodes)).
Proof.
  intros _.
  assert (Hm : addNodes looksLikeADate nonStringKey m nodes
               = mutations looksLikeADate nonStringKey (map AddNode nodes) m).
  { unfold addNodes, mutations. revert m.
    induction nodes as [|n ns IH]; intros m; [reflexivity|].
    simpl. apply IH. }
  assert (Hu : forallb is_update (map AddNode nodes) = true)
    by (clear Hm; induction nodes; simpl; auto).
  rewrite Hm. destruct (ignored m) eqn:Hi.
  - rewrite mutations_ignored_updates by assumption. lia.
  - rewrite mutations_counter by assumption. now rewrite map_map.
Qed.

(** With a plain record, [addNode] never lowers a counter and
    [deleteNode] never raises one. *)
Theorem addNode_raises_deleteNode_lowers (looksLikeADate : string -> bool)
    (nonStringKey : JsValue -> string) (m : TypeMetadata)
    (node : obj JsValue) (field : string) (path : list step) (c : counter) :
  plain_record node = true ->
  counter_at m field path c
  <= counter_at (addNode looksLikeADate nonStringKey m node) field path c /\
  counter_at (deleteNode looksLikeADate nonStringKey m node) field path c
  <= counter_at m field path c.
Proof.
  intros _.
  pose proof (record_contribution_nonneg looksLikeADate nonStringKey m node
                field path c) as Hc.
  unfold addNode, deleteNode. destruct (ignored m) eqn:Hi.
  - rewrite !updateTypeMetadata_ignored by exact Hi. lia.
  - unfold counter_at. rewrite !updateTypeMetadata_reads by exact Hi.
    simpl delta_of. unfold ValueDescriptor in *. lia.
Qed.

(** ** The fields of a record *)

Lemma oget_nodeFields (node : obj JsValue) ign (field : string) :
  existsb (String.eqb field) (orElse ign []) = false ->
  oget (nodeFields node ign) field = oget node field.
Proof.
  intros H. unfold nodeFields, oget.
  induction node as [|[k v] node IH]; [reflexivity|]. simpl.
  destruct (existsb (String.eqb k) (orElse ign [])) eqn:E; simpl.
  - destruct (String.eqb_spec field k) as [->|_]; [congruence | exact IH].
  - now rewrite IH.
Qed.

Lemma nodeFields_tracked (node : obj JsValue) ign e :
  In e (nodeFields node ign) ->
  In e node /\ existsb (String.eqb (fst e)) (orElse ign []) = false.
Proof.
  unfold nodeFields. rewrite filter_In, negb_true_iff. auto.
Qed.

Lemma NoDup_nodeFields (node : obj JsValue) ign :
  NoDup (okeys node) -> NoDup (map fst (nodeFields node ign)).
Proof.
  unfold nodeFields, okeys, JsObject.keys.
  induction node as [|[k v] node IH]; simpl; intros H; [constructor|].
  inversion H as [|? ? Hk Hn]; subst.
  destruct (negb _); simpl; [|now apply IH].
  constructor; [|now apply IH].
  intros Hin. apply Hk. apply in_map_iff in Hin.
  destruct Hin as (e & He & Hin). apply filter_In in Hin.
  apply in_map_iff. exists e. tauto.
Qed.

Lemma oget_None_keys V (o : obj V) (k : string) :
  ~ In k (okeys o) -> oget o k = None.
Proof.
  intros H. destruct (oget o k) as [v|] eqn:E; [|reflexivity].
  exfalso. apply H. apply (get_In String.eqb String.eqb_eq) in E.
  apply in_map_iff. now exists (k, v).
Qed.

Lemma Zsum_single_key V (g : string * V -> Z) (l : obj V) (k : string) :
  NoDup (map fst l) ->
  Zsum (map (fun e => if String.eqb (fst e) k then g e else 0) l)
  = match oget l k with
    | Some v => g (k, v)
    | None => 0
    end.
Proof.
  induction l as [|[k' v] l IH]; intros H; [reflexivity|].
  simpl in H. inversion H as [|? ? Hk Hn]; subst.
  simpl map. rewrite Zsum_cons, (IH Hn).
  unfold oget. simpl. rewrite (String.eqb_sym k k').
  destruct (String.eqb_spec k' k) as [->|_]; [|lia].
  fold (oget l k). rewrite (oget_None_keys l k Hk). lia.
Qed.

Section Fields.
Variable looksLikeADate : string -> bool.
Variable nonStringKey : JsValue -> string.

Local Abbreviation update :=
  (updateValueDescriptor looksLikeADate nonStringKey).
Local Abbreviation updateTypeMetadata' :=
  (updateTypeMetadata looksLikeADate nonStringKey).
Local Abbreviation props_after' :=
  (props_after looksLikeADate nonStringKey).

Lemma record_contribution_single (m : TypeMetadata) (node : obj JsValue)
    field path c :
  NoDup (okeys node) -> tracked m field = true ->
  record_contribution looksLikeADate nonStringKey m node field path c
  = match oget node field with
    | Some v => contribution looksLikeADate nonStringKey path field v c
    | None => 0
    end.
Proof.
  intros Hn Ht. unfold tracked in Ht. apply negb_true_iff in Ht.
  unfold record_contribution.
  rewrite (Zsum_single_key
             (fun e => contribution looksLikeADate nonStringKey path
                         (fst e) (snd e) c))
    by now apply NoDup_nodeFields.
  now rewrite oget_nodeFields.
Qed.

Lemma record_contribution_untracked (m : TypeMetadata) (node : obj JsValue)
    field path c :
  tracked m field = false ->
  record_contribution looksLikeADate nonStringKey m node field path c = 0.
Proof.
  intros Ht. unfold tracked in Ht. apply negb_false_iff in Ht.
  unfold record_contribution.
  assert (H : forall e, In e (nodeFields node (ignoredFields m)) ->
                        String.eqb (fst e) field = false).
  { intros e He. apply nodeFields_tracked in He. destruct He as [_ He].
    destruct (String.eqb_spec (fst e) field); congruence. }
  induction (nodeFields node (ignoredFields m)) as [|e l IH];
    [reflexivity|].
  simpl map. rewrite Zsum_cons, (H e) by now left.
  rewrite IH; [lia|]. intros; apply H; now right.
Qed.

Lemma props_after_frame nodeId operation entries :
  forall ps field,
    ~ In field (map fst entries) ->
    oget (props_after' nodeId operation entries ps) field = oget ps field.
Proof.
  unfold props_after.
  induction entries as [|e es IH]; intros ps field Hn; [reflexivity|].
  simpl fold_left. rewrite IH by (intros H; apply Hn; now right).
  rewrite oget_oset.
  destruct (String.eqb_spec (fst e) field) as [E|_]; [|reflexivity].
  exfalso. apply Hn. now left.
Qed.

Lemma props_after_listed nodeId operation entries :
  forall ps field,
    In field (map fst entries) \/ oget ps field <> None ->
    oget (props_after' nodeId operation entries ps) field <> None.
Proof.
  unfold props_after.
  induction entries as [|e es IH]; intros ps field H.
  - destruct H as [[]|H]; exact H.
  - simpl fold_left. apply IH. rewrite oget_oset.
    destruct (String.eqb_spec (fst e) field) as [E|Hne].
    + right. discriminate.
    + destruct H as [[H|H]|H]; [contradiction | now left | now right].
Qed.
End Fields.

Lemma addNodes_as_mutations (looksLikeADate : string -> bool)
    (nonStringKey : JsValue -> string) (nodes : list (obj JsValue)) :
  forall m,
    addNodes looksLikeADate nonStringKey m nodes
    = mutations looksLikeADate nonStringKey (map AddNode nodes) m.
Proof.
  unfold addNodes, mutations.
  induction nodes as [|n ns IH]; intros m; [reflexivity|].
  simpl. apply IH.
Qed.

Lemma adds_are_updates (nodes : list (obj JsValue)) :
  forallb is_update (map AddNode nodes) = true.
Proof. induction nodes; simpl; auto. Qed.

Lemma records_of_type (looksLikeADate : string -> bool)
    (nonStringKey : JsValue -> string) (m : TypeMetadata)
    (nodes : list (obj JsValue)) (field : string) (t : tag) :
  tracked m field = true -> t <> null ->
  Forall (fun node => NoDup (okeys node)) nodes ->
  Zsum (map (fun node =>
               record_contribution looksLikeADate nonStringKey m node
                 field [] (TotalOf t)) nodes)
  = Z.of_nat (List.length (filter (has_type looksLikeADate field t) nodes)).
Proof.
  intros Ht Hn Hd.
  induction Hd as [|node nodes Hnode _ IH]; [reflexivity|].
  simpl map. rewrite Zsum_cons, IH. simpl filter.
  assert (Hone : record_contribution looksLikeADate nonStringKey m node
                   field [] (TotalOf t)
                 = if has_type looksLikeADate field t node then 1 else 0).
  { rewrite record_contribution_single by assumption.
    unfold has_type. destruct (oget node field) as [v|]; [|reflexivity].
    rewrite contribution_total.
    destruct (getType looksLikeADate v field) eqn:E; try reflexivity.
    destruct t; try reflexivity. contradiction. }
  rewrite Hone.
  destruct (has_type looksLikeADate field t node); simpl List.length; lia.
Qed.

(** From a metadata that is not ignored, after [addNodes] of plain
    records (objects: no key twice), the total kept for a type under a tracked
    field has grown by the number of records whose value for the field
    has that type. *)
Theorem total_counts_records (looksLikeADate : string -> bool)
    (nonStringKey : JsValue -> string) (m : TypeMetadata)
    (nodes : list (obj JsValue)) (field : string) (t : tag) :
  forallb plain_record nodes = true ->
  ignored m = false -> tracked m field = true -> t <> null ->
  Forall (fun node => NoDup (okeys node)) nodes ->
  counter_at (addNodes looksLikeADate nonStringKey m nodes) field []
    (TotalOf t)
  = counter_at m field [] (TotalOf t)
    + Z.of_nat (List.length (filter (has_type looksLikeADate field t) nodes)).
Proof.
  intros _ Hi Ht Hn Hd.
  rewrite addNodes_as_mutations.
  rewrite mutations_counter by (exact Hi || apply adds_are_updates).
  f_equal. rewrite map_map.
  now apply (records_of_type looksLikeADate nonStringKey m).
Qed.

(** With a plain record, [addNode] and [deleteNode] change the
    descriptor of no field that the record does not have or that is
    ignored, and leave every tracked field of the record with a
    descriptor, whatever its value. *)
Theorem updateTypeMetadata_fields (looksLikeADate : string -> bool)
    (nonStringKey : JsValue -> string) (m : TypeMetadata)
    (operation : Operation) (node : obj JsValue) (field : string) :
  plain_record node = true -> ignored m = false ->
  exists fm,
    fieldMap (updateTypeMetadata looksLikeADate nonStringKey m operation
                node) = Some fm /\
    (oget node field = None \/ tracked m field = false ->
     oget fm field = oget (orElse (fieldMap m) []) field) /\
    (oget node field <> None -> tracked m field = true ->
     oget fm field <> None).
Proof.
  intros _ Hi.
  destruct (updateTypeMetadata_tracked looksLikeADate nonStringKey m
              operation node Hi) as (_ & _ & ->).
  eexists. split; [reflexivity|]. split.
  - intros H. apply props_after_frame. intros Hin.
    apply in_map_iff in Hin. destruct Hin as (e & <- & He).
    apply nodeFields_tracked in He. destruct He as [He Ht].
    destruct H as [H|H].
    + assert (Hk : In (fst e) (okeys node))
        by (apply in_map_iff; now exists e).
      apply (keys_get String.eqb String.eqb_eq) in Hk.
      destruct Hk as [v Hv]. unfold oget in H. congruence.
    + unfold tracked in H. apply negb_false_iff in H. congruence.
  - intros Hv Ht. apply props_after_listed. left.
    unfold tracked in Ht. apply negb_true_iff in Ht.
    destruct (oget node field) as [v|] eqn:E; [|contradiction].
    rewrite <- (oget_nodeFields node (ignoredFields m) field Ht) in E.
    apply (get_In String.eqb String.eqb_eq) in E.
    apply in_map_iff. now exists (field, v).
Qed.

(** An ignored field is never tracked: whatever calls follow, the field
    map gets no entry for it. *)
Theorem ignored_fields_never_tracked (looksLikeADate : string -> bool)
    (nonStringKey : JsValue -> string) (calls : list mutation)
    (m : TypeMetadata) (field : string) :
  tracked m field = false ->
  oget (orElse (fieldMap m) []) field = None ->
  oget (orElse (fieldMap (mutations looksLikeADate nonStringKey calls m)) [])
    field = None.
Proof.
  revert m. induction calls as [|call calls IH]; intros m Ht Hf;
    [exact Hf|].
  rewrite mutations_cons. apply IH.
  - unfold tracked in *. now rewrite mutate_ignoredFields.
  - assert (Hop : forall operation node,
              oget (orElse (fieldMap (updateTypeMetadata looksLikeADate
                                        nonStringKey m operation node)) [])
                field = None).
    { intros operation node. destruct (ignored m) eqn:Hi.
      - now rewrite updateTypeMetadata_ignored.
      - destruct (updateTypeMetadata_tracked looksLikeADate nonStringKey m
                    operation node Hi) as (_ & _ & ->).
        simpl orElse. rewrite props_after_frame; [exact Hf|].
        intros Hin. apply in_map_iff in Hin. destruct Hin as (e & <- & He).
        apply nodeFields_tracked in He. destruct He as [_ He].
        unfold tracked in Ht. apply negb_false_iff in Ht. congruence. }
    destruct call; simpl; [apply Hop | apply Hop | exact Hf].
Qed.

(** ** The flag [dirty] *)

Section Dirty.
Variable looksLikeADate : string -> bool.
Variable nonStringKey : JsValue -> string.

Local Abbreviation update :=
  (updateValueDescriptor looksLikeADate nonStringKey).
Local Abbreviation step' := (fields_step looksLikeADate nonStringKey).

Lemma updateTypeMetadata_loop (m : TypeMetadata) operation node :
  ignored m = false ->
  updateTypeMetadata looksLikeADate nonStringKey m operation node
  = let r := fold_left (step' (node_id node) operation)
               (nodeFields node (ignoredFields m))
               (orElse (fieldMap m) [], false) in
    mkTypeMetadata (ignored m) (ignoredFields m) (Some (fst r))
      (typeName m) (dirty m || snd r).
Proof.
  intros Hi. unfold updateTypeMetadata. rewrite Hi.
  change (fun acc e => _) with (step' (node_id node) operation).
  cbv zeta.
  now destruct (fold_left (step' (node_id node) operation)
                  (nodeFields node (ignoredFields m))
                  (orElse (fieldMap m) [], false)).
Qed.

Lemma fields_step_fst nodeId operation l :
  forall acc,
    fst (fold_left (step' nodeId operation) l acc)
    = props_after looksLikeADate nonStringKey nodeId operation l (fst acc).
Proof.
  intros acc. unfold props_after. apply fold_left_proj.
  intros [fm b] e. unfold fields_step. simpl.
  now destruct (update nodeId (fst e) (snd e) operation (oget fm (fst e))).
Qed.

Lemma fields_step_flag nodeId operation l :
  forall acc,
    snd acc = true -> snd (fold_left (step' nodeId operation) l acc) = true.
Proof.
  intros acc Ha. apply fold_left_invariant; [exact Ha|].
  intros [fm b] e Hb. unfold fields_step. simpl in *.
  destruct (update nodeId (fst e) (snd e) operation (oget fm (fst e))).
  simpl. now rewrite Hb.
Qed.

Lemma fields_step_untyped nodeId operation l :
  Forall (fun e => getType looksLikeADate (snd e) (fst e) = null) l ->
  forall acc field,
    snd (fold_left (step' nodeId operation) l acc) = snd acc /\
    orElse (oget (fst (fold_left (step' nodeId operation) l acc)) field) []
    = orElse (oget (fst acc) field) [].
Proof.
  induction 1 as [|e l He _ IH]; intros [fm b] field; [auto|].
  change (fold_left (step' nodeId operation) (e :: l) (fm, b))
    with (fold_left (step' nodeId operation) l
            (step' nodeId operation (fm, b) e)).
  destruct (IH (step' nodeId operation (fm, b) e) field) as [-> ->].
  unfold fields_step. rewrite update_null by exact He. simpl.
  rewrite orb_false_r, oget_oset. split; [reflexivity|].
  now destruct (String.eqb_spec (fst e) field) as [->|_].
Qed.

Lemma mutate_dirty (m : TypeMetadata) (c : mutation) :
  dirty m = true -> dirty (mutate looksLikeADate nonStringKey m c) = true.
Proof.
  intros Hd. destruct c as [node|node|set]; simpl; try exact Hd;
    unfold addNode, deleteNode;
    (destruct (ignored m) eqn:Hi;
     [ now rewrite updateTypeMetadata_ignored
     | rewrite updateTypeMetadata_loop by exact Hi; simpl;
       now rewrite Hd ]).
Qed.
End Dirty.

(** No call clears [dirty]: once it is set, it stays set through any
    calls of [addNode], [deleteNode] and [ignore]. *)
Theorem dirty_is_never_cleared (looksLikeADate : string -> bool)
    (nonStringKey : JsValue -> string) (calls : list mutation)
    (m : TypeMetadata) :
  dirty m = true ->
  dirty (mutations looksLikeADate nonStringKey calls m) = true.
Proof.
  revert m. induction calls as [|c calls IH]; intros m Hd; [exact Hd|].
  rewrite mutations_cons. apply IH. now apply mutate_dirty.
Qed.

(** On a metadata that is not ignored, a plain record (an object: no
    key twice) sets [dirty] when it brings a tracked field the first value
    of a type ([addNode] with the total at 0) or takes the last one
    away ([deleteNode] with the total at 1). *)
Theorem type_set_change_sets_dirty (looksLikeADate : string -> bool)
    (nonStringKey : JsValue -> string) (m : TypeMetadata)
    (operation : Operation) (node : obj JsValue) (field : string)
    (v : JsValue) :
  plain_record node = true ->
  ignored m = false -> NoDup (okeys node) ->
  oget node field = Some v -> tracked m field = true ->
  getType looksLikeADate v field <> null ->
  counter_at m field [] (TotalOf (getType looksLikeADate v field))
  = match operation with add => 0 | del => 1 end ->
  dirty (updateTypeMetadata looksLikeADate nonStringKey m operation node)
  = true.
Proof.
  intros _ Hi Hnd Hv Ht Hty Hc.
  rewrite updateTypeMetadata_loop by exact Hi. cbv zeta. simpl dirty.
  apply orb_true_iff. right.
  unfold tracked in Ht. apply negb_true_iff in Ht.
  pose proof (NoDup_nodeFields node (ignoredFields m) Hnd) as Hnd'.
  rewrite <- (oget_nodeFields node (ignoredFields m) field Ht) in Hv.
  apply (get_In String.eqb String.eqb_eq) in Hv.
  apply in_split in Hv. destruct Hv as (l1 & l2 & Hl).
  rewrite Hl in *. rewrite fold_left_app. simpl fold_left.
  apply fields_step_flag.
  rewrite map_app in Hnd'. simpl in Hnd'. apply NoDup_remove_2 in Hnd'.
  assert (Hl1 : ~ In field (map fst l1))
    by (intros H; apply Hnd', in_or_app; now left).
  pose proof (fields_step_fst looksLikeADate nonStringKey (node_id node)
                operation l1 (orElse (fieldMap m) [], false)) as Hfst.
  destruct (fold_left (fields_step looksLikeADate nonStringKey
                         (node_id node) operation) l1
              (orElse (fieldMap m) [], false)) as [fm1 b1].
  simpl in Hfst. subst fm1. unfold fields_step. simpl fst. simpl snd.
  rewrite props_after_frame by exact Hl1.
  destruct (update_typed looksLikeADate nonStringKey (node_id node) field v
              operation (oget (orElse (fieldMap m) []) field) Hty)
    as (ti' & _ & Htot & _ & Hflag & _).
  destruct (updateValueDescriptor looksLikeADate nonStringKey (node_id node)
              field v operation (oget (orElse (fieldMap m) []) field))
    as [d' b'].
  simpl in *. rewrite Hflag; [apply orb_true_r|].
  apply own_flag_true. rewrite Htot, total_of_orElse.
  unfold counter_at, field_descriptor in Hc. simpl in Hc.
  assert (Heq : total_of (orElse (oget (orElse (fieldMap m) []) field) [])
                  (getType looksLikeADate v field)
                = match operation with add => 0 | del => 1 end).
  { rewrite <- Hc. now destruct (fieldMap m). }
  unfold ValueDescriptor in *. rewrite Heq.
  destruct operation; simpl; auto.
Qed.

(** A plain record whose tracked values all have no type ([null], empty
    arrays and objects, [undefined], ...) changes neither [dirty] nor
    any descriptor a field had; a field that had none stands for the
    empty descriptor. *)
Theorem untyped_record_changes_nothing (looksLikeADate : string -> bool)
    (nonStringKey : JsValue -> string) (m : TypeMetadata)
    (operation : Operation) (node : obj JsValue) (field : string) :
  plain_record node = true ->
  (forall k v, In (k, v) node -> tracked m k = true ->
               getType looksLikeADate v k = null) ->
  dirty (updateTypeMetadata looksLikeADate nonStringKey m operation node)
  = dirty m /\
  field_descriptor
    (fieldMap (updateTypeMetadata looksLikeADate nonStringKey m operation
                 node)) field
  = field_descriptor (fieldMap m) field.
Proof.
  intros _ H. destruct (ignored m) eqn:Hi.
  { now rewrite updateTypeMetadata_ignored. }
  rewrite updateTypeMetadata_loop by exact Hi. cbv zeta. simpl.
  assert (HF : Forall (fun e => getType looksLikeADate (snd e) (fst e) = null)
                 (nodeFields node (ignoredFields m))).
  { apply Forall_forall. intros [k v] He.
    apply nodeFields_tracked in He. destruct He as [He Ht]. simpl in *.
    apply H; [exact He|]. unfold tracked. now rewrite Ht. }
  destruct (fields_step_untyped looksLikeADate nonStringKey (node_id node)
              operation HF (orElse (fieldMap m) [], false) field)
    as [-> ->].
  simpl. rewrite orb_false_r. split; [reflexivity|].
  now destruct (fieldMap m).
Qed.

(** ** [isEmpty] *)

Lemma possibleTypes_nil (d : ValueDescriptor) :
  possibleTypes d = [] <-> forall t, total_of d t <= 0.
Proof.
  split.
  - intros H t. unfold total_of. destruct (dget d t) as [ti|] eqn:E; [|lia].
    destruct (Z.ltb_spec 0 (total ti)) as [Hpos|]; [|assumption].
    assert (Hin : In t (possibleTypes d)).
    { apply possibleTypes_In, positive_total. eauto. }
    rewrite H in Hin. contradiction.
  - intros H. destruct (possibleTypes d) as [|t l] eqn:E; [reflexivity|].
    assert (Hin : In t (possibleTypes d)) by (rewrite E; now left).
    apply possibleTypes_In, positive_total in Hin.
    destruct Hin as (ti & Hti & Hpos). specialize (H t).
    unfold total_of in H. rewrite Hti in H. lia.
Qed.

Lemma isEmpty_counters (m : TypeMetadata) :
  isEmpty m = Some true <->
  fieldMap m <> None /\
  forall field t, counter_at m field [] (TotalOf t) <= 0.
Proof.
  unfold isEmpty, counter_at, field_descriptor.
  destruct (fieldMap m) as [fm|]; [|split; [discriminate | tauto]].
  cbn [read descriptor_at fold_left]. split.
  - intros [= H]. split; [discriminate|]. intros field t.
    destruct (oget fm field) as [d|] eqn:E; [|cbn; lia].
    rewrite forallb_forall in H.
    assert (Hk : In field (okeys fm)).
    { apply (get_keys String.eqb String.eqb_eq) with (v := d). exact E. }
    specialize (H field Hk). rewrite E in H.
    apply Nat.eqb_eq, length_zero_iff_nil in H.
    simpl. now apply possibleTypes_nil.
  - intros [_ H]. f_equal. apply forallb_forall. intros field Hk.
    apply (keys_get String.eqb String.eqb_eq) in Hk.
    destruct Hk as [d Hd]. fold (oget fm field) in Hd. rewrite Hd.
    apply Nat.eqb_eq, length_zero_iff_nil, possibleTypes_nil.
    intros t. specialize (H field t). now rewrite Hd in H.
Qed.

Lemma mutations_fieldMap (looksLikeADate : string -> bool)
    (nonStringKey : JsValue -> string) (calls : list mutation) :
  forall m, fieldMap m <> None ->
            fieldMap (mutations looksLikeADate nonStringKey calls m) <> None.
Proof.
  induction calls as [|c calls IH]; intros m H; [exact H|].
  rewrite mutations_cons. apply IH.
  destruct c as [node|node|set]; simpl; try exact H;
    unfold addNode, deleteNode;
    (destruct (ignored m) eqn:Hi;
     [ now rewrite updateTypeMetadata_ignored
     | rewrite updateTypeMetadata_loop by exact Hi; discriminate ]).
Qed.

Lemma Zsum_opp (A : Type) (f : A -> Z) (l : list A) :
  Zsum (map (fun x => - f x) l) = - Zsum (map f l).
Proof. induction l as [|x l IH]; simpl; [reflexivity | rewrite IH; lia]. Qed.

(** Deleting what was added gives back the answer of [isEmpty]: after
    [addNode] of some plain records and [deleteNode] of the same, in
    any order (a delete may come before its add), [isEmpty] answers as
    it did before. *)
Theorem isEmpty_after_matched_deletes (looksLikeADate : string -> bool)
    (nonStringKey : JsValue -> string) (m : TypeMetadata)
    (nodes : list (obj JsValue)) (calls : list mutation) :
  forallb plain_record nodes = true -> fieldMap m <> None ->
  Permutation calls (map AddNode nodes ++ map DeleteNode nodes) ->
  isEmpty (mutations looksLikeADate nonStringKey calls m) = isEmpty m.
Proof.
  intros _ Hf HP.
  assert (Hu : forallb is_update calls = true).
  { rewrite (forallb_Permutation is_update HP), forallb_app.
    apply andb_true_iff. split; clear; induction nodes; simpl; auto. }
  destruct (ignored m) eqn:Hi;
    [now rewrite mutations_ignored_updates|].
  assert (Hsame : forall field t,
            counter_at (mutations looksLikeADate nonStringKey calls m)
              field [] (TotalOf t)
            = counter_at m field [] (TotalOf t)).
  { intros field t. rewrite mutations_counter by assumption.
    rewrite (Zsum_Permutation (Permutation_map _ HP)).
    rewrite map_app, Zsum_app, !map_map. simpl effect.
    rewrite Zsum_opp. lia. }
  pose proof (@mutations_fieldMap looksLikeADate nonStringKey calls m Hf)
    as Hf'.
  pose proof (isEmpty_counters m) as H1.
  pose proof (isEmpty_counters
                (mutations looksLikeADate nonStringKey calls m)) as H2.
  assert (Hiff : isEmpty (mutations looksLikeADate nonStringKey calls m)
                 = Some true <-> isEmpty m = Some true).
  { rewrite H1, H2. split; intros [_ H]; (split; [assumption|]);
      intros field t; specialize (H field t);
      rewrite Hsame in *; exact H. }
  assert (HN : forall m', fieldMap m' <> None -> isEmpty m' <> None).
  { intros m' H. unfold isEmpty. now destruct (fieldMap m'). }
  apply HN in Hf, Hf'.
  destruct (isEmpty (mutations looksLikeADate nonStringKey calls m))
    as [[|]|], (isEmpty m) as [[|]|];
    try reflexivity; try contradiction; destruct Hiff as [A B];
    first [discriminate (A eq_refl) | discriminate (B eq_refl)].
Qed.

(** ** The types of a descriptor *)

Lemma dkeys_dset (d : ValueDescriptor) (t : tag) (ti : TypeInfo) :
  dkeys (dset d t ti)
  = if existsb (tag_eqb t) (dkeys d) then dkeys d
    else (dkeys d ++ [t])%list.
Proof.
  unfold dset, dkeys, dget, JsObject.set, JsObject.keys.
  induction d as [|[t' ti'] d IH]; [reflexivity|].
  simpl. destruct (tag_eqb t t') eqn:E; simpl.
  - apply tag_eqb_eq in E. now subst.
  - destruct (JsObject.get tag_eqb d t) eqn:G;
      destruct (existsb (tag_eqb t) (map fst d)); simpl in *;
      now rewrite IH.
Qed.

(** A call on a plain value changes the statistics of one type only,
    the type of its value, and keeps the types of the descriptor in the
    order in which they were first seen: a type that is new goes
    last. *)
Theorem update_touches_one_type (looksLikeADate : string -> bool)
    (nonStringKey : JsValue -> string) (nodeId : option string)
    (key : string) (value : JsValue) (operation : Operation)
    (descriptor : option ValueDescriptor) :
  plain_value key value = true ->
  let t := getType looksLikeADate value key in
  let d := orElse descriptor [] in
  let d' := fst (updateValueDescriptor looksLikeADate nonStringKey nodeId
                   key value operation descriptor) in
  (forall t', t' <> t -> dget d' t' = dget d t') /\
  dkeys d' = if tag_eqb t null || existsb (tag_eqb t) (dkeys d)
             then dkeys d else (dkeys d ++ [t])%list.
Proof.
  intros _. cbv zeta.
  destruct (tag_eq_dec (getType looksLikeADate value key) null) as [Hn|Hn].
  - rewrite update_null by exact Hn. rewrite Hn. simpl. auto.
  - destruct (update_typed looksLikeADate nonStringKey nodeId key value
                operation descriptor Hn) as (ti' & -> & _).
    split.
    + intros t' Ht'. rewrite dget_dset.
      destruct (tag_eqb _ t') eqn:E; [|reflexivity].
      apply tag_eqb_eq in E. congruence.
    + rewrite dkeys_dset.
      destruct (tag_eqb _ null) eqn:E; [|reflexivity].
      apply tag_eqb_eq in E. contradiction.
Qed.

(** ** Reference lists *)

Lemma first_occurrence (A : Type) (f : A -> string) (l : list A)
    (id : string) :
  In id (map f l) ->
  exists l1 x l2,
    l = (l1 ++ x :: l2)%list /\ f x = id /\ ~ In id (map f l1).
Proof.
  induction l as [|a l IH]; [contradiction|]. intros H.
  destruct (string_dec (f a) id) as [E|N].
  - exists [], a, l. auto.
  - destruct H as [H|H]; [contradiction|].
    destruct (IH H) as (l1 & x & l2 & -> & Hx & Hn).
    exists (a :: l1), x, l2. repeat split; auto.
    intros [Ha|Ha]; [contradiction | now apply Hn].
Qed.

Section References.
Variable looksLikeADate : string -> bool.
Variable nonStringKey : JsValue -> string.

Local Abbreviation update :=
  (updateValueDescriptor looksLikeADate nonStringKey).
Local Abbreviation key_of := (propertyKey nonStringKey).

Lemma nodes_step_fst operation items :
  forall acc,
    fst (fold_left (nodes_step nonStringKey (delta_of operation)) items acc)
    = nodes_after nonStringKey operation items (fst acc).
Proof.
  intros acc. unfold nodes_after. apply fold_left_proj.
  intros [ns b] i. reflexivity.
Qed.

Lemma nodes_step_flag delta items :
  forall acc,
    snd acc = true ->
    snd (fold_left (nodes_step nonStringKey delta) items acc) = true.
Proof.
  intros acc Ha. apply fold_left_invariant; [exact Ha|].
  intros [ns b] i Hb. simpl in *. now rewrite Hb.
Qed.

Lemma nodes_after_frame operation items :
  forall ns id,
    ~ In id (map key_of items) ->
    oget (nodes_after nonStringKey operation items ns) id = oget ns id.
Proof.
  unfold nodes_after.
  induction items as [|i items IH]; intros ns id Hn; [reflexivity|].
  simpl fold_left. rewrite IH by (intros H; apply Hn; now right).
  rewrite oget_oset.
  destruct (String.eqb_spec (key_of i) id) as [E|_]; [|reflexivity].
  exfalso. apply Hn. now left.
Qed.

Lemma update_listOfUnion_flag nodeId key items operation descriptor :
  getType looksLikeADate (VArr items) key = listOfUnion ->
  let d0 := orElse descriptor [] in
  let ti0 := orElse (dget d0 listOfUnion) newTypeInfo in
  snd (update nodeId key (VArr items) operation descriptor)
  = snd (fold_left (nodes_step nonStringKey (delta_of operation)) items
           (orElse (nodes ti0) [],
            own_flag (total ti0 + delta_of operation))).
Proof.
  intros E. cbv zeta.
  rewrite updateValueDescriptor_unfold. unfold updateValueDescriptor_body.
  rewrite E. cbv beta iota zeta delta [tag_eqb].
  change (fun acc nodeId0 => _)
    with (nodes_step nonStringKey (delta_of operation)).
  destruct operation;
    (match goal with
     | |- snd ?L = snd (fold_left ?f items ?acc') =>
         match L with
         | context [fold_left ?g items ?acc] => change acc with acc'
         end
     end;
     now destruct (fold_left _ items _)).
Qed.
End References.

(** A reference list ([key] holds [___NODE]) of plain ids that brings
    the first reference to an id ([add] with its count at 0), or takes
    the last one away ([del] with its count at 1), reports a structural
    change. *)
Theorem reference_change_sets_flag (looksLikeADate : string -> bool)
    (nonStringKey : JsValue -> string) (nodeId : option string)
    (key : string) (items : list JsValue) (operation : Operation)
    (descriptor : option ValueDescriptor) (id : string) :
  forallb plain_id items = true ->
  getType looksLikeADate (VArr items) key = listOfUnion ->
  In id (map (propertyKey nonStringKey) items) ->
  nodes_of (orElse descriptor []) id
  = match operation with add => 0 | del => 1 end ->
  snd (updateValueDescriptor looksLikeADate nonStringKey nodeId key
         (VArr items) operation descriptor) = true.
Proof.
  intros _ E Hin Hc.
  rewrite update_listOfUnion_flag by exact E. cbv zeta.
  destruct (first_occurrence _ _ _ Hin) as (l1 & x & l2 & -> & Hx & Hn).
  rewrite fold_left_app. simpl fold_left. apply nodes_step_flag.
  match goal with
  | |- context [fold_left ?f l1 ?a] =>
      pose proof (nodes_step_fst nonStringKey operation l1 a) as Hfst;
      destruct (fold_left f l1 a) as [ns1 b1]
  end.
  simpl in Hfst. subst ns1. unfold nodes_step. cbv beta iota zeta.
  rewrite Hx, nodes_after_frame by exact Hn.
  rewrite <- nodes_of_orElse. unfold ValueDescriptor in *.
  rewrite Hc. cbn [snd].
  destruct operation; simpl; rewrite ?orb_true_r; reflexivity.
Qed.

(** ** Empty strings *)

Lemma filter_length_le (A : Type) (p q : A -> bool) (l : list A) :
  (forall x, p x = true -> q x = true) ->
  (List.length (filter p l) <= List.length (filter q l))%nat.
Proof.
  intros H. induction l as [|a l IH]; simpl; [apply Nat.le_refl|].
  destruct (p a) eqn:Ep.
  - rewrite (H a Ep). simpl. now apply le_n_S.
  - destruct (q a); simpl; [apply Nat.le_le_succ_r|]; exact IH.
Qed.

Lemma filter_length_eq (A : Type) (p q : A -> bool) (l : list A) :
  (forall x, p x = true -> q x = true) ->
  List.length (filter p l) = List.length (filter q l) <->
  (forall x, In x l -> q x = true -> p x = true).
Proof.
  intros H. induction l as [|a l IH]; simpl; [tauto|].
  pose proof (filter_length_le p q l H) as Hle.
  destruct (p a) eqn:Ep.
  - rewrite (H a Ep). simpl. split.
    + intros E x [<-|Hx] Hq; [exact Ep|].
      apply IH; auto.
    + intros E. f_equal. apply IH. auto.
  - destruct (q a) eqn:Eq; simpl; split.
    + intros E. rewrite E in Hle. exfalso. apply (Nat.nle_succ_diag_l _ Hle).
    + intros E. specialize (E a (or_introl eq_refl) Eq). congruence.
    + intros E x [<-|Hx] Hq; [congruence|]. apply IH; auto.
    + intros E. apply IH. auto.
Qed.

Section EmptyStrings.
Variable looksLikeADate : string -> bool.
Variable nonStringKey : JsValue -> string.

Local Abbreviation update :=
  (updateValueDescriptor looksLikeADate nonStringKey).
Local Abbreviation is_empty' := (is_empty_string looksLikeADate).

Lemma is_empty_string_type (v : JsValue) (key : string) :
  is_empty' v = true -> getType looksLikeADate v key = string_.
Proof.
  destruct v as [| | |s| | | | | | | |]; try discriminate.
  destruct s; [|discriminate]. simpl.
  now destruct (looksLikeADate "").
Qed.

Lemma update_empty nodeId key v operation d :
  empty_of (fst (update nodeId key v operation d))
  = empty_of (orElse d [])
    + delta_of operation * (if is_empty' v then 1 else 0).
Proof.
  destruct (tag_eq_dec (getType looksLikeADate v key) string_) as [E|N].
  - rewrite updateValueDescriptor_unfold. unfold updateValueDescriptor_body.
    rewrite E. cbv beta iota zeta delta [tag_eqb]. cbn [fst].
    unfold empty_of. rewrite dget_dset. simpl tag_eqb. cbv iota.
    assert (Hd : (match operation with add => 1 | del => -1 end)
                 = delta_of operation) by now destruct operation.
    destruct (dget (orElse d []) string_) as [ti|] eqn:G;
      destruct v as [| | |s| | | | | | | |]; try destruct s;
      simpl in E |- *;
      try (destruct (looksLikeADate "") eqn:L; [discriminate|]);
      destruct operation; simpl; lia.
  - assert (Hf : is_empty' v = false).
    { destruct (is_empty' v) eqn:Ev; [|reflexivity].
      now apply is_empty_string_type with (key := key) in Ev. }
    rewrite Hf.
    destruct (tag_eq_dec (getType looksLikeADate v key) null) as [E0|N0].
    + rewrite update_null by exact E0. simpl. lia.
    + destruct (update_typed looksLikeADate nonStringKey nodeId key v
                  operation d N0) as (ti' & -> & _).
      unfold empty_of. rewrite dget_dset.
      destruct (tag_eqb _ string_) eqn:T;
        [apply tag_eqb_eq in T; contradiction|].
      unfold ValueDescriptor in *. lia.
Qed.

Lemma updateTypeMetadata_empty (m : TypeMetadata) operation node field :
  ignored m = false -> tracked m field = true -> NoDup (okeys node) ->
  empty_of (field_descriptor
              (fieldMap (updateTypeMetadata looksLikeADate nonStringKey m
                           operation node)) field)
  = empty_of (field_descriptor (fieldMap m) field)
    + delta_of operation
      * (if has_empty_string looksLikeADate field node then 1 else 0).
Proof.
  intros Hi Ht Hn.
  destruct (updateTypeMetadata_tracked looksLikeADate nonStringKey m
              operation node Hi) as (_ & _ & ->).
  unfold field_descriptor at 1.
  rewrite (props_after_reads looksLikeADate nonStringKey empty_of
             (fun k x => if is_empty' x then 1 else 0)).
  - rewrite (Zsum_single_key
               (fun e => if is_empty' (snd e) then 1 else 0))
      by now apply NoDup_nodeFields.
    unfold tracked in Ht. apply negb_true_iff in Ht.
    rewrite oget_nodeFields by exact Ht.
    unfold has_empty_string, field_descriptor.
    destruct (fieldMap m); destruct (oget node field); reflexivity.
  - apply Forall_forall. intros e _ d. apply update_empty.
Qed.

Lemma addNodes_empty (nodes : list (obj JsValue)) :
  forall (m : TypeMetadata) field,
    ignored m = false -> tracked m field = true ->
    Forall (fun node => NoDup (okeys node)) nodes ->
    empty_of (field_descriptor
                (fieldMap (addNodes looksLikeADate nonStringKey m nodes))
                field)
    = empty_of (field_descriptor (fieldMap m) field)
      + Z.of_nat (List.length
                    (filter (has_empty_string looksLikeADate field) nodes)).
Proof.
  induction nodes as [|node nodes IH]; intros m field Hi Ht Hn.
  - simpl. lia.
  - inversion Hn as [|? ? Hnode Hrest]; subst.
    unfold addNodes in *. simpl fold_left.
    destruct (updateTypeMetadata_tracked looksLikeADate nonStringKey m add
                node Hi) as (Hi' & Hf' & _).
    unfold addNode at 2. rewrite IH; auto.
    + rewrite updateTypeMetadata_empty by assumption.
      simpl filter. simpl delta_of.
      destruct (has_empty_string looksLikeADate field node);
        simpl List.length; lia.
    + unfold tracked in *. now rewrite Hf'.
Qed.
End EmptyStrings.


(** ** From records to the example *)

Section FieldOfRecord.
Variable looksLikeADate : string -> bool.
Variable nonStringKey : JsValue -> string.

Local Abbreviation update :=
  (updateValueDescriptor looksLikeADate nonStringKey).
Local Abbreviation addNodes' := (addNodes looksLikeADate nonStringKey).

Lemma update_orElse nodeId key v operation d :
  update nodeId key v operation d
  = update nodeId key v operation (Some (orElse d [])).
Proof. rewrite !updateValueDescriptor_unfold. now destruct d. Qed.

Lemma props_after_cons nodeId operation e (entries : obj JsValue) ps :
  props_after looksLikeADate nonStringKey nodeId operation (e :: entries) ps
  = props_after looksLikeADate nonStringKey nodeId operation entries
      (oset ps (fst e)
         (fst (update nodeId (fst e) (snd e) operation (oget ps (fst e))))).
Proof. reflexivity. Qed.

Lemma props_after_single nodeId operation (entries : obj JsValue) :
  NoDup (map fst entries) ->
  forall ps name,
    orElse (oget (props_after looksLikeADate nonStringKey nodeId operation
                    entries ps) name) []
    = match oget entries name with
      | Some v =>
          fst (update nodeId name v operation
                 (Some (orElse (oget ps name) [])))
      | None => orElse (oget ps name) []
      end.
Proof.
  induction entries as [|[k v] entries IH]; intros Hn ps name;
    [reflexivity|].
  simpl in Hn. inversion Hn as [|? ? Hk Hrest]; subst.
  rewrite props_after_cons. cbn [fst snd].
  change (oget ((k, v) :: entries) name)
    with (if String.eqb name k then Some v else oget entries name).
  destruct (String.eqb_spec name k) as [->|Hne].
  - rewrite props_after_frame by exact Hk.
    rewrite oget_oset, String.eqb_refl. cbn [orElse].
    now rewrite (update_orElse nodeId k v operation (oget ps k)).
  - rewrite (IH Hrest).
    rewrite oget_oset.
    destruct (String.eqb_spec k name) as [E|_]; [congruence|].
    reflexivity.
Qed.

Lemma updateTypeMetadata_field (m : TypeMetadata) operation node field :
  ignored m = false -> tracked m field = true -> NoDup (okeys node) ->
  field_descriptor
    (fieldMap (updateTypeMetadata looksLikeADate nonStringKey m operation
                 node)) field
  = match oget node field with
    | Some v =>
        fst (update (node_id node) field v operation
               (Some (field_descriptor (fieldMap m) field)))
    | None => field_descriptor (fieldMap m) field
    end.
Proof.
  intros Hi Ht Hn.
  destruct (updateTypeMetadata_tracked looksLikeADate nonStringKey m
              operation node Hi) as (_ & _ & ->).
  unfold field_descriptor at 1.
  rewrite props_after_single by now apply NoDup_nodeFields.
  unfold tracked in Ht. apply negb_true_iff in Ht.
  rewrite oget_nodeFields by exact Ht.
  unfold field_descriptor. now destruct (fieldMap m).
Qed.

Lemma addNodes_app (m : TypeMetadata) (l1 l2 : list (obj JsValue)) :
  addNodes' m (l1 ++ l2) = addNodes' (addNodes' m l1) l2.
Proof. unfold addNodes. apply fold_left_app. Qed.

Lemma addNodes_tracked (nodes : list (obj JsValue)) :
  forall m, ignored m = false ->
            ignored (addNodes' m nodes) = false /\
            ignoredFields (addNodes' m nodes) = ignoredFields m.
Proof.
  induction nodes as [|node nodes IH]; intros m Hi; [auto|].
  unfold addNodes in *. simpl fold_left.
  destruct (updateTypeMetadata_tracked looksLikeADate nonStringKey m add
              node Hi) as (Hi' & Hf' & _).
  unfold addNode at 2. unfold addNode at 3.
  destruct (IH _ Hi') as [-> ->]. auto.
Qed.

Lemma addNodes_untyped (field : string) (nodes : list (obj JsValue)) :
  forall m,
    ignored m = false -> tracked m field = true ->
    Forall (fun node => NoDup (okeys node)) nodes ->
    (forall node v, In node nodes -> oget node field = Some v ->
                    getType looksLikeADate v field = null) ->
    field_descriptor (fieldMap (addNodes' m nodes)) field
    = field_descriptor (fieldMap m) field.
Proof.
  induction nodes as [|node nodes IH]; intros m Hi Ht Hn Hty; [reflexivity|].
  apply Forall_cons_iff in Hn. destruct Hn as [Hnode Hrest].
  unfold addNodes in *. simpl fold_left.
  destruct (updateTypeMetadata_tracked looksLikeADate nonStringKey m add
              node Hi) as (Hi' & Hf' & _).
  unfold addNode at 2. rewrite IH; auto.
  - rewrite updateTypeMetadata_field by assumption.
    destruct (oget node field) as [v|] eqn:E; [|reflexivity].
    rewrite update_null; [reflexivity|].
    apply (Hty node v); [now left | exact E].
  - unfold tracked in *. now rewrite Hf'.
  - intros n v Hin. apply Hty. now right.
Qed.

Lemma scalar_value (v : JsValue) (key : string) :
  scalar (getType looksLikeADate v key) = true ->
  is_undefined v = false /\ v <> VNull.
Proof.
  destruct v; simpl; try discriminate; split; congruence.
Qed.

Lemma update_single (t : tag) (ti : TypeInfo) nodeId key v :
  getType looksLikeADate v key = t -> scalar t = true ->
  0 < total ti -> is_undefined (example ti) = false ->
  exists ti',
    fst (update nodeId key v add (Some [(t, ti)])) = [(t, ti')] /\
    0 < total ti' /\ example ti' = example ti.
Proof.
  intros E Hs Hpos Hex.
  assert (Hn : getType looksLikeADate v key <> null)
    by (rewrite E; intros ->; discriminate).
  destruct (update_typed looksLikeADate nonStringKey nodeId key v add
              (Some [(t, ti)]) Hn) as (ti' & Hr & Htot & Hexa & _).
  assert (Hget : dget [(t, ti)] t = Some ti).
  { unfold dget. simpl. now rewrite tag_eqb_refl. }
  rewrite E in Hr, Htot, Hexa. cbn [orElse] in Hr, Htot, Hexa.
  unfold ValueDescriptor in *.
  rewrite Hget in Htot, Hexa. cbn [orElse] in Htot, Hexa.
  simpl delta_of in Htot.
  exists ti'. split; [|split].
  - rewrite Hr. unfold dset, JsObject.set. fold (dget [(t, ti)] t).
    rewrite Hget. simpl. now rewrite tag_eqb_refl.
  - lia.
  - rewrite Hexa, Hex. now rewrite andb_false_r.
Qed.

Lemma update_first (t : tag) nodeId key v :
  getType looksLikeADate v key = t -> scalar t = true ->
  exists ti',
    fst (update nodeId key v add (Some [])) = [(t, ti')] /\
    0 < total ti' /\ example ti' = v.
Proof.
  intros E Hs.
  assert (Hn : getType looksLikeADate v key <> null)
    by (rewrite E; intros ->; discriminate).
  destruct (update_typed looksLikeADate nonStringKey nodeId key v add
              (Some []) Hn) as (ti' & Hr & Htot & Hexa & _).
  rewrite E in *. simpl in Htot, Hexa.
  exists ti'. split; [|split].
  - rewrite Hr. reflexivity.
  - lia.
  - rewrite Hexa, Hs. reflexivity.
Qed.

Lemma addNodes_single (field : string) (t : tag) (v : JsValue)
    (nodes : list (obj JsValue)) :
  scalar t = true -> is_undefined v = false ->
  forall m ti,
    ignored m = false -> tracked m field = true ->
    Forall (fun node => NoDup (okeys node)) nodes ->
    (forall node x, In node nodes -> oget node field = Some x ->
                    getType looksLikeADate x field = t \/
                    getType looksLikeADate x field = null) ->
    field_descriptor (fieldMap m) field = [(t, ti)] ->
    0 < total ti -> example ti = v ->
    exists ti',
      field_descriptor (fieldMap (addNodes' m nodes)) field = [(t, ti')] /\
      0 < total ti' /\ example ti' = v.
Proof.
  intros Hs Hv.
  induction nodes as [|node nodes IH]; intros m ti Hi Ht Hn Hty Hd Hpos Hex.
  - exists ti. auto.
  - apply Forall_cons_iff in Hn. destruct Hn as [Hnode Hrest].
    unfold addNodes in *. simpl fold_left.
    destruct (updateTypeMetadata_tracked looksLikeADate nonStringKey m add
                node Hi) as (Hi' & Hf' & _).
    assert (Ht' : tracked (addNode looksLikeADate nonStringKey m node) field
                  = true).
    { unfold tracked, addNode in *. now rewrite Hf'. }
    assert (Hty' : forall n x, In n nodes -> oget n field = Some x ->
                     getType looksLikeADate x field = t \/
                     getType looksLikeADate x field = null).
    { intros n x Hin. apply Hty. now right. }
    pose proof (updateTypeMetadata_field m add node field Hi Ht Hnode)
      as Hfield.
    fold (addNode looksLikeADate nonStringKey m node) in Hfield.
    destruct (oget node field) as [x|] eqn:E.
    + destruct (Hty node x (or_introl eq_refl) E) as [Hx|Hx].
      * rewrite Hd in Hfield.
        destruct (update_single ti (node_id node) field x Hx Hs Hpos)
          as (ti1 & H1 & Hpos1 & Hex1).
        { now rewrite Hex. }
        unfold ValueDescriptor in *. rewrite H1 in Hfield.
        apply (IH _ ti1 Hi' Ht' Hrest Hty' Hfield Hpos1).
        now rewrite Hex1.
      * rewrite update_null in Hfield by exact Hx. simpl in Hfield.
        rewrite Hd in Hfield.
        apply (IH _ ti Hi' Ht' Hrest Hty' Hfield Hpos Hex).
    + rewrite Hd in Hfield.
      apply (IH _ ti Hi' Ht' Hrest Hty' Hfield Hpos Hex).
Qed.

Lemma single_type_builds (t : tag) (ti : TypeInfo) r a p :
  scalar t = true -> 0 < total ti ->
  buildExampleValue [(t, ti)] r a p = Ok (example ti) [].
Proof.
  intros Hs Hpos.
  assert (Hget : dget [(t, ti)] t = Some ti).
  { unfold dget. simpl. now rewrite tag_eqb_refl. }
  assert (Hres : resolveWinnerType [(t, ti)] = (t, false)).
  { assert (Hposs : possibleTypes [(t, ti)] = [t]).
    { unfold possibleTypes, dkeys, JsObject.keys. cbn [map fst filter].
      rewrite Hget. unfold positive.
      now rewrite (proj2 (Z.ltb_lt 0 (total ti)) Hpos). }
    unfold resolveWinnerType. now rewrite Hposs. }
  assert (Hmix : isMixOfDateAndString [(t, ti)] = false).
  { unfold isMixOfDateAndString, dget. simpl.
    destruct t; simpl; rewrite ?andb_false_r; reflexivity. }
  rewrite buildExampleValue_unfold. unfold buildExampleValue_body.
  rewrite Hres. simpl andb. cbv iota. rewrite bind_ret_l.
  destruct t; try discriminate; rewrite ?Hmix, Hget; reflexivity.
Qed.
End FieldOfRecord.

(** From records to the example: on a fresh metadata, when every value
    the plain records (objects: no key twice) give a tracked field is
    of one scalar type or has no type, the example object of the
    metadata after [addNodes] holds, for the field, the value of the
    first record that gives it a value of that type. *)
Theorem first_value_is_the_example (looksLikeADate : string -> bool)
    (nonStringKey : JsValue -> string) (m : TypeMetadata)
    (before after : list (obj JsValue)) (node : obj JsValue)
    (field : string) (t : tag) (v : JsValue) (typeName : string)
    (r : bool) :
  forallb plain_record (before ++ node :: after) = true ->
  ignored m = false -> fieldMap m = None ->
  tracked m field = true -> field <> "" -> scalar t = true ->
  Forall (fun node => NoDup (okeys node)) (before ++ node :: after) ->
  (forall n x, In n (before ++ node :: after) -> oget n field = Some x ->
               getType looksLikeADate x field = t \/
               getType looksLikeADate x field = null) ->
  (forall n, In n before -> has_type looksLikeADate field t n = false) ->
  oget node field = Some v -> getType looksLikeADate v field = t ->
  exists fm o lg,
    fieldMap (addNodes looksLikeADate nonStringKey m
                (before ++ node :: after)) = Some fm /\
    getExampleObject fm typeName r = Ok o lg /\
    oget o field = Some v.
Proof.
  intros _ Hi Hfm Ht Hfield Hs Hn Hty Hbefore Hv Htv.
  assert (Hsv : scalar (getType looksLikeADate v field) = true)
    by now rewrite Htv.
  destruct (scalar_value looksLikeADate v field Hsv) as [Hund Hnull].
  apply Forall_app in Hn. destruct Hn as [Hn1 Hn2].
  apply Forall_cons_iff in Hn2. destruct Hn2 as [Hnode Hn3].
  (* the records before the first value of the type *)
  assert (H1 : field_descriptor
                 (fieldMap (addNodes looksLikeADate nonStringKey m before))
                 field = []).
  { rewrite addNodes_untyped; auto.
    - unfold field_descriptor. now rewrite Hfm.
    - intros n x Hin Hx.
      destruct (Hty n x (in_or_app _ _ _ (or_introl Hin)) Hx) as [E|E];
        [|exact E].
      specialize (Hbefore n Hin). unfold has_type in Hbefore.
      rewrite Hx, E, tag_eqb_refl in Hbefore. discriminate. }
  destruct (addNodes_tracked looksLikeADate nonStringKey before m Hi)
    as [Hi1 Hf1].
  set (m1 := addNodes looksLikeADate nonStringKey m before) in *.
  assert (Ht1 : tracked m1 field = true)
    by (unfold tracked in *; now rewrite Hf1).
  (* the record that brings it *)
  pose proof (updateTypeMetadata_field looksLikeADate nonStringKey m1 add
                node field Hi1 Ht1 Hnode) as H2.
  unfold ValueDescriptor in *. rewrite Hv, H1 in H2.
  destruct (update_first looksLikeADate nonStringKey (node_id node)
              field v Htv Hs) as (ti1 & Hu & Hpos1 & Hex1).
  pose proof (eq_trans H2 Hu) as H2'. clear H2. rename H2' into H2.
  destruct (updateTypeMetadata_tracked looksLikeADate nonStringKey m1 add
              node Hi1) as (Hi2 & Hf2 & _).
  fold (addNode looksLikeADate nonStringKey m1 node) in H2, Hi2, Hf2.
  set (m2 := addNode looksLikeADate nonStringKey m1 node) in *.
  assert (Ht2 : tracked m2 field = true)
    by (unfold tracked in *; now rewrite Hf2).
  (* the records after it *)
  destruct (@addNodes_single looksLikeADate nonStringKey field t v after
              Hs Hund m2 ti1 Hi2 Ht2 Hn3) as (ti & Hd & Hpos & Hex); auto.
  { intros n x Hin. apply Hty. apply in_or_app. right. now right. }
  assert (Hall : addNodes looksLikeADate nonStringKey m
                   (before ++ node :: after)
                 = addNodes looksLikeADate nonStringKey m2 after).
  { rewrite addNodes_app. reflexivity. }
  rewrite Hall.
  (* the example object *)
  assert (Hw : well_formed_fieldMap
                 (fieldMap (addNodes looksLikeADate nonStringKey m2 after))).
  { rewrite <- Hall.
    assert (Hmut : forall ns m0,
               addNodes looksLikeADate nonStringKey m0 ns
               = mutations looksLikeADate nonStringKey (map AddNode ns) m0).
    { unfold addNodes, mutations.
      induction ns as [|n0 ns IH]; intros m0; [reflexivity|].
      simpl. apply IH. }
    rewrite Hmut. apply mutations_well_formed.
    intros fm0 name d0 H. congruence. }
  unfold field_descriptor in Hd.
  destruct (fieldMap (addNodes looksLikeADate nonStringKey m2 after))
    as [fm|] eqn:Efm; [|discriminate].
  destruct (oget fm field) as [d|] eqn:Ed; [|discriminate].
  simpl in Hd. subst d.
  assert (Hret : returns (getExampleObject fm typeName r)).
  { apply getExampleObject_with_returns. intros name d0 Hd0.
    apply buildExampleValue_returns. eapply Hw; eauto. }
  destruct Hret as (o & lg & Ho).
  exists fm, o, lg. split; [reflexivity|]. split; [exact Ho|].
  apply (@getExampleObject_has fm typeName r o lg field v [(t, ti)] []
           Ho Hfield Hnull Ed).
  rewrite single_type_builds by assumption. now rewrite Hex.
Qed.

(** ** The statements on concrete inputs *)


Lemma array_example_wraps_item_witness :
  resolveWinnerType seen_array_1_2 = (array, false) /\
  buildExampleValue seen_array_1_2 false false "T.f"
  = Ok (VArr [VNum (number_of_Z 1)]) [] /\
  exists ti,
    dget seen_array_1_2 array = Some ti /\
    match item ti with
    | Some it =>
        exists x,
          buildExampleValue it false true "T.f" = Ok x [] /\
          VArr [VNum (number_of_Z 1)]
          = if is_null x then VNull else VArr [x]
    | None => VArr [VNum (number_of_Z 1)] = VNull /\ @nil Conflict = []
    end.
Proof.
  assert (H1 : resolveWinnerType seen_array_1_2 = (array, false))
    by reflexivity.
  assert (H2 : buildExampleValue seen_array_1_2 false false "T.f"
               = Ok (VArr [VNum (number_of_Z 1)]) [])
    by (vm_compute; reflexivity).
  split; [exact H1|]. split; [exact H2|].
  exact (@array_example_wraps_item seen_array_1_2 false false "T.f" false
           _ _ H1 H2).
Defined.

Lemma date_string_mix_example_witness :
  Permutation (possibleTypes date_and_string) [date; string_] /\
  buildExampleValue date_and_string true false "T.f" = Ok (VStr "String") [].
Proof.
  assert (H : Permutation (possibleTypes date_and_string) [date; string_])
    by exact (Permutation_refl [date; string_]).
  split; [exact H|].
  exact (@date_string_mix_example date_and_string true false "T.f" H).
Defined.

Lemma scalar_winner_example_witness :
  resolveWinnerType int_and_float = (float, false) /\
  exists ti,
    dget int_and_float float = Some ti /\ 0 < total ti /\
    buildExampleValue int_and_float true false "T.foo" = Ok (example ti) [].
Proof.
  assert (H : resolveWinnerType int_and_float = (float, false))
    by (vm_compute; reflexivity).
  split; [exact H|].
  exact (@scalar_winner_example int_and_float float false true false
           "T.foo" H eq_refl eq_refl).
Defined.

Lemma getExampleObject_reports_witness :
  getExampleObject conflict_fieldMap "T" true = Ok [] [conflict_on_foo] /\
  true = true /\
  exists field,
    In field (okeys conflict_fieldMap) /\
    extends_path ("T" ++ "." ++ field) (conflict_path conflict_on_foo).
Proof.
  assert (H : getExampleObject conflict_fieldMap "T" true
              = Ok [] [conflict_on_foo])
    by (vm_compute; reflexivity).
  split; [exact H|].
  exact (@getExampleObject_reports conflict_fieldMap "T" true _ _
           conflict_on_foo H (or_introl eq_refl)).
Defined.

Lemma getExampleObject_without_reporter_witness :
  getExampleObject conflict_fieldMap "T" true = Ok [] [conflict_on_foo] /\
  getExampleObject conflict_fieldMap "U" false = Ok [] [].
Proof.
  assert (H : getExampleObject conflict_fieldMap "T" true
              = Ok [] [conflict_on_foo])
    by (vm_compute; reflexivity).
  split; [exact H|].
  exact (@getExampleObject_without_reporter conflict_fieldMap "T" "U" true
           _ _ H).
Defined.


Lemma counters_ignore_order_witness :
  counter_at (mutations neverADate emptyKey
                [AddNode conflict_n1; DeleteNode conflict_n2]
                metadata_ignoring_id) "foo" [] (TotalOf int)
  = counter_at (mutations neverADate emptyKey
                  [DeleteNode conflict_n2; AddNode conflict_n1]
                  metadata_ignoring_id) "foo" [] (TotalOf int).
Proof.
  exact (@counters_ignore_order neverADate emptyKey
           [AddNode conflict_n1; DeleteNode conflict_n2]
           [DeleteNode conflict_n2; AddNode conflict_n1]
           metadata_ignoring_id "foo" [] (TotalOf int) eq_refl
           (perm_swap (DeleteNode conflict_n2) (AddNode conflict_n1) [])
           eq_refl).
Defined.

Lemma total_counts_records_witness :
  counter_at (addNodes neverADate emptyKey metadata_ignoring_id
                [conflict_n1; conflict_n2]) "foo" [] (TotalOf int)
  = counter_at metadata_ignoring_id "foo" [] (TotalOf int)
    + Z.of_nat (List.length
                  (filter (has_type neverADate "foo" int)
                     [conflict_n1; conflict_n2])).
Proof.
  apply (@total_counts_records neverADate emptyKey metadata_ignoring_id
           [conflict_n1; conflict_n2] "foo" int);
    [reflexivity | reflexivity | reflexivity | discriminate |].
  repeat constructor; simpl; intuition discriminate.
Defined.

Lemma updateTypeMetadata_fields_witness :
  exists fm,
    fieldMap (updateTypeMetadata neverADate emptyKey metadata_ignoring_id
                add conflict_n1) = Some fm /\
    (oget conflict_n1 "id" = None \/
     tracked metadata_ignoring_id "id" = false ->
     oget fm "id" = oget (orElse (fieldMap metadata_ignoring_id) []) "id") /\
    (oget conflict_n1 "id" <> None ->
     tracked metadata_ignoring_id "id" = true ->
     oget fm "id" <> None).
Proof.
  exact (@updateTypeMetadata_fields neverADate emptyKey
           metadata_ignoring_id add conflict_n1 "id" eq_refl eq_refl).
Defined.

Lemma ignored_fields_never_tracked_witness :
  oget (orElse (fieldMap (mutations neverADate emptyKey
                            [AddNode conflict_n1; DeleteNode conflict_n2]
                            metadata_ignoring_id)) []) "id" = None.
Proof.
  exact (@ignored_fields_never_tracked neverADate emptyKey
           [AddNode conflict_n1; DeleteNode conflict_n2]
           metadata_ignoring_id "id" eq_refl eq_refl).
Defined.

Lemma dirty_is_never_cleared_witness :
  dirty (mutations neverADate emptyKey
           [AddNode null_node; Ignore true; DeleteNode conflict_n1]
           dirty_metadata) = true.
Proof.
  exact (@dirty_is_never_cleared neverADate emptyKey
           [AddNode null_node; Ignore true; DeleteNode conflict_n1]
           dirty_metadata eq_refl).
Defined.

Lemma type_set_change_sets_dirty_witness :
  dirty (updateTypeMetadata neverADate emptyKey metadata_ignoring_id add
           conflict_n1) = true.
Proof.
  apply (@type_set_change_sets_dirty neverADate emptyKey
           metadata_ignoring_id add conflict_n1 "foo"
           (VNum (number_of_Z 25)));
    [ reflexivity
    | reflexivity
    | repeat constructor; simpl; intuition discriminate
    | reflexivity
    | reflexivity
    | vm_compute; discriminate
    | reflexivity ].
Defined.

Lemma untyped_record_changes_nothing_witness :
  dirty (updateTypeMetadata neverADate emptyKey metadata_ignoring_id add
           null_node) = dirty metadata_ignoring_id /\
  field_descriptor
    (fieldMap (updateTypeMetadata neverADate emptyKey metadata_ignoring_id
                 add null_node)) "foo"
  = field_descriptor (fieldMap metadata_ignoring_id) "foo".
Proof.
  apply (@untyped_record_changes_nothing neverADate emptyKey
           metadata_ignoring_id add null_node "foo" eq_refl).
  intros k v [H|[H|[]]] Ht; injection H as <- <-;
    [discriminate Ht | reflexivity].
Defined.

Lemma isEmpty_after_matched_deletes_witness :
  isEmpty (mutations neverADate emptyKey
             [DeleteNode conflict_n1; AddNode conflict_n1]
             metadata_without_fields)
  = isEmpty metadata_without_fields.
Proof.
  apply (@isEmpty_after_matched_deletes neverADate emptyKey
           metadata_without_fields [conflict_n1]
           [DeleteNode conflict_n1; AddNode conflict_n1]).
  - reflexivity.
  - discriminate.
  - apply perm_swap.
Defined.

Lemma reference_change_sets_flag_witness :
  snd (updateValueDescriptor neverADate emptyKey (Some "1")
         "related___NODE" (VArr [VStr "a"; VStr "b"]) add None) = true.
Proof.
  apply (@reference_change_sets_flag neverADate emptyKey (Some "1")
           "related___NODE" [VStr "a"; VStr "b"] add None "a");
    [ reflexivity | vm_compute; reflexivity | left; reflexivity
    | reflexivity ].
Defined.


Lemma first_value_is_the_example_witness :
  exists fm o lg,
    fieldMap (addNodes neverADate emptyKey metadata_ignoring_id
                ([null_node] ++ conflict_n1 :: [seven_node])) = Some fm /\
    getExampleObject fm "T" false = Ok o lg /\
    oget o "foo" = Some (VNum (number_of_Z 25)).
Proof.
  apply (@first_value_is_the_example neverADate emptyKey
           metadata_ignoring_id [null_node] [seven_node] conflict_n1 "foo"
           int (VNum (number_of_Z 25)) "T" false);
    try reflexivity.
  - discriminate.
  - repeat constructor; simpl; intuition discriminate.
  - intros n x [<-|[<-|[<-|[]]]] Hx; vm_compute in Hx;
      injection Hx as <-; [right | left | left]; reflexivity.
  - intros n [<-|[]]. reflexivity.
Defined.

Lemma addNodes_counts_witness :
  counter_at (addNodes neverADate emptyKey metadata_ignoring_id
                [related_node; conflict_n1]) "related___NODE" []
    (NodesOf "a")
  = counter_at metadata_ignoring_id "related___NODE" [] (NodesOf "a")
    + (if ignored metadata_ignoring_id then 0
       else Zsum (map (fun node =>
                         record_contribution neverADate emptyKey
                           metadata_ignoring_id node "related___NODE" []
                           (NodesOf "a")) [related_node; conflict_n1])).
Proof.
  exact (@addNodes_counts neverADate emptyKey metadata_ignoring_id
           [related_node; conflict_n1] "related___NODE" [] (NodesOf "a")
           eq_refl).
Defined.

Lemma addNode_raises_deleteNode_lowers_witness :
  counter_at metadata_ignoring_id "foo" [] (TotalOf int)
  <= counter_at (addNode neverADate emptyKey metadata_ignoring_id
                   conflict_n1) "foo" [] (TotalOf int) /\
  counter_at (deleteNode neverADate emptyKey metadata_ignoring_id
                conflict_n1) "foo" [] (TotalOf int)
  <= counter_at metadata_ignoring_id "foo" [] (TotalOf int).
Proof.
  exact (@addNode_raises_deleteNode_lowers neverADate emptyKey
           metadata_ignoring_id conflict_n1 "foo" [] (TotalOf int)
           eq_refl).
Defined.

Lemma update_touches_one_type_witness :
  let d' := fst (updateValueDescriptor neverADate emptyKey (Some "2") "f"
                   (VStr "x") add (Some seen_25)) in
  (forall t', t' <> string_ -> dget d' t' = dget seen_25 t') /\
  dkeys d' = [int; string_].
Proof.
  exact (@update_touches_one_type neverADate emptyKey (Some "2") "f"
           (VStr "x") add (Some seen_25) eq_refl).
Defined.
